(** * ab12phylo: alignment trimming and concatenation

    A shallow embedding of the trimming and concatenation code of
    [ab12phylo/msa.py] (class [msa_build]) and [ab12phylo/gtk_gbl.py]
    (class [gbl_page]), and the properties of that code.

    Layout: Python primitives the code relies on ([py]), the command-line
    pipeline ([msa_build]), the GTK trimming page ([gbl_page]), the
    parameter table of the specification ([spec]), then the theorems. *)

From Stdlib Require Import ZArith Lia Ascii String SpecFloat.
From Stdlib Require Import Decimal DecimalString DecimalNat.
From stdpp Require Import gmap strings list fin_maps sorting.

Local Open Scope string_scope.
Local Open Scope Z_scope.

(* ===================================================================== *)
(** * Python primitives *)
(* ===================================================================== *)

Module py.

(** Uncaught exceptions that the modelled code can run into. *)
Inductive exn : Set :=
| KeyError | IndexError | ValueError | NameError
| FileNotFoundError | OverflowError | AssertionError | TypeError.

(** Outcome of a piece of Python code: a value, an uncaught exception, or
    [exit(code)]. *)
Inductive result (A : Type) : Type :=
| Return (a : A)
| Raise (e : exn)
| Exit (code : Z).
Global Arguments Return {A} a.
Global Arguments Raise {A} e.
Global Arguments Exit {A} code.

Definition bind {A B} (k : A → result B) (m : result A) : result B :=
  match m with
  | Return a => k a
  | Raise e => Raise e
  | Exit c => Exit c
  end.

Global Instance result_ret : MRet result := @Return.
Global Instance result_bind : MBind result := @bind.

(** A list comprehension [[f(x) for x in l]] whose body may raise. *)
Fixpoint comprehension {A B} (f : A → result B) (l : list A) : result (list B) :=
  match l with
  | [] => Return []
  | x :: l' => y ← f x; ys ← comprehension f l'; Return (y :: ys)
  end.

(** ** Strings *)

(** [str.isspace] on code points below 256. *)
Definition isspace (c : ascii) : bool :=
  let n := nat_of_ascii c in
  ((9 <=? n)%nat && (n <=? 13)%nat) || ((28 <=? n)%nat && (n <=? 32)%nat)
  || (n =? 133)%nat || (n =? 160)%nat.

Definition isdigit (c : ascii) : bool :=
  let n := nat_of_ascii c in (48 <=? n)%nat && (n <=? 57)%nat.

Definition digit_value (c : ascii) : Z := Z.of_nat (nat_of_ascii c) - 48.

(** ASCII upper-casing of one symbol, as [Seq.upper] does on sequence data. *)
Definition upper_ascii (c : ascii) : ascii :=
  let n := nat_of_ascii c in
  if ((97 <=? n)%nat && (n <=? 122)%nat)%bool then ascii_of_nat (n - 32) else c.

Fixpoint upper (s : string) : string :=
  match s with
  | EmptyString => EmptyString
  | String c r => String (upper_ascii c) (upper r)
  end.

Fixpoint lstrip (s : string) : string :=
  match s with
  | EmptyString => EmptyString
  | String c r => if isspace c then lstrip r else s
  end.

Fixpoint rstrip (s : string) : string :=
  match s with
  | EmptyString => EmptyString
  | String c r =>
      match rstrip r with
      | EmptyString => if isspace c then EmptyString else String c EmptyString
      | r' => String c r'
      end
  end.

(** [s.strip()] *)
Definition strip (s : string) : string := rstrip (lstrip s).

(** [s.startswith(p)] *)
Definition startswith (s p : string) : bool := String.prefix p s.

(** [s.endswith(p)] *)
Definition endswith (s p : string) : bool :=
  (String.length p <=? String.length s)%nat
  && String.eqb (substring (String.length s - String.length p) (String.length p) s) p.

(** Index normalisation of a slice bound: negative bounds count from the
    end, and both are clipped to [0, len]. *)
Definition slice_bound (i len : Z) : Z :=
  if i <? 0 then Z.max (i + len) 0 else Z.min i len.

(** [s[i:j]] *)
Definition slice (s : string) (i j : Z) : string :=
  let len := Z.of_nat (String.length s) in
  let a := slice_bound i len in
  let b := slice_bound j len in
  substring (Z.to_nat a) (Z.to_nat (b - a)) s.

(** [s.split(sep)] for a non-empty separator: [cur] holds the piece read so
    far, [skip] the number of symbols of a separator still to pass over. *)
Fixpoint split_go (sep : string) (skip : nat) (cur : string) (s : string)
  : list string :=
  match s with
  | EmptyString => [cur]
  | String c r =>
      match skip with
      | S k => split_go sep k cur r
      | O =>
          if String.prefix sep s
          then cur :: split_go sep (String.length sep - 1) EmptyString r
          else split_go sep O (cur ++ String c EmptyString) r
      end
  end.

Definition split (s sep : string) : list string := split_go sep O EmptyString s.

(** Digits of an integer literal; single underscores may separate digits. *)
Fixpoint int_digits (acc : Z) (after_digit : bool) (s : string) : result Z :=
  match s with
  | EmptyString => if after_digit then Return acc else Raise ValueError
  | String c r =>
      if isdigit c then int_digits (10 * acc + digit_value c) true r
      else if (Ascii.eqb c "_" && after_digit)%bool then int_digits acc false r
      else Raise ValueError
  end.

(** [int(s)] for a string [s], base ten. *)
Definition int (s : string) : result Z :=
  match strip s with
  | String "-" r => n ← int_digits 0 false r; Return (- n)
  | String "+" r => int_digits 0 false r
  | r => int_digits 0 false r
  end.

(** Lines of a text file opened with universal newlines, as iterating the
    file object yields them: each line keeps its terminator as a line feed. *)
Fixpoint readlines_go (cur : string) (s : string) : list string :=
  match s with
  | EmptyString => match cur with EmptyString => [] | _ => [cur] end
  | String c r =>
      if Ascii.eqb c "010" then (cur ++ String "010" EmptyString) :: readlines_go EmptyString r
      else if Ascii.eqb c "013" then
        (cur ++ String "010" EmptyString) ::
        match r with
        | String c' r' =>
            if Ascii.eqb c' "010" then readlines_go EmptyString r'
            else readlines_go EmptyString r
        | EmptyString => []
        end
      else readlines_go (cur ++ String c EmptyString) r
  end.

Definition readlines (s : string) : list string := readlines_go EmptyString s.

(** ** Floats: IEEE 754 binary64, round to nearest even *)

Definition prec : Z := 53.
Definition emax : Z := 1024.

(** [float(n)] for an int [n]: correctly rounded, [OverflowError] when out
    of range. *)
Definition float_of_int (n : Z) : result spec_float :=
  match binary_normalize prec emax n 0 false with
  | S754_infinity _ => Raise OverflowError
  | f => Return f
  end.

(** [int(f)] for a float [f]: truncation towards zero. *)
Definition int_of_float (f : spec_float) : result Z :=
  match f with
  | S754_zero _ => Return 0
  | S754_infinity _ => Raise OverflowError
  | S754_nan => Raise ValueError
  | S754_finite s m e =>
      let v := if 0 <=? e then Z.pos m * 2 ^ e else Z.pos m / 2 ^ (- e) in
      Return (if s then - v else v)
  end.

(** The literals [0.9] (also written [.9]) and [0.85]. *)
Definition f0_9 : spec_float := S754_finite false 8106479329266893 (-53).
Definition f0_85 : spec_float := S754_finite false 7656119366529843 (-53).

(** [int(n * c)] for an int [n] and a float [c]. *)
Definition int_mul (n : Z) (c : spec_float) : result Z :=
  f ← float_of_int n; int_of_float (SFmul prec emax f c).

(** ** [range] objects

    Two ranges are equal when they denote the same sequence of values, so a
    range is represented by that sequence. *)
Definition range (start stop : Z) : list Z := seqZ start (stop - start).

End py.

(* ===================================================================== *)
(** * Files and the external trimmer *)
(* ===================================================================== *)

Module env.

(** One launch of the Gblocks binary: the alignment it is pointed at and the
    options on its command line ([-b3] is only given by the GTK page; [-p]
    selects the report). *)
Record gblocks_call : Type := {
  target : string;
  b1 : Z;
  b2 : Z;
  b3 : option Z;
  b4 : Z;
  b5 : string;
  p : string;
}.

(** The part of the outside world the code acts on: files by path, and the
    launches of the external trimmer so far, oldest first. *)
Record world : Type := {
  files : gmap string string;
  calls : list gblocks_call;
}.

(** [os.path.join(a, b)] / [a / b] *)
Definition join (a b : string) : string :=
  if py.startswith b "/" then b
  else if (String.eqb a "" || py.endswith a "/")%bool then a +:+ b
  else a +:+ "/" +:+ b.

(** [shutil.copy(src, dst)] *)
Definition copy (src dst : string) (w : world) : py.result world :=
  match files w !! src with
  | None => py.Raise py.FileNotFoundError
  | Some c => py.Return {| files := <[dst := c]> (files w); calls := calls w |}
  end.

(** [shutil.move(src, dst)] *)
Definition move (src dst : string) (w : world) : py.result world :=
  match files w !! src with
  | None => py.Raise py.FileNotFoundError
  | Some c =>
      py.Return {| files := <[dst := c]> (delete src (files w)); calls := calls w |}
  end.

End env.

(* ===================================================================== *)
(** * msa.py: class msa_build *)
(* ===================================================================== *)

Module msa_build.

(** Option values computed by [trim_msa] for the Gblocks command line. *)
Record options : Type := {
  cons : Z;
  flank : Z;
  gaps : string;
  b4 : Z;
}.

(** The attributes of [self] that trimming and concatenation read. *)
Record self : Type := {
  dir : string;
  genes : list string;
  sep : string;
}.

(** State of the sample loop of [concat_msa]. *)
Record concat_state : Type := {
  all_records : gmap string (gmap string string);
  missing_genes : gmap string (list string);
  written : list (string * string);
  shared : Z;
}.

Section pipeline.
(** The Gblocks binary: what a launch (with its log file) does to the
    files, and the error text if launching the command raised. *)
Variable Gblocks :
  env.gblocks_call → gmap string string → gmap string string * option string.
(** [Bio.SeqIO.parse(path, 'fasta')] on the text of a file: the records'
    [id] and [seq], in file order. *)
Variable SeqIO_parse : string → list (string * string).
(** The order in which iterating a [set] yields its members. *)
Variable set_order : gset string → list string.
(** The index [random.choice] draws for a gene's alignment. *)
Variable pick : string → nat.

Definition raw_msa_path (s : self) (gene : string) : string :=
  env.join (env.join (dir s) gene) (gene +:+ "_raw_msa.fasta").

Definition msa_path (s : self) (gene : string) : string :=
  env.join (env.join (dir s) gene) (gene +:+ "_msa.fasta").

(** [trim_msa], "set Gblocks options": the values of [cons], [flank],
    [gaps] and [b4] when the [else] branch of the mode test is taken. *)
Definition gblocks_options (seq_count : Z) (gblocks_mode : string)
  : py.result options :=
  let b4 := 5 in
  if String.eqb gblocks_mode "relaxed" then
    let cons := seq_count `div` 2 + 1 in
    let flank := cons in
    py.Return {| cons := cons; flank := flank; gaps := "h"; b4 := b4 |}
  else if String.eqb gblocks_mode "balanced" then
    let cons := seq_count `div` 2 + 1 in
    let flank := Z.min (seq_count `div` 4 * 3 + 1) seq_count in
    py.Return {| cons := cons; flank := flank; gaps := "h"; b4 := b4 |}
  else if String.eqb gblocks_mode "default" then
    let cons := seq_count `div` 2 + 1 in
    f ← py.int_mul seq_count py.f0_85;
    let flank := Z.min (f + 1) seq_count in
    let b4 := 10 in
    py.Return {| cons := cons; flank := flank; gaps := "n"; b4 := b4 |}
  else
    cons ← py.int_mul seq_count py.f0_9;
    let flank := cons in
    py.Return {| cons := cons; flank := flank; gaps := "n"; b4 := b4 |}.

(** The command line built from the options: [-b2] takes [flank], [-b1]
    takes [cons]. *)
Definition gblocks_command (raw_msa : string) (o : options) : env.gblocks_call :=
  {| env.target := raw_msa; env.b1 := cons o; env.b2 := flank o;
     env.b3 := None; env.b4 := b4 o; env.b5 := gaps o; env.p := "n" |}.

(** [_run]: launch the command; when [subprocess.run] reports a failed
    command the program ends with [sys.exit(1)]. *)
Definition _run (c : env.gblocks_call) (w : env.world) : py.result env.world :=
  let '(fs, err) := Gblocks c (env.files w) in
  match err with
  | None => py.Return {| env.files := fs; env.calls := (env.calls w ++ [c])%list |}
  | Some _ => py.Exit 1
  end.

Definition trim_msa (s : self) (gene : string) (seq_count : Z)
    (gblocks_mode : string) (w : env.world) : py.result env.world :=
  let raw_msa := raw_msa_path s gene in
  if String.eqb gblocks_mode "skip" then
    env.copy raw_msa (msa_path s gene) w
  else
    o ← gblocks_options seq_count gblocks_mode;
    w ← _run (gblocks_command raw_msa o) w;
    env.move (raw_msa +:+ ".txt") (msa_path s gene) w.

(** [{record.id: record.upper() for record in SeqIO.parse(...)}] *)
Definition read_records (text : string) : gmap string string :=
  foldl (λ m r, <[r.1 := py.upper r.2]> m) ∅ (SeqIO_parse text).

(** [{gene: {...} for gene in self.genes}] *)
Fixpoint read_all (s : self) (fs : gmap string string) (gs : list string)
    (acc : gmap string (gmap string string))
  : py.result (gmap string (gmap string string)) :=
  match gs with
  | [] => py.Return acc
  | gene :: gs' =>
      match fs !! msa_path s gene with
      | None => py.Raise py.FileNotFoundError
      | Some text => read_all s fs gs' (<[gene := read_records text]> acc)
      end
  end.

(** [len(random.choice(list(all_records[gene].values())))] *)
Definition choice_len (gene : string) (recs : gmap string string) : py.result Z :=
  let values := (map_to_list recs).*2 in
  match values !! (pick gene `mod` length values)%nat with
  | None => py.Raise py.IndexError
  | Some v => py.Return (Z.of_nat (String.length v))
  end.

(** The length of the trimmed, concatenated alignment: one randomly chosen
    record per gene of [all_records]. *)
Fixpoint sum_lengths (l : list (string * gmap string string)) (msa_len : Z)
  : py.result Z :=
  match l with
  | [] => py.Return msa_len
  | (gene, recs) :: l' =>
      n ← choice_len gene recs; sum_lengths l' (msa_len + n)
  end.

(** Body of [for gene in self.genes[1:]] for one sample: the record so far,
    the [skip] flag, and the two dictionaries the loop updates. *)
Fixpoint append_genes (sep sample_id : string) (others : list string)
    (record : string) (skip : bool)
    (recs : gmap string (gmap string string))
    (missing : gmap string (list string))
  : string * bool * gmap string (gmap string string) * gmap string (list string) :=
  match others with
  | [] => (record, skip, recs, missing)
  | gene :: others' =>
      let record := record +:+ sep in
      match recs !! gene ≫= (λ m, (m !! sample_id)) with
      | Some r =>
          append_genes sep sample_id others' (record +:+ r) skip
            (alter (delete sample_id) gene recs) missing
      | None =>
          append_genes sep sample_id others' record true recs
            (alter (λ l, (l ++ [sample_id])%list) gene missing)
      end
  end.

(** Body of [for sample_id in set(all_records[self.genes[0]])]. *)
Definition concat_sample (s : self) (first : string) (sample_id : string)
    (st : concat_state) : py.result concat_state :=
  match all_records st !! first ≫= (λ m, (m !! sample_id)) with
  | None => py.Raise py.KeyError
  | Some record =>
      let recs := alter (delete sample_id) first (all_records st) in
      let '(record, skip, recs, missing) :=
        append_genes (sep s) sample_id (tail (genes s)) record false recs
          (missing_genes st) in
      py.Return
        (if skip
         then {| all_records := recs; missing_genes := missing;
                 written := written st; shared := shared st |}
         else {| all_records := recs; missing_genes := missing;
                 written := (written st ++ [(sample_id, record)])%list;
                 shared := shared st + 1 |})
  end.

Fixpoint concat_samples (s : self) (first : string) (ids : list string)
    (st : concat_state) : py.result concat_state :=
  match ids with
  | [] => py.Return st
  | sample_id :: ids' =>
      st ← concat_sample s first sample_id st; concat_samples s first ids' st
  end.

(** [[missing_genes[self.genes[0]].extend(all_records[gene].keys())
     for gene in self.genes[1:]]]; the keys of one gene are taken in the
    order of [elements], the report turns them into a set. *)
Fixpoint extend_first (first : string) (others : list string)
    (recs : gmap string (gmap string string))
    (missing : gmap string (list string)) : gmap string (list string) :=
  match others with
  | [] => missing
  | gene :: others' =>
      extend_first first others' recs
        (alter (λ l, (l ++ elements (dom (default ∅ (recs !! gene))))%list) first missing)
  end.

(** [concat_msa]: the records written to the concatenated alignment, in
    the order written, and the dictionary [missing_genes] behind the
    missing-samples file. *)
Definition concat_msa (s : self) (w : env.world)
  : py.result (list (string * string) * gmap string (list string)) :=
  recs ← read_all s (env.files w) (genes s) ∅;
  msa_len ← sum_lengths (map_to_list recs) 0;
  let missing : gmap string (list string) :=
    list_to_map ((λ gene, (gene, [])) <$> genes s) in
  match genes s with
  | [] => py.Raise py.IndexError
  | first :: _ =>
      st ← concat_samples s first
             (set_order (dom (default ∅ (recs !! first))))
             {| all_records := recs; missing_genes := missing;
                written := []; shared := 0 |};
      if (1 <? Z.of_nat (length (genes s))) then
        if shared st =? 0 then py.Exit 1
        else py.Return (written st,
               extend_first first (tail (genes s)) (all_records st) (missing_genes st))
      else
        if msa_len =? 0 then py.Exit 1
        else py.Return (written st,
               extend_first first (tail (genes s)) (all_records st) (missing_genes st))
  end.

End pipeline.
End msa_build.

(* ===================================================================== *)
(** * gtk_gbl.py: class gbl_page *)
(* ===================================================================== *)

Module gbl_page.

(** A [Gtk.Adjustment]: the value of a spin button and its bounds. The spin
    buttons of this page step by whole numbers, so values are integers. *)
Record Adjustment : Type := {
  value : Z;
  lower : Z;
  upper : Z;
}.

(** [adj.configure(value, lower, upper, 1, 0, 0)]: the toolkit stores the
    bounds and clamps the value into them (upper bound first). *)
Definition configure (value lower upper : Z) : Adjustment :=
  {| value := Z.max (Z.min value upper) lower; lower := lower; upper := upper |}.

(** The entries of [iface.tempspace.params]:
    [[cons, flank, bad, good, gaps]]. *)
Definition param_list : Type := Z * Z * Z * Z * string.

(** The widgets and the scratch space of the page that the trimming code
    reads and writes. [params = None] is the initial empty list. *)
Record iface : Type := {
  gbl_preset : string;
  gaps : string;
  conserved : Adjustment;
  flank : Adjustment;
  good_block : Adjustment;
  bad_block : Adjustment;
  params : option param_list;
}.

(** The two spin buttons whose [changed] signal is connected to [edit]. *)
Inductive spin : Set := spin_conserved | spin_flank.

(** [re_preset]: apply the preset selected in the combo box, for an
    alignment of [n_sites] columns and [n_seqs] rows. *)
Definition re_preset (n_sites n_seqs : Z) (ui : iface) : py.result iface :=
  let mode := gbl_preset ui in
  let apply conserved flank gaps good_block bad_block :=
    py.Return
      {| gbl_preset := gbl_preset ui;
         gaps := gaps;
         conserved := configure conserved (n_seqs `div` 2 + 1) n_seqs;
         flank := configure flank (n_seqs `div` 2 + 1) n_seqs;
         good_block := configure good_block 2 n_sites;
         bad_block := configure bad_block 0 n_sites;
         params := params ui |} in
  if String.eqb mode "skip" then py.Return ui
  else if String.eqb mode "relaxed" then
    let conserved := n_seqs `div` 2 + 1 in
    let flank := conserved in
    apply conserved flank "half" 5 8
  else if String.eqb mode "balanced" then
    let conserved := n_seqs `div` 2 + 1 in
    let flank := Z.min (n_seqs `div` 4 * 3 + 1) n_seqs in
    apply conserved flank "half" 5 8
  else if String.eqb mode "default" then
    let conserved := n_seqs `div` 2 + 1 in
    f ← py.int_mul n_seqs py.f0_85;
    let flank := Z.min (f + 1) n_seqs in
    apply conserved flank "none" 10 8
  else if String.eqb mode "strict" then
    conserved ← py.int_mul n_seqs py.f0_9;
    let flank := conserved in
    apply conserved flank "none" 10 8
  else py.Raise py.AssertionError.

(** [edit]: "Just make sure flank is never smaller than conserved". *)
Definition edit (wi : spin) (ui : iface) : iface :=
  match wi with
  | spin_flank => ui
  | spin_conserved =>
      let adj := conserved ui in
      {| gbl_preset := gbl_preset ui;
         gaps := gaps ui;
         conserved := conserved ui;
         flank := configure (Z.max (value adj) (value (flank ui)))
                    (value adj) (upper (flank ui));
         good_block := good_block ui;
         bad_block := bad_block ui;
         params := params ui |}
  end.

(** [start_gbl]: [None] when the call returns without starting the thread,
    [Some ui] when the thread that runs [do_gbl] is started on [ui].
    [no_genes] is [not data.genes], [busy] is [iface.thread.is_alive()],
    [up_to_date] the test on [run_after], the alignment file and the page's
    errors. *)
Definition start_gbl (no_genes busy up_to_date : bool) (ui : iface)
  : py.result (option iface) :=
  if no_genes then py.Return None
  else if busy then py.Return None
  else if up_to_date then py.Return None
  else if negb (String.eqb (gbl_preset ui) "skip") then
    let cons := value (conserved ui) in
    let flank := value (flank ui) in
    let good := value (good_block ui) in
    let bad := value (bad_block ui) in
    match gaps ui with
    | EmptyString => py.Raise py.IndexError
    | String g _ =>
        let gaps := String g EmptyString in
        let flank := if flank <? cons then cons else flank in
        let params' : param_list := (cons, flank, bad, good, gaps) in
        if bool_decide (params ui = Some params') then py.Return None
        else
          py.Return (Some
            {| gbl_preset := gbl_preset ui; gaps := gbl_page.gaps ui;
               conserved := conserved ui; flank := gbl_page.flank ui;
               good_block := good_block ui; bad_block := bad_block ui;
               params := Some params' |})
    end
  else py.Return (Some ui).

(** What [do_gbl] reads from [data]. *)
Record data : Type := {
  genes : list string;
  gene_ids : gmap string (gset string);
  ignore_ids : gset string;
}.

(** The local variables of [do_gbl] that live across the gene loop, and the
    outside world. [line_blocks = None] while the name is unbound. *)
Record state : Type := {
  world : env.world;
  errors : list string;
  msa_lens : list Z;
  slices : gset (list Z);
  line_blocks : option (list string);
  i : Z;
}.

(** How the gene loop ends: by the early [return] after a mismatch, or by
    running through all genes. *)
Inductive ending : Type :=
| Aborted (st : state)
| Completed (st : state).

Definition set_world (w : env.world) (st : state) : state :=
  {| world := w; errors := errors st; msa_lens := msa_lens st;
     slices := slices st; line_blocks := line_blocks st; i := i st |}.

Definition add_error (e : string) (st : state) : state :=
  {| world := world st; errors := (errors st ++ [e])%list; msa_lens := msa_lens st;
     slices := slices st; line_blocks := line_blocks st; i := i st |}.

Definition add_len (n : Z) (st : state) : state :=
  {| world := world st; errors := errors st; msa_lens := (msa_lens st ++ [n])%list;
     slices := slices st; line_blocks := line_blocks st; i := i st |}.

Definition set_line_blocks (b : list string) (st : state) : state :=
  {| world := world st; errors := errors st; msa_lens := msa_lens st;
     slices := slices st; line_blocks := Some b; i := i st |}.

Definition add_slices (s : gset (list Z)) (st : state) : state :=
  {| world := world st; errors := errors st; msa_lens := msa_lens st;
     slices := slices st ∪ s; line_blocks := line_blocks st; i := i st |}.

Definition tick (st : state) : state :=
  {| world := world st; errors := errors st; msa_lens := msa_lens st;
     slices := slices st; line_blocks := line_blocks st; i := i st + 1 |}.

(** [sum(l)] *)
Definition sum (l : list Z) : Z := foldl Z.add 0 l.

(** [l[:-1]] *)
Definition but_last {A} (l : list A) : list A := take (length l - 1) l.

(** [ar.shape[1]] of [ar = np.array(rows)]: an empty list of rows gives a
    one-dimensional array, and so do rows of different lengths. *)
Definition shape1 (rows : list (list Z)) : py.result Z :=
  match rows with
  | [] => py.Raise py.IndexError
  | r :: rs =>
      if forallb (λ r', (length r' =? length r)%nat) rs
      then py.Return (Z.of_nat (length r))
      else py.Raise py.IndexError
  end.

(** The scan of the report: the line after the first line that starts with
    ['Flank positions of the'] and, stripped, ends with ['selected block(s)'];
    [fh.readline()] gives [''] at the end of the file. *)
Fixpoint flank_line (lines : list string) : option string :=
  match lines with
  | [] => None
  | line :: rest =>
      if (py.startswith line "Flank positions of the"
          && py.endswith (py.strip line) "selected block(s)")%bool
      then Some (hd "" rest)
      else flank_line rest
  end.

(** [lane.strip()[9:-1].split(']  [')] *)
Definition blocks_of_lane (lane : string) : list string :=
  py.split (py.slice (py.strip lane) 9 (-1)) "]  [".

(** [[int(b) + shift for b in block.split('  ')]] *)
Definition block_bounds (shift : Z) (block : string) : py.result (list Z) :=
  py.comprehension (λ b, n ← py.int b; py.Return (n + shift)) (py.split block "  ").

(** [range(r[0] - 1, r[1])] *)
Definition block_range (r : list Z) : py.result (list Z) :=
  match r with
  | r0 :: r1 :: _ => py.Return (py.range (r0 - 1) r1)
  | _ => py.Raise py.IndexError
  end.

(** [{range(r[0] - 1, r[1]) for r in [[int(b) + shift ...] for block in line_blocks]}] *)
Definition block_slices (shift : Z) (line_blocks : list string)
  : py.result (gset (list Z)) :=
  rs ← py.comprehension (block_bounds shift) line_blocks;
  ranges ← py.comprehension block_range rs;
  py.Return (list_to_set ranges).

Section trimming.
Variable Gblocks :
  env.gblocks_call → gmap string string → gmap string string * option string.
Variable SeqIO_parse : string → list (string * string).
(** [repo.seqtoint]: the integer codes of the symbols of a sequence. *)
Variable seqtoint : string → list Z.

Definition raw_msa_path (wd gene : string) : string :=
  env.join (env.join wd gene) (gene +:+ "_raw_msa.fasta").

Definition msa_path (wd gene : string) : string :=
  env.join (env.join wd gene) (gene +:+ "_msa.fasta").

(** The base call: [-b1 .. -b5] are filled from [iface.tempspace.params]
    in list order. *)
Definition base_call (ps : param_list) (raw_msa : string) : env.gblocks_call :=
  let '(c, f, bad, good, g) := ps in
  {| env.target := raw_msa; env.b1 := c; env.b2 := f; env.b3 := Some bad;
     env.b4 := good; env.b5 := g; env.p := "s" |}.

(** [{r.id: r.seq.upper() for r in SeqIO.parse(raw_msa, 'fasta')}] *)
Definition read_records (text : string) : gmap string string :=
  foldl (λ m r, <[r.1 := py.upper r.2]> m) ∅ (SeqIO_parse text).

(** The intersection of the sets in [data.gene_ids.values()] without
    [data.gbl.ignore_ids]; the code keeps it as a sorted list. *)
Definition shared_ids (d : data) : py.result (gset string) :=
  match (map_to_list (gene_ids d)).*2 with
  | [] => py.Raise py.TypeError
  | x :: xs => py.Return (foldl (∩) x xs ∖ ignore_ids d)
  end.

(** The part of the loop body after a successful Gblocks run. *)
Definition parse_result (raw_msa msa gene : string) (st : state)
  : py.result state :=
  w ← env.move (raw_msa +:+ ".txt") msa (world st);
  let st := set_world w st in
  match env.files w !! (raw_msa +:+ ".txt.txts") with
  | None => py.Raise py.FileNotFoundError
  | Some text =>
      let st :=
        match flank_line (py.readlines text) with
        | Some lane => set_line_blocks (blocks_of_lane lane) st
        | None => st
        end in
      match line_blocks st with
      | None => py.Raise py.NameError
      | Some blocks =>
          if bool_decide (blocks = [""]) then
            py.Return (add_error (gene +:+ ": no good blocks") st)
          else
            let shift := sum (but_last (msa_lens st)) in
            s ← block_slices shift blocks;
            py.Return (tick (add_slices s st))
      end
  end.

(** One pass of [for gene in data.genes]. [call] is [None] under the skip
    preset and the base call otherwise. *)
Definition gene_step (wd : string) (call : option (string → env.gblocks_call))
    (shared : gset string) (gene : string) (st : state) : py.result ending :=
  let raw_msa := raw_msa_path wd gene in
  let msa := msa_path wd gene in
  match env.files (world st) !! raw_msa with
  | None => py.Raise py.FileNotFoundError
  | Some text =>
      let records := read_records text in
      if bool_decide (dom records ≠ shared) then
        py.Return (Aborted
          (add_error ("MSA for " +:+ gene +:+ " does not match the dataset, please re-build.") st))
      else
        width ← shape1 ((λ _id, seqtoint (default "" (records !! _id))) <$> elements shared);
        let st := add_len width st in
        match call with
        | None =>
            w ← env.copy raw_msa msa (world st);
            py.Return (Completed (tick (set_world w st)))
        | Some arg =>
            let c := arg raw_msa in
            let '(fs, err) := Gblocks c (env.files (world st)) in
            let st := set_world {| env.files := fs;
                                   env.calls := (env.calls (world st) ++ [c])%list |} st in
            match err with
            | Some e => py.Return (Completed (add_error e st))
            | None => st ← parse_result raw_msa msa gene st; py.Return (Completed st)
            end
        end
  end.

Fixpoint gene_loop (wd : string) (call : option (string → env.gblocks_call))
    (shared : gset string) (gs : list string) (st : state) : py.result ending :=
  match gs with
  | [] => py.Return (Completed st)
  | gene :: gs' =>
      r ← gene_step wd call shared gene st;
      match r with
      | Aborted st => py.Return (Aborted st)
      | Completed st => gene_loop wd call shared gs' st
      end
  end.

(** [do_gbl] up to the end of the gene loop. *)
Definition do_gbl (wd : string) (d : data) (ui : iface) (w : env.world)
  : py.result ending :=
  call ← (if negb (String.eqb (gbl_preset ui) "skip") then
            match params ui with
            | None => py.Raise py.TypeError
            | Some ps => py.Return (Some (base_call ps))
            end
          else py.Return None);
  shared ← shared_ids d;
  gene_loop wd call shared (genes d)
    {| world := w; errors := []; msa_lens := []; slices := ∅;
       line_blocks := None; i := 1 |}.

End trimming.
(** The columns kept by the transparency mask, as [do_gbl] collects them
    after the gene loop:
    [blocks = set()], [while slices: blocks |= set(slices.pop())],
    [blocks = sorted(list(blocks))]. *)
Definition mask_blocks (slices : gset (list Z)) : list Z :=
  merge_sort Z.le (elements (⋃ (list_to_set <$> elements slices) : gset Z)).

(** The loop that picks the scale of the saved image:
    [scale = 6], [while max(data.msa_shape[:2]) * scale > 2 ** 14: scale -= 1].
    [fuel] bounds the number of tests of the loop condition. *)
Fixpoint scale_loop (fuel : nat) (width height scale : Z) : option Z :=
  match fuel with
  | O => None
  | S fuel' =>
      if 2 ^ 14 <? Z.max width height * scale
      then scale_loop fuel' width height (scale - 1)
      else Some scale
  end.

Section dropping.
(** A [SeqRecord] with its [id]; [SeqIO.parse(path, 'fasta')] on the text of
    a file, and the text [SeqIO.write(record, handle, 'fasta')] appends. *)
Context {SeqRecord : Type}.
Variable record_id : SeqRecord → string.
Variable SeqIO_parse : string → list SeqRecord.
Variable SeqIO_write : SeqRecord → string.
(** The order in which iterating a [set] yields its members. *)
Variable set_order : gset string → list string.
(** [repo.PATHS.msa] *)
Variable PATHS_msa : string.

(** [data.metadata]: gene, then sample id, then field. *)
Definition metadata : Type := gmap string (gmap string (gmap string string)).

(** [if _id in genemeta: genemeta[_id]['quality'] = 'manually dropped at trim_MSA'] *)
Definition mark_dropped (_id : string) (genemeta : gmap string (gmap string string))
  : gmap string (gmap string string) :=
  if bool_decide (_id ∈ dom genemeta)
  then alter (insert "quality" "manually dropped at trim_MSA") _id genemeta
  else genemeta.

(** [drop_seqs], up to the call of [write_metadata]: the files and the
    metadata it leaves. *)
Definition drop_seqs (wd : string) (ignore_ids : gset string) (md : metadata)
    (w : env.world) : py.result (env.world * metadata) :=
  if bool_decide (ignore_ids = ∅) then py.Return (w, md)
  else
    let msa := env.join wd PATHS_msa in
    let temp := env.join wd (PATHS_msa +:+ "_TEMP") in
    match env.files w !! msa with
    | None => py.Raise py.FileNotFoundError
    | Some text =>
        let kept := filter (λ r, record_id r ∉ ignore_ids) (SeqIO_parse text) in
        let fasta := foldl (λ out r, out +:+ SeqIO_write r) "" kept in
        w ← env.move temp msa
              {| env.files := <[temp := fasta]> (env.files w); env.calls := env.calls w |};
        py.Return (w, foldl (λ md _id, mark_dropped _id <$> md) md (set_order ignore_ids))
    end.

End dropping.

End gbl_page.

(* ===================================================================== *)
(** * cli.py: class parser *)
(* ===================================================================== *)

Module cli.

(** [self.error(message)]: [argparse] prints the message and ends the
    program with status 2. *)
Definition error {A} : py.result A := py.Exit 2.





(** [__init__], "check for duplicates in genes", in a run that is neither
    visualize nor view: [genes] is [None] when the option was not given. *)
Definition check_genes (genes : option (list string)) : py.result unit :=
  match genes with
  | None => py.Return ()
  | Some genes =>
      if (size (list_to_set genes : gset string) <? length genes)%nat then error
      else py.Return ()
  end.

End cli.

(* ===================================================================== *)
(** * Stand-ins for the external collaborators, for concrete runs *)
(* ===================================================================== *)

Module example.

(** The first whitespace-delimited word of a string. *)
Fixpoint first_word (s : string) : string :=
  match s with
  | EmptyString => EmptyString
  | String c r => if py.isspace c then EmptyString else String c (first_word r)
  end.

(** A plain FASTA reader: a line starting with [>] opens a record whose id
    is the first word of the title; the other lines are its sequence. *)
Fixpoint fasta_go (lines : list string) (cur : option (string * string))
  : list (string * string) :=
  match lines with
  | [] => match cur with Some r => [r] | None => [] end
  | l :: ls =>
      match py.strip l with
      | String ">" title =>
          (match cur with Some r => [r] | None => [] end
           ++ fasta_go ls (Some (first_word title, EmptyString)))%list
      | body =>
          match cur with
          | Some (id, sq) => fasta_go ls (Some (id, sq +:+ body))
          | None => fasta_go ls None
          end
      end
  end.

Definition fasta (text : string) : list (string * string) :=
  fasta_go (py.readlines text) None.

(** Symbol codes: the code point of each symbol. *)
Fixpoint codes (s : string) : list Z :=
  match s with
  | EmptyString => []
  | String c r => Z.of_nat (nat_of_ascii c) :: codes r
  end.

(** A trimmer that leaves [trimmed] next to the alignment together with a
    report holding the two lines [header] and [lane]. *)
Definition trimmer (trimmed header lane : string) (c : env.gblocks_call)
    (fs : gmap string string) : gmap string string * option string :=
  (<[env.target c +:+ ".txt.txts" := header +:+ lane]>
     (<[env.target c +:+ ".txt" := trimmed]> fs), None).

(** A trimmer whose launch fails with message [e]. *)
Definition broken (e : string) (c : env.gblocks_call) (fs : gmap string string)
  : gmap string string * option string := (fs, Some e).

Definition nl : string := String "010" EmptyString.

(** Two trimmed alignments: gene A holds samples x, y, z and gene B holds
    y, z, w. *)
Definition two_genes : msa_build.self :=
  {| msa_build.dir := "out"; msa_build.genes := ["A"; "B"];
     msa_build.sep := "SSSSSSSSSS" |}.

Definition trimmed : env.world :=
  {| env.files :=
       {[ "out/A/A_msa.fasta" :=
            ">x" +:+ nl +:+ "acgt" +:+ nl +:+ ">y" +:+ nl +:+ "aagt" +:+ nl
            +:+ ">z" +:+ nl +:+ "ac" +:+ nl +:+ "tt" +:+ nl;
          "out/B/B_msa.fasta" :=
            ">y" +:+ nl +:+ "ggg" +:+ nl +:+ ">z" +:+ nl +:+ "ccc" +:+ nl
            +:+ ">w" +:+ nl +:+ "ttt" +:+ nl ]};
     env.calls := [] |}.

(** A run over one gene whose trimmed alignment has width zero. *)
Definition one_gene : msa_build.self :=
  {| msa_build.dir := "out"; msa_build.genes := ["A"]; msa_build.sep := "SSSSSSSSSS" |}.

Definition all_gaps_trimmed : env.world :=
  {| env.files := {[ "out/A/A_msa.fasta" := ">x" +:+ nl +:+ nl +:+ ">y" +:+ nl +:+ nl ]};
     env.calls := [] |}.

(** Raw alignments of two genes over the samples x and y, of widths four
    and six. *)
Definition raw : env.world :=
  {| env.files :=
       {[ "wd/A/A_raw_msa.fasta" :=
            ">x" +:+ nl +:+ "ACGT" +:+ nl +:+ ">y" +:+ nl +:+ "AC-T" +:+ nl;
          "wd/B/B_raw_msa.fasta" :=
            ">x" +:+ nl +:+ "ACGTAC" +:+ nl +:+ ">y" +:+ nl +:+ "AC-TAC" +:+ nl ]};
     env.calls := [] |}.

Definition dataset (genes : list string) : gbl_page.data :=
  {| gbl_page.genes := genes;
     gbl_page.gene_ids := {[ "A" := {[ "x"; "y" ]}; "B" := {[ "x"; "y" ]} ]};
     gbl_page.ignore_ids := ∅ |}.

(** The page with a preset selected and the spin buttons at the given
    values of conserved and flank. *)
Definition page (preset : string) (conserved flank : Z)
    (params : option gbl_page.param_list) : gbl_page.iface :=
  {| gbl_page.gbl_preset := preset; gbl_page.gaps := "half";
     gbl_page.conserved := {| gbl_page.value := conserved; gbl_page.lower := 2; gbl_page.upper := 2 |};
     gbl_page.flank := {| gbl_page.value := flank; gbl_page.lower := 2; gbl_page.upper := 2 |};
     gbl_page.good_block := {| gbl_page.value := 5; gbl_page.lower := 2; gbl_page.upper := 10 |};
     gbl_page.bad_block := {| gbl_page.value := 8; gbl_page.lower := 0; gbl_page.upper := 10 |};
     gbl_page.params := params |}.

(** The state of [do_gbl] before the first gene. *)
Definition start (w : env.world) : gbl_page.state :=
  {| gbl_page.world := w; gbl_page.errors := []; gbl_page.msa_lens := [];
     gbl_page.slices := ∅; gbl_page.line_blocks := None; gbl_page.i := 1 |}.

(** A base call, and a trimmer that reports the blocks [1  2] and [4  4]. *)
Definition base : string → env.gblocks_call := gbl_page.base_call (2, 2, 8, 5, "h").

Definition two_blocks : env.gblocks_call → gmap string string
    → gmap string string * option string :=
  trimmer "trimmed" ("Flank positions of the 2 selected block(s)" +:+ nl)
    ("Flanks: [1  2]  [4  4]  " +:+ nl).

(** The gene loop with that trimmer over the samples x and y. *)
Definition run_loop (genes : list string) (st : gbl_page.state)
  : py.result gbl_page.ending :=
  gbl_page.gene_loop two_blocks fasta codes "wd" (Some base) {[ "x"; "y" ]} genes st.

(** The state a run ended in; [st] when it raised. *)
Definition reached (r : py.result gbl_page.ending) (st : gbl_page.state)
  : gbl_page.state :=
  match r with
  | py.Return (gbl_page.Aborted st') | py.Return (gbl_page.Completed st') => st'
  | _ => st
  end.

(** What [concat_msa] returns on the two trimmed alignments. *)
Definition concatenated : list (string * string) * gmap string (list string) :=
  match msa_build.concat_msa fasta elements (λ _, 0%nat) two_genes trimmed with
  | py.Return out => out
  | _ => ([], ∅)
  end.

(** The text of one record in a FASTA file, sequence on one line. *)
Definition fasta_record (r : string * string) : string :=
  ">" +:+ r.1 +:+ nl +:+ r.2 +:+ nl.

(** A concatenated alignment of the samples x, y and z, and metadata of two
    genes for it. *)
Definition concat_world : env.world :=
  {| env.files :=
       {[ "wd/msa.fasta" :=
            fasta_record ("x", "ACGT") +:+ fasta_record ("y", "AC-T")
            +:+ fasta_record ("z", "ACTT") ]};
     env.calls := [] |}.

Definition sample_metadata : gbl_page.metadata :=
  {[ "A" := {[ "x" := {[ "quality" := "ok"; "file" := "x.ab1" ]};
               "y" := {[ "quality" := "ok" ]} ]};
     "B" := {[ "y" := {[ "quality" := "low" ]} ]} ]}.

End example.

(* ===================================================================== *)
(** * The parameter table of the specification *)
(* ===================================================================== *)

Module spec.

(** The presets that run the trimmer. *)
Inductive preset : Set := relaxed | balanced | default | strict.

Definition token (p : preset) : string :=
  match p with
  | relaxed => "relaxed"
  | balanced => "balanced"
  | default => "default"
  | strict => "strict"
  end.

Record parameters : Type := {
  conserved_minimum : Z;
  flank_minimum : Z;
  gap_policy : string;
  good_block_minimum : Z;
  bad_block_maximum : Z;
}.

(** The table as the specification words it: conserved is [n//2+1] for
    relaxed, balanced and default and [int(n*0.9)] for strict; flank is
    conserved for relaxed and strict, [min(n//4*3+1, n)] for balanced and
    [min(int(n*0.85)+1, n)] for default; gaps are "half" for relaxed and
    balanced and "none" for default and strict; good blocks are 5 for
    relaxed and balanced and 10 for default and strict; bad blocks are 8. *)
Definition table (p : preset) (n : Z) : py.result parameters :=
  match p with
  | relaxed =>
      py.Return {| conserved_minimum := n `div` 2 + 1; flank_minimum := n `div` 2 + 1;
                   gap_policy := "half"; good_block_minimum := 5;
                   bad_block_maximum := 8 |}
  | balanced =>
      py.Return {| conserved_minimum := n `div` 2 + 1;
                   flank_minimum := Z.min (n `div` 4 * 3 + 1) n;
                   gap_policy := "half"; good_block_minimum := 5;
                   bad_block_maximum := 8 |}
  | default =>
      f ← py.int_mul n py.f0_85;
      py.Return {| conserved_minimum := n `div` 2 + 1; flank_minimum := Z.min (f + 1) n;
                   gap_policy := "none"; good_block_minimum := 10;
                   bad_block_maximum := 8 |}
  | strict =>
      c ← py.int_mul n py.f0_9;
      py.Return {| conserved_minimum := c; flank_minimum := c;
                   gap_policy := "none"; good_block_minimum := 10;
                   bad_block_maximum := 8 |}
  end.

(** The letter that stands for a gap policy on the command line. *)
Definition gap_letter (policy : string) : string := py.slice policy 0 1.

(** [sum(per-gene trimmed widths) + (numGenes-1)*len(separator)] *)
Definition row_length (width : string → Z) (genes : list string) (sep : string) : Z :=
  foldr (λ g a, width g + a) 0 genes
  + (Z.of_nat (length genes) - 1) * Z.of_nat (String.length sep).

End spec.

(* ===================================================================== *)
(** * Notions used in the statements *)
(* ===================================================================== *)

(** The record of sample [id] in the alignment of [gene], if any. *)
Definition get (recs : gmap string (gmap string string)) (gene id : string)
  : option string := recs !! gene ≫= (λ m, m !! id).

(** The text appended for the genes [others] to the record of a sample that
    all of them hold. *)
Fixpoint joined (look : string → string → option string) (sep id : string)
    (others : list string) : option string :=
  match others with
  | [] => Some ""
  | g :: gs =>
      r ← look g id; rest ← joined look sep id gs; Some (sep +:+ r +:+ rest)
  end.

(** The row of sample [id]: its record in the first gene followed, for
    every other gene, by the separator and its record there. *)
Definition row (look : string → string → option string) (sep first : string)
    (others : list string) (id : string) : option (string * string) :=
  r ← look first id; j ← joined look sep id others; Some (id, r +:+ j).

(** The trimmed alignment of a gene as [concat_msa] reads it. *)
Definition alignment (SeqIO_parse : string → list (string * string))
    (s : msa_build.self) (w : env.world) (gene : string) : gmap string string :=
  from_option (msa_build.read_records SeqIO_parse) ∅
    (env.files w !! msa_build.msa_path s gene).

(** The record of sample [id] in the trimmed alignment of gene [g]. *)
Definition look (SeqIO_parse : string → list (string * string))
    (s : msa_build.self) (w : env.world) (g id : string) : option string :=
  alignment SeqIO_parse s w g !! id.

(** The state inside an ending of the gene loop. *)
Definition final (e : gbl_page.ending) : gbl_page.state :=
  match e with gbl_page.Aborted st => st | gbl_page.Completed st => st end.

(** The rows of the array [ar] built for a gene from its raw records. *)
Definition raw_rows (seqtoint : string → list Z) (records : gmap string string)
    (shared : gset string) : list (list Z) :=
  (λ _id, seqtoint (default "" (records !! _id))) <$> elements shared.

(** A set of ranges moved [k] columns to the right. *)
Definition shift_slices (k : Z) (s : gset (list Z)) : gset (list Z) :=
  set_map (fmap (Z.add k)) s.

(** The locals of [do_gbl] as they are before the first gene, in the world
    that [st] has reached. *)
Definition restart (st : gbl_page.state) : gbl_page.state :=
  {| gbl_page.world := gbl_page.world st; gbl_page.errors := [];
     gbl_page.msa_lens := []; gbl_page.slices := ∅;
     gbl_page.line_blocks := None; gbl_page.i := 1 |}.

(** A state of the loop over all genes next to the state of a loop started
    afresh after [base]: same world, and the widths and ranges of the fresh
    run sit behind those of [base]. *)
Definition follows (base st_c st_f : gbl_page.state) : Prop :=
  gbl_page.world st_c = gbl_page.world st_f
  ∧ gbl_page.msa_lens st_c = (gbl_page.msa_lens base ++ gbl_page.msa_lens st_f)%list
  ∧ gbl_page.slices st_c
    = gbl_page.slices base
      ∪ shift_slices (gbl_page.sum (gbl_page.msa_lens base)) (gbl_page.slices st_f)
  ∧ ∀ b, gbl_page.line_blocks st_f = Some b → gbl_page.line_blocks st_c = Some b.

(** The decimal numeral of a natural number. *)
Definition numeral (n : nat) : string := NilEmpty.string_of_uint (Nat.to_uint n).

(** [sep.join(pieces)] *)
Fixpoint str_join (sep : string) (pieces : list string) : string :=
  match pieces with
  | [] => ""
  | [x] => x
  | x :: rest => x +:+ sep +:+ str_join sep rest
  end.

(** The text of one reported block, between its brackets. *)
Definition block_text (b : nat * nat) : string :=
  numeral b.1 +:+ "  " +:+ numeral b.2.

(** The line of the trimmer's report under the flank-positions heading: the
    selected blocks as bracketed pairs, one-indexed and inclusive. *)
Definition flanks (blocks : list (nat * nat)) : string :=
  match blocks with
  | [] => "Flanks: "
  | _ => "Flanks: [" +:+ str_join "]  [" (block_text <$> blocks) +:+ "]  "
  end +:+ example.nl.

(** Every symbol of a string satisfies [P]. *)
Fixpoint all_chars (P : ascii → bool) (s : string) : bool :=
  match s with
  | EmptyString => true
  | String c r => P c && all_chars P r
  end.

(** The float products of the presets against exact arithmetic, for every
    sample count below 4096. *)
Definition exact_below (bound : Z) : bool :=
  forallb (λ n,
      match py.int_mul n py.f0_9, py.int_mul n py.f0_85 with
      | py.Return a, py.Return b => (a =? (9 * n) `div` 10) && (b =? (17 * n) `div` 20)
      | _, _ => false
      end)
    (seqZ 0 bound).


(** The metadata of sample [id] under [gene], if any. *)
Definition meta_entry (md : gbl_page.metadata) (gene id : string)
  : option (gmap string string) :=
  md !! gene ≫= (λ genemeta, genemeta !! id).

(** * Theorems *)

Import gbl_page.

(** ** Strings *)

Lemma str_app_cons (c : ascii) (a b : string) : String c a +:+ b = String c (a +:+ b).
Proof. reflexivity. Qed.

Lemma str_app_nil_l (b : string) : "" +:+ b = b.
Proof. reflexivity. Qed.

Lemma str_app_nil_r (s : string) : s +:+ "" = s.
Proof. induction s as [|c s IH]; [done|]. by rewrite str_app_cons, IH. Qed.

Lemma str_app_assoc (a b c : string) : (a +:+ b) +:+ c = a +:+ b +:+ c.
Proof. induction a as [|x a IH]; [done|]. by rewrite !str_app_cons, IH. Qed.

Lemma str_length_app (a b : string) :
  String.length (a +:+ b) = (String.length a + String.length b)%nat.
Proof. induction a as [|x a IH]; [done|]. rewrite str_app_cons. cbn [String.length]. by rewrite IH. Qed.

Lemma all_chars_app P a b : all_chars P (a +:+ b) = all_chars P a && all_chars P b.
Proof.
  induction a as [|c a IH]; [done|]. rewrite str_app_cons. cbn [all_chars].
  by rewrite IH, andb_assoc.
Qed.

Lemma all_chars_impl (P Q : ascii → bool) s :
  (∀ c, P c = true → Q c = true) → all_chars P s = true → all_chars Q s = true.
Proof.
  intros H. induction s as [|c s IH]; [done|]. cbn [all_chars].
  intros [Hc Hs]%andb_true_iff. by rewrite (H c Hc), IH.
Qed.

(** ** Decimal numerals *)

Lemma string_of_uint_digits u : all_chars py.isdigit (NilEmpty.string_of_uint u) = true.
Proof. induction u; cbn [NilEmpty.string_of_uint all_chars]; [done|by rewrite IHu..]. Qed.

Lemma numeral_digits n : all_chars py.isdigit (numeral n) = true.
Proof. apply string_of_uint_digits. Qed.

Lemma to_little_uint_nonnil n : ∀ acc, acc ≠ Nil → Nat.to_little_uint n acc ≠ Nil.
Proof.
  induction n as [|n IH]; intros acc Hacc; cbn [Nat.to_little_uint]; [done|].
  apply IH. by destruct acc.
Qed.

Lemma revapp_nonnil d : ∀ d', d' ≠ Nil ∨ d ≠ Nil → revapp d d' ≠ Nil.
Proof.
  induction d; intros d' H; cbn [revapp]; [naive_solver|apply IHd; by left..].
Qed.

Lemma numeral_nonempty n : numeral n ≠ "".
Proof.
  unfold numeral, Nat.to_uint, Decimal.rev.
  assert (H : revapp (Nat.to_little_uint n zero) Nil ≠ Nil).
  { apply revapp_nonnil. right. by apply to_little_uint_nonnil. }
  destruct (revapp _ _); [done|cbn [NilEmpty.string_of_uint]; intros [=]..].
Qed.

Lemma int_digits_uint u : ∀ acc b,
  0 ≤ acc → (u ≠ Nil ∨ b = true) →
  py.int_digits acc b (NilEmpty.string_of_uint u)
  = py.Return (Z.of_nat (Nat.of_uint_acc u (Z.to_nat acc))).
Proof.
  induction u; intros acc b Hacc Hb;
    cbn [NilEmpty.string_of_uint py.int_digits Nat.of_uint_acc].
  1:{ destruct Hb as [?| ->]; [done|]. f_equal. lia. }
  all: change (py.isdigit _) with true; cbv iota.
  all: match goal with |- context [py.digit_value ?c] =>
         let v := eval vm_compute in (py.digit_value c) in
         change (py.digit_value c) with v end.
  all: rewrite IHu by (first [lia | by right]).
  all: do 3 f_equal; rewrite Nat.tail_mul_spec; lia.
Qed.

Lemma isdigit_not_space c : py.isdigit c = true → py.isspace c = false.
Proof.
  unfold py.isdigit, py.isspace. intros [H1 H2]%andb_true_iff.
  apply Nat.leb_le in H1, H2.
  repeat (apply orb_false_iff; split); try (apply andb_false_iff);
    rewrite ?Nat.leb_gt, ?Nat.eqb_neq; lia.
Qed.

Lemma lstrip_nonspace c s : py.isspace c = false → py.lstrip (String c s) = String c s.
Proof. intros H. cbn [py.lstrip]. by rewrite H. Qed.

Lemma rstrip_snoc s c :
  py.isspace c = false → py.rstrip (s +:+ String c "") = s +:+ String c "".
Proof.
  intros Hc. induction s as [|d s IH].
  - rewrite str_app_nil_l. cbn [py.rstrip]. by rewrite Hc.
  - rewrite str_app_cons. cbn [py.rstrip]. rewrite IH.
    destruct s; [by rewrite str_app_nil_l|by rewrite str_app_cons].
Qed.

Lemma rstrip_spaces s sp :
  all_chars py.isspace sp = true → py.rstrip (s +:+ sp) = py.rstrip s.
Proof.
  intros Hsp. induction s as [|d s IH].
  - rewrite str_app_nil_l. induction sp as [|c sp IH]; [done|].
    cbn [all_chars] in Hsp. apply andb_true_iff in Hsp as [Hc Hsp].
    cbn [py.rstrip]. by rewrite IH, Hc.
  - rewrite str_app_cons. cbn [py.rstrip]. by rewrite IH.
Qed.

Lemma all_nonspace_strip s :
  s ≠ "" → all_chars (λ c, negb (py.isspace c)) s = true → py.strip s = s.
Proof.
  intros Hne Hall. unfold py.strip.
  assert (py.lstrip s = s) as ->.
  { destruct s as [|c s]; [done|]. cbn [all_chars] in Hall.
    apply andb_true_iff in Hall as [Hc _]. apply lstrip_nonspace. by apply negb_true_iff. }
  clear Hne. induction s as [|c s IH]; [done|].
  cbn [all_chars] in Hall. apply andb_true_iff in Hall as [Hc Hs].
  cbn [py.rstrip]. rewrite (IH Hs). destruct s; [|done].
  apply negb_true_iff in Hc. by rewrite Hc.
Qed.

Lemma int_numeral n : py.int (numeral n) = py.Return (Z.of_nat n).
Proof.
  unfold py.int. rewrite all_nonspace_strip.
  2: apply numeral_nonempty.
  2:{ eapply all_chars_impl; [|apply numeral_digits]. intros c Hc.
      by rewrite (isdigit_not_space c Hc). }
  assert (Hrun : py.int_digits 0 false (numeral n) = py.Return (Z.of_nat n)).
  { unfold numeral. rewrite int_digits_uint; [|lia|].
    - change (Z.to_nat 0) with 0%nat. fold (Nat.of_uint (Nat.to_uint n)).
      by rewrite DecimalNat.Unsigned.of_to.
    - left. intros Heq. apply (numeral_nonempty n). unfold numeral. by rewrite Heq. }
  pose proof (numeral_digits n) as Hd. pose proof (numeral_nonempty n) as Hne.
  destruct (numeral n) as [|c s]; [done|].
  cbn [all_chars] in Hd. apply andb_true_iff in Hd as [Hc _].
  destruct (Ascii.eqb_spec c "-") as [->|Hm]; [done|].
  destruct (Ascii.eqb_spec c "+") as [->|Hp]; [done|].
  destruct c as [[] [] [] [] [] [] [] []]; try done.
Qed.

(** ** Splitting *)

Lemma prefix_app (a b : string) : String.prefix a (a +:+ b) = true.
Proof.
  induction a as [|c a IH]; [by destruct b|]. rewrite str_app_cons. cbn [String.prefix].
  destruct (ascii_dec c c); [done|done].
Qed.

Lemma prefix_first_differs c0 sep' c r :
  c ≠ c0 → String.prefix (String c0 sep') (String c r) = false.
Proof. intros H. cbn [String.prefix]. destruct (ascii_dec c0 c); [by subst|done]. Qed.

Lemma split_go_skip sep a : ∀ cur rest,
  py.split_go sep (String.length a) cur (a +:+ rest) = py.split_go sep 0 cur rest.
Proof.
  induction a as [|c a IH]; intros cur rest; [done|].
  rewrite str_app_cons. cbn [String.length py.split_go]. apply IH.
Qed.

Section split.
Context (c0 : ascii) (sep' : string).
Local Abbreviation sep := (String c0 sep').
Local Abbreviation free := (all_chars (λ c, negb (Ascii.eqb c c0))).

Lemma split_go_last piece : ∀ cur,
  free piece = true → py.split_go sep 0 cur piece = [cur +:+ piece].
Proof.
  induction piece as [|c piece IH]; intros cur Hfree.
  - by rewrite str_app_nil_r.
  - cbn [all_chars] in Hfree. apply andb_true_iff in Hfree as [Hc Hfree].
    apply negb_true_iff, Ascii.eqb_neq in Hc.
    cbn [py.split_go]. rewrite prefix_first_differs by done.
    rewrite IH by done. by rewrite str_app_assoc.
Qed.

Lemma split_go_piece piece : ∀ cur rest,
  free piece = true →
  py.split_go sep 0 cur (piece +:+ sep +:+ rest)
  = (cur +:+ piece) :: py.split_go sep 0 "" rest.
Proof.
  induction piece as [|c piece IH]; intros cur rest Hfree.
  - rewrite str_app_nil_l, str_app_nil_r, str_app_cons. cbn [py.split_go].
    rewrite <- str_app_cons, prefix_app. f_equal.
    cbn [String.length]. rewrite Nat.sub_1_r. cbn [Nat.pred]. apply split_go_skip.
  - cbn [all_chars] in Hfree. apply andb_true_iff in Hfree as [Hc Hfree].
    apply negb_true_iff, Ascii.eqb_neq in Hc.
    rewrite str_app_cons. cbn [py.split_go]. rewrite prefix_first_differs by done.
    rewrite IH by done. by rewrite str_app_assoc.
Qed.

Lemma split_join (pieces : list string) :
  pieces ≠ [] → Forall (λ p, free p = true) pieces →
  py.split (str_join sep pieces) sep = pieces.
Proof.
  intros Hne Hfree. unfold py.split.
  induction Hfree as [|p ps Hp Hps IH]; [done|].
  destruct ps as [|q ps].
  - cbn [str_join]. by rewrite split_go_last.
  - cbn [str_join]. rewrite split_go_piece by done. rewrite str_app_nil_l. f_equal. by apply IH.
Qed.
End split.

(** ** Slicing *)

Lemma substring_0_app (a b : string) : substring 0 (String.length a) (a +:+ b) = a.
Proof.
  induction a as [|c a IH]; [by destruct b|]. rewrite str_app_cons.
  cbn [String.length substring]. by rewrite IH.
Qed.

Lemma slice_brackets (inner : string) :
  py.slice ("Flanks: [" +:+ inner +:+ "]") 9 (-1) = inner.
Proof.
  unfold py.slice. rewrite !str_length_app.
  change (String.length "Flanks: [") with 9%nat. change (String.length "]") with 1%nat.
  unfold py.slice_bound.
  replace (9 <? 0) with false by done. replace (-1 <? 0) with true by done.
  rewrite Z.min_l, Z.max_l by lia.
  replace (Z.to_nat (-1 + Z.of_nat (9 + (String.length inner + 1)) - 9))
    with (String.length inner) by lia.
  change (Z.to_nat 9) with 9%nat.
  rewrite !str_app_cons, str_app_nil_l. cbn [substring]. apply substring_0_app.
Qed.

(** ** The flank-positions line *)

Lemma isdigit_not c c0 : py.isdigit c0 = false → py.isdigit c = true → negb (Ascii.eqb c c0) = true.
Proof.
  intros H0 Hc. apply negb_true_iff, Ascii.eqb_neq. intros ->. congruence.
Qed.

Lemma block_text_free c0 b :
  py.isdigit c0 = false → c0 ≠ " "%char →
  all_chars (λ c, negb (Ascii.eqb c c0)) (block_text b) = true.
Proof.
  intros Hd Hs. unfold block_text. rewrite !all_chars_app.
  assert (Hdec : ∀ n, all_chars (λ c, negb (Ascii.eqb c c0)) (numeral n) = true).
  { intros n. eapply all_chars_impl; [|apply numeral_digits].
    intros c. by apply isdigit_not. }
  rewrite !Hdec. cbn [all_chars].
  apply Ascii.eqb_neq in Hs. rewrite Ascii.eqb_sym in Hs. by rewrite Hs.
Qed.

Lemma strip_flanks (blocks : list (nat * nat)) :
  blocks ≠ [] →
  py.strip (flanks blocks) = "Flanks: [" +:+ str_join "]  [" (block_text <$> blocks) +:+ "]".
Proof.
  intros Hne. unfold flanks. destruct blocks as [|b bs]; [done|].
  set (inner := str_join "]  [" (block_text <$> b :: bs)).
  set (line := ("Flanks: [" +:+ inner +:+ "]  ") +:+ example.nl).
  unfold py.strip.
  assert (py.lstrip line = line) as ->.
  { unfold line. rewrite !str_app_cons. by apply lstrip_nonspace. }
  assert (line = (("Flanks: [" +:+ inner) +:+ String "]" "") +:+ ("  " +:+ example.nl)) as ->.
  { unfold line. by rewrite !str_app_assoc. }
  rewrite rstrip_spaces by done. rewrite rstrip_snoc by done. by rewrite str_app_assoc.
Qed.

Lemma blocks_of_flanks (blocks : list (nat * nat)) :
  blocks ≠ [] → blocks_of_lane (flanks blocks) = block_text <$> blocks.
Proof.
  intros Hne. unfold blocks_of_lane. rewrite strip_flanks, slice_brackets by done.
  apply (split_join "]" "  [").
  - by destruct blocks.
  - apply Forall_fmap, Forall_forall. intros b _. by apply block_text_free.
Qed.

Lemma block_bounds_text shift (b : nat * nat) :
  block_bounds shift (block_text b)
  = py.Return [Z.of_nat b.1 + shift; Z.of_nat b.2 + shift].
Proof.
  unfold block_bounds, block_text.
  change (numeral b.1 +:+ "  " +:+ numeral b.2) with (str_join "  " [numeral b.1; numeral b.2]).
  rewrite (split_join " " " "); [|done|].
  - cbn [py.comprehension]. rewrite !int_numeral. done.
  - repeat constructor;
      (eapply all_chars_impl; [|apply numeral_digits]); intros c Hc; by apply isdigit_not.
Qed.

Lemma block_slices_flanks shift (blocks : list (nat * nat)) :
  blocks ≠ [] →
  block_slices shift (blocks_of_lane (flanks blocks))
  = py.Return (list_to_set
      ((λ b, py.range (Z.of_nat b.1 - 1 + shift) (Z.of_nat b.2 + shift)) <$> blocks)).
Proof.
  intros Hne. rewrite blocks_of_flanks by done. unfold block_slices. clear Hne.
  assert (H1 : py.comprehension (block_bounds shift) (block_text <$> blocks)
               = py.Return ((λ b, [Z.of_nat b.1 + shift; Z.of_nat b.2 + shift]) <$> blocks)).
  { induction blocks as [|b bs IH]; [done|]. rewrite !fmap_cons. cbn [py.comprehension].
    rewrite block_bounds_text, IH. done. }
  rewrite H1. cbn [mbind py.result_bind py.bind].
  assert (H2 : py.comprehension block_range
                 ((λ b : nat * nat, [Z.of_nat b.1 + shift; Z.of_nat b.2 + shift]) <$> blocks)
               = py.Return ((λ b, py.range (Z.of_nat b.1 - 1 + shift) (Z.of_nat b.2 + shift))
                            <$> blocks)).
  { clear H1. induction blocks as [|b bs IH]; [done|]. rewrite !fmap_cons.
    cbn [py.comprehension block_range]. cbn [mbind py.result_bind py.bind]. rewrite IH.
    cbn [mbind py.result_bind py.bind]. do 3 f_equal. lia. }
  rewrite H2. done.
Qed.

(** ** Paths *)

Lemma prefix_empty (s : string) : String.prefix "" s = true.
Proof. by destruct s. Qed.

Lemma prefix_char_cons (c0 c : ascii) (s : string) :
  String.prefix (String c0 "") (String c s) = Ascii.eqb c0 c.
Proof.
  cbn [String.prefix]. destruct (ascii_dec c0 c) as [->|Hne].
  - by rewrite prefix_empty, Ascii.eqb_refl.
  - symmetry. by apply Ascii.eqb_neq.
Qed.

Lemma join_common (a g : string) :
  ∃ pre, ∀ t, py.startswith t "_" = true → env.join a (g +:+ t) = pre +:+ g +:+ t.
Proof.
  destruct g as [|c g].
  - exists (if (String.eqb a "" || py.endswith a "/")%bool then a else a +:+ "/").
    intros t Ht. rewrite str_app_nil_l. unfold env.join.
    destruct t as [|c t]; [done|]. unfold py.startswith in *.
    rewrite prefix_char_cons in *. apply Ascii.eqb_eq in Ht as <-.
    change (Ascii.eqb "/" "_") with false. cbv iota.
    destruct (String.eqb a "" || py.endswith a "/")%bool; [done|]. by rewrite str_app_assoc.
  - destruct (Ascii.eqb "/" c) eqn:Hc.
    + exists "". intros t _. unfold env.join, py.startswith.
      assert (Hp : String.prefix "/" (String c g +:+ t) = Ascii.eqb "/" c)
        by (rewrite str_app_cons; apply prefix_char_cons).
      rewrite Hp, Hc. done.
    + exists (if (String.eqb a "" || py.endswith a "/")%bool then a else a +:+ "/").
      intros t _. unfold env.join, py.startswith.
      assert (Hp : String.prefix "/" (String c g +:+ t) = Ascii.eqb "/" c)
        by (rewrite str_app_cons; apply prefix_char_cons).
      rewrite Hp, Hc.
      destruct (String.eqb a "" || py.endswith a "/")%bool; [done|]. by rewrite str_app_assoc.
Qed.

Lemma join_app_r (a b t : string) :
  b ≠ "" → env.join a b +:+ t = env.join a (b +:+ t).
Proof.
  intros Hb. destruct b as [|c b]; [done|]. unfold env.join, py.startswith.
  assert (Hp : String.prefix "/" (String c b +:+ t) = Ascii.eqb "/" c)
    by (rewrite str_app_cons; apply prefix_char_cons).
  rewrite Hp, prefix_char_cons.
  destruct (Ascii.eqb "/" c); [done|].
  destruct (String.eqb a "" || py.endswith a "/")%bool; by rewrite !str_app_assoc.
Qed.

Lemma report_path_not_msa_path (wd gene : string) :
  gbl_page.msa_path wd gene ≠ gbl_page.raw_msa_path wd gene +:+ ".txt.txts".
Proof.
  unfold gbl_page.msa_path, gbl_page.raw_msa_path.
  rewrite join_app_r by (by destruct gene). rewrite str_app_assoc.
  destruct (join_common (env.join wd gene) gene) as [pre Hpre].
  rewrite !Hpre by done. intros Heq. by do 2 apply (inj _) in Heq.
Qed.

Lemma trimmed_path_not_report_path (raw_msa : string) :
  raw_msa +:+ ".txt" ≠ raw_msa +:+ ".txt.txts".
Proof. intros Heq. by apply (inj _) in Heq. Qed.

(** ** Concatenation *)

Lemma get_alter_delete recs g sid g' id :
  get (alter (delete sid) g recs) g' id
  = if decide (g = g' ∧ sid = id) then None else get recs g' id.
Proof.
  unfold get. destruct (decide (g = g')) as [->|Hg].
  - rewrite lookup_alter_eq. destruct (recs !! g') as [m|]; simpl.
    + destruct (decide (sid = id)) as [->|Hs].
      * rewrite lookup_delete_eq. by rewrite decide_True.
      * rewrite lookup_delete_ne by done. rewrite decide_False; [done|naive_solver].
    + by case_decide.
  - rewrite lookup_alter_ne by done. rewrite decide_False; [done|naive_solver].
Qed.

Lemma joined_ext look look' sep id others :
  (∀ g, g ∈ others → look' g id = look g id) →
  joined look' sep id others = joined look sep id others.
Proof.
  induction others as [|g gs IH]; intros H; simpl; [done|].
  rewrite H by set_solver. rewrite IH; [done|]. intros; apply H; set_solver.
Qed.

Section inner.
Context (sep sid : string).

Lemma append_genes_get others : ∀ record skip recs missing record' skip' recs' missing',
  msa_build.append_genes sep sid others record skip recs missing
    = (record', skip', recs', missing') →
  ∀ g id, get recs' g id
          = if decide (g ∈ others ∧ id = sid) then None else get recs g id.
Proof.
  induction others as [|gene gs IH]; intros record skip recs missing record' skip' recs' missing' H g id.
  - simpl in H. simplify_eq. rewrite decide_False; [done|set_solver].
  - simpl in H. fold (get recs gene sid) in H.
    destruct (get recs gene sid) as [r|] eqn:Hr.
    + rewrite (IH _ _ _ _ _ _ _ _ H g id). rewrite get_alter_delete.
      repeat case_decide; try done; set_solver.
    + rewrite (IH _ _ _ _ _ _ _ _ H g id).
      repeat case_decide; try done; set_solver.
Qed.

Lemma append_genes_record others : ∀ record skip recs missing record' skip' recs' missing',
  NoDup others →
  msa_build.append_genes sep sid others record skip recs missing
    = (record', skip', recs', missing') →
  match joined (get recs) sep sid others with
  | Some j => skip' = skip ∧ record' = record +:+ j
  | None => skip' = true
  end.
Proof.
  induction others as [|gene gs IH]; intros record skip recs missing record' skip' recs' missing' Hnd H.
  - simpl in *. simplify_eq. by rewrite str_app_nil_r.
  - apply NoDup_cons in Hnd as [Hnotin Hnd]. simpl in *.
    fold (get recs gene sid) in *.
    destruct (get recs gene sid) as [r|] eqn:Hr; simpl.
    + specialize (IH _ _ _ _ _ _ _ _ Hnd H).
      rewrite (joined_ext (get recs)) in IH.
      2:{ intros g Hg. rewrite get_alter_delete. rewrite decide_False; [done|]. set_solver. }
      destruct (joined (get recs) sep sid gs) as [j|]; simpl; [|done].
      destruct IH as [-> ->]. split; [done|].
      by rewrite !str_app_assoc.
    + specialize (IH _ _ _ _ _ _ _ _ Hnd H).
      destruct (joined (get recs) sep sid gs); [|done]. by destruct IH as [-> _].
Qed.
End inner.

Section inner2.
Context (sep sid : string).

Lemma append_genes_missing others : ∀ record skip recs missing record' skip' recs' missing',
  NoDup others →
  msa_build.append_genes sep sid others record skip recs missing
    = (record', skip', recs', missing') →
  ∀ g, missing' !! g
       = if decide (g ∈ others ∧ get recs g sid = None)
         then (λ l, l ++ [sid])%list <$> missing !! g else missing !! g.
Proof.
  induction others as [|gene gs IH];
    intros record skip recs missing record' skip' recs' missing' Hnd H g.
  - simpl in H. simplify_eq. rewrite decide_False; [done|set_solver].
  - apply NoDup_cons in Hnd as [Hnotin Hnd]. simpl in H.
    fold (get recs gene sid) in H.
    destruct (get recs gene sid) as [r|] eqn:Hr.
    + rewrite (IH _ _ _ _ _ _ _ _ Hnd H g).
      destruct (decide (g = gene)) as [->|Hne].
      * rewrite !decide_False; [done| |]; [rewrite Hr|]; naive_solver.
      * rewrite get_alter_delete. rewrite (decide_False (P := gene = g ∧ _)) by naive_solver.
        destruct (decide (g ∈ gs ∧ get recs g sid = None)) as [[??]|Hn].
        -- rewrite decide_True; [done|set_solver].
        -- rewrite decide_False; [done|]. set_solver.
    + rewrite (IH _ _ _ _ _ _ _ _ Hnd H g).
      destruct (decide (g = gene)) as [->|Hne].
      * rewrite decide_False by naive_solver. rewrite decide_True by set_solver.
        by rewrite lookup_alter_eq.
      * rewrite lookup_alter_ne by done.
        destruct (decide (g ∈ gs ∧ get recs g sid = None)) as [[??]|Hn].
        -- rewrite decide_True; [done|set_solver].
        -- rewrite decide_False; [done|]. set_solver.
Qed.
End inner2.

Section outer.
Context (s : msa_build.self) (first : string) (others : list string).
Hypothesis Hgenes : msa_build.genes s = first :: others.
Hypothesis Hnd : NoDup (first :: others).

Lemma concat_sample_spec sid st r :
  get (msa_build.all_records st) first sid = Some r →
  ∃ st', msa_build.concat_sample s first sid st = py.Return st'
    ∧ (∀ g id, get (msa_build.all_records st') g id
         = if decide (g ∈ first :: others ∧ id = sid) then None
           else get (msa_build.all_records st) g id)
    ∧ msa_build.written st'
      = (msa_build.written st
         ++ option_list (row (get (msa_build.all_records st)) (msa_build.sep s) first others sid))%list
    ∧ msa_build.shared st'
      = msa_build.shared st
        + Z.of_nat (length (option_list (row (get (msa_build.all_records st)) (msa_build.sep s) first others sid)))
    ∧ (∀ g, msa_build.missing_genes st' !! g
         = if decide (g ∈ others ∧ get (msa_build.all_records st) g sid = None)
           then (λ l, l ++ [sid])%list <$> msa_build.missing_genes st !! g
           else msa_build.missing_genes st !! g).
Proof.
  intros Hr. apply NoDup_cons in Hnd as [Hfirst Hothers].
  unfold msa_build.concat_sample. fold (get (msa_build.all_records st) first sid).
  rewrite Hr, Hgenes. simpl tail.
  destruct (msa_build.append_genes _ _ _ _ _ _ _) as [[[record' skip'] recs'] missing'] eqn:Happ.
  pose proof (append_genes_get _ _ _ _ _ _ _ _ _ _ _ Happ) as Hget.
  pose proof (append_genes_record _ _ _ _ _ _ _ _ _ _ _ Hothers Happ) as Hrec.
  pose proof (append_genes_missing _ _ _ _ _ _ _ _ _ _ _ Hothers Happ) as Hmiss.
  rewrite (joined_ext (get (msa_build.all_records st))) in Hrec.
  2:{ intros g Hg. rewrite get_alter_delete, decide_False; [done|]. set_solver. }
  assert (Hget' : ∀ g id, get recs' g id
         = if decide (g ∈ first :: others ∧ id = sid) then None
           else get (msa_build.all_records st) g id).
  { intros g id. rewrite Hget, get_alter_delete.
    repeat case_decide; try done; set_solver. }
  assert (Hmiss' : ∀ g, missing' !! g
         = if decide (g ∈ others ∧ get (msa_build.all_records st) g sid = None)
           then (λ l, l ++ [sid])%list <$> msa_build.missing_genes st !! g
           else msa_build.missing_genes st !! g).
  { intros g. rewrite Hmiss. destruct (decide (g ∈ others)) as [Hg|Hg].
    - rewrite get_alter_delete, (decide_False (P := first = g ∧ _)); [done|set_solver].
    - rewrite !decide_False; [done|naive_solver|naive_solver]. }
  unfold row. rewrite Hr. simpl.
  destruct (joined (get (msa_build.all_records st)) (msa_build.sep s) sid others) as [j|]; simpl.
  - destruct Hrec as [-> ->]. eexists; split; [done|]. simpl.
    repeat split; try done.
  - rewrite Hrec. eexists; split; [done|]. simpl.
    repeat split; try done; [by rewrite app_nil_r | lia].
Qed.
End outer.

Lemma omap_cons_list {A B} (f : A → option B) (x : A) (l : list A) :
  omap f (x :: l) = (option_list (f x) ++ omap f l)%list.
Proof. csimpl. by destruct (f x). Qed.

Lemma omap_ext_in {A B} (f g : A → option B) (l : list A) :
  (∀ x, x ∈ l → f x = g x) → omap f l = omap g l.
Proof.
  induction l as [|x l IH]; intros H; [done|]. csimpl.
  rewrite (H x) by set_solver. rewrite IH; [done|]. intros; apply H; set_solver.
Qed.

Lemma filter_ext_in {A} (P Q : A → Prop) `{!∀ x, Decision (P x), !∀ x, Decision (Q x)}
    (l : list A) :
  (∀ x, x ∈ l → P x ↔ Q x) → filter P l = filter Q l.
Proof.
  induction l as [|x l IH]; intros Hext; [done|].
  rewrite !filter_cons. rewrite IH by (intros; apply Hext; set_solver).
  assert (Hx : P x ↔ Q x) by (apply Hext; set_solver).
  destruct (decide (P x)) as [HP|HP], (decide (Q x)) as [HQ|HQ]; tauto.
Qed.

Lemma row_ext first others look look' sep id :
  (∀ g, g ∈ first :: others → look' g id = look g id) →
  row look' sep first others id = row look sep first others id.
Proof.
  intros H. unfold row. rewrite H by set_solver.
  rewrite (joined_ext look look'); [done|]. intros; apply H; set_solver.
Qed.

Section outer_loop.
Context (s : msa_build.self) (first : string) (others : list string).
Hypothesis Hgenes : msa_build.genes s = first :: others.
Hypothesis Hnd : NoDup (first :: others).

Lemma concat_samples_spec ids : ∀ st,
  NoDup ids →
  (∀ id, id ∈ ids → is_Some (get (msa_build.all_records st) first id)) →
  ∃ st', msa_build.concat_samples s first ids st = py.Return st'
    ∧ (∀ g id, get (msa_build.all_records st') g id
         = if decide (g ∈ first :: others ∧ id ∈ ids) then None
           else get (msa_build.all_records st) g id)
    ∧ msa_build.written st'
      = (msa_build.written st
         ++ omap (row (get (msa_build.all_records st)) (msa_build.sep s) first others) ids)%list
    ∧ msa_build.shared st'
      = msa_build.shared st
        + Z.of_nat (length (omap (row (get (msa_build.all_records st)) (msa_build.sep s) first others) ids))
    ∧ (∀ g, msa_build.missing_genes st' !! g
         = if decide (g ∈ others)
           then (λ l, l ++ filter (λ id, get (msa_build.all_records st) g id = None) ids)%list
                  <$> msa_build.missing_genes st !! g
           else msa_build.missing_genes st !! g).
Proof.
  induction ids as [|sid ids IH]; intros st Hids Hin.
  - exists st. simpl. repeat split.
    + intros g id. rewrite decide_False; [done|set_solver].
    + by rewrite app_nil_r.
    + lia.
    + intros g. case_decide; [|done].
      destruct (msa_build.missing_genes st !! g); simpl; [|done]. by rewrite app_nil_r.
  - apply NoDup_cons in Hids as [Hsid Hids].
    destruct (Hin sid) as [r Hr]; [set_solver|].
    destruct (concat_sample_spec s first others Hgenes Hnd sid st r Hr)
      as (st1 & Hrun & Hget1 & Hw1 & Hs1 & Hm1).
    destruct (IH st1 Hids) as (st' & Hrun' & Hget' & Hw' & Hs' & Hm').
    { intros id Hid. rewrite Hget1, decide_False; [apply Hin; set_solver|].
      intros [_ ->]. done. }
    assert (Hrows : omap (row (get (msa_build.all_records st1)) (msa_build.sep s) first others) ids
                  = omap (row (get (msa_build.all_records st)) (msa_build.sep s) first others) ids).
    { apply omap_ext_in. intros id Hid.
      apply row_ext. intros g _. rewrite Hget1, decide_False; [done|].
      intros [_ ->]. done. }
    exists st'. split; [by simpl; rewrite Hrun|]. split; [|split; [|split]].
    + intros g id. rewrite Hget', Hget1.
      repeat case_decide; try done; set_solver.
    + by rewrite Hw', Hw1, Hrows, omap_cons_list, app_assoc.
    + rewrite Hs', Hs1, Hrows, omap_cons_list, length_app. lia.
    + intros g. rewrite Hm', Hm1.
      assert (Hfilt : filter (λ id, get (msa_build.all_records st1) g id = None) ids
                    = filter (λ id, get (msa_build.all_records st) g id = None) ids).
      { apply filter_ext_in. intros id Hid.
        rewrite Hget1, decide_False; [done|]. intros [_ ->]. done. }
      rewrite Hfilt.
      destruct (decide (g ∈ others)) as [Hg|Hg].
      * rewrite filter_cons.
        destruct (decide (get (msa_build.all_records st) g sid = None)) as [Hn|Hn].
        -- rewrite decide_True by done.
           destruct (msa_build.missing_genes st !! g); simpl; [|done].
           by rewrite <- app_assoc.
        -- rewrite decide_False by naive_solver. done.
      * rewrite decide_False by naive_solver. done.
Qed.
End outer_loop.

Lemma joined_is_Some look sep id others :
  is_Some (joined look sep id others) ↔ ∀ g, g ∈ others → is_Some (look g id).
Proof.
  induction others as [|g gs IH]; simpl.
  - split; [set_solver|eauto].
  - split.
    + intros [j Hj] g' Hg'. destruct (look g id) as [r|] eqn:Hr; [|done]. simpl in Hj.
      destruct (joined look sep id gs) as [j'|] eqn:Hj'; [|done].
      apply elem_of_cons in Hg' as [->|Hg']; [by rewrite Hr|].
      apply IH; eauto.
    + intros H. destruct (H g) as [r ->]; [set_solver|]. simpl.
      destruct (proj2 IH) as [j ->]; [intros; apply H; set_solver|]. simpl. eauto.
Qed.

Lemma elem_of_dom_get recs g id :
  id ∈ dom (default (∅ : gmap string string) (recs !! g)) ↔ is_Some (get recs g id).
Proof.
  unfold get. rewrite elem_of_dom. destruct (recs !! g); simpl; [done|].
  rewrite lookup_empty. done.
Qed.

Section top.
Context (SeqIO_parse : string → list (string * string)).
Context (s : msa_build.self) (w : env.world).

Local Abbreviation alignment := (alignment SeqIO_parse s w).

Lemma read_all_spec gs : ∀ acc,
  (∀ g, g ∈ gs → is_Some (env.files w !! msa_build.msa_path s g)) →
  ∃ recs, msa_build.read_all SeqIO_parse s (env.files w) gs acc = py.Return recs
    ∧ ∀ g, recs !! g = if decide (g ∈ gs) then Some (alignment g) else acc !! g.
Proof.
  induction gs as [|gene gs IH]; intros acc Hfiles.
  - exists acc. split; [done|]. intros g. rewrite decide_False; [done|set_solver].
  - simpl. destruct (Hfiles gene) as [text Htext]; [set_solver|]. rewrite Htext.
    destruct (IH (<[gene := msa_build.read_records SeqIO_parse text]> acc))
      as (recs & Hrun & Hrecs); [intros; apply Hfiles; set_solver|].
    exists recs. split; [done|]. intros g. rewrite Hrecs.
    destruct (decide (g ∈ gs)) as [Hg|Hg].
    + rewrite decide_True; [done|set_solver].
    + destruct (decide (g = gene)) as [->|Hne].
      * rewrite lookup_insert_eq, decide_True by set_solver.
        unfold alignment. by rewrite Htext.
      * rewrite lookup_insert_ne by done. rewrite decide_False; [done|set_solver].
Qed.

End top.

Section choice.
Context (pick : string → nat).

Lemma choice_len_nonempty gene (recs : gmap string string) :
  recs ≠ ∅ →
  ∃ id v, recs !! id = Some v
    ∧ msa_build.choice_len pick gene recs = py.Return (Z.of_nat (String.length v)).
Proof.
  intros Hne. unfold msa_build.choice_len.
  assert (Hlen : (0 < length (map_to_list recs).*2)%nat).
  { rewrite length_fmap, length_map_to_list.
    destruct (decide (size recs = 0%nat)) as [H0|H0]; [|lia].
    by apply map_size_empty_iff in H0. }
  destruct (lookup_lt_is_Some_2 (map_to_list recs).*2
              (pick gene `mod` length (map_to_list recs).*2)%nat) as [v Hv].
  { apply Nat.mod_upper_bound. lia. }
  rewrite Hv. apply list_elem_of_lookup_2 in Hv.
  apply list_elem_of_fmap in Hv as ([id v'] & -> & Hin).
  apply elem_of_map_to_list in Hin. eauto.
Qed.

Lemma sum_lengths_total l : ∀ acc,
  (∀ g m, (g, m) ∈ l → m ≠ ∅) →
  ∃ n, msa_build.sum_lengths pick l acc = py.Return n.
Proof.
  induction l as [|[g m] l IH]; intros acc H; simpl; [eauto|].
  destruct (choice_len_nonempty g m) as (id & v & _ & ->); [apply (H g); left|].
  simpl. apply IH. intros g' m' Hin. apply (H g'). by right.
Qed.

End choice.

Section missing.
Lemma extend_first_lookup first others recs : ∀ missing g,
  msa_build.extend_first first others recs missing !! g
  = if decide (g = first)
    then (λ l, l ++ concat ((λ gene, elements (dom (default ∅ (recs !! gene)))) <$> others))%list
           <$> missing !! g
    else missing !! g.
Proof.
  induction others as [|gene gs IH]; intros missing g; simpl.
  - case_decide; [|done]. destruct (missing !! g); simpl; [|done]. by rewrite app_nil_r.
  - rewrite IH. destruct (decide (g = first)) as [->|Hne].
    + rewrite lookup_alter_eq. destruct (missing !! first); simpl; [|done].
      by rewrite <- app_assoc.
    + by rewrite lookup_alter_ne.
Qed.

Lemma initial_missing_lookup (gs : list string) g :
  (list_to_map ((λ gene, (gene, [])) <$> gs) : gmap string (list string)) !! g
  = if decide (g ∈ gs) then Some [] else None.
Proof.
  induction gs as [|gene gs IH].
  - rewrite fmap_nil, list_to_map_nil, lookup_empty. by rewrite decide_False by set_solver.
  - rewrite fmap_cons, list_to_map_cons. destruct (decide (g = gene)) as [->|Hne].
    + rewrite lookup_insert_eq. by rewrite decide_True by set_solver.
    + rewrite lookup_insert_ne by done. rewrite IH.
      repeat case_decide; try done; set_solver.
Qed.
End missing.

Section concat_msa_facts.
Context (SeqIO_parse : string → list (string * string)).
Context (set_order : gset string → list string).
Context (s : msa_build.self) (w : env.world) (first : string) (others : list string).
Hypothesis Hgenes : msa_build.genes s = first :: others.
Hypothesis Hnd : NoDup (first :: others).
Hypothesis Hfiles :
  ∀ g, g ∈ first :: others → is_Some (env.files w !! msa_build.msa_path s g).
Hypothesis Horder : ∀ X, set_order X ≡ₚ elements X.

Local Abbreviation aln := (alignment SeqIO_parse s w).
Local Abbreviation look := (look SeqIO_parse s w).

Local Abbreviation ids := (set_order (dom (aln first))).
Local Abbreviation rows := (omap (row look (msa_build.sep s) first others) ids).

Lemma elem_of_ids id : id ∈ ids ↔ id ∈ dom (aln first).
Proof. rewrite Horder. apply elem_of_elements. Qed.

Lemma NoDup_ids : NoDup ids.
Proof. rewrite Horder. apply NoDup_elements. Qed.

Lemma concat_loop_run :
  ∃ recs st missing,
    msa_build.read_all SeqIO_parse s (env.files w) (first :: others) ∅ = py.Return recs
    ∧ (∀ g, recs !! g = if decide (g ∈ first :: others) then Some (aln g) else None)
    ∧ msa_build.concat_samples s first ids
        {| msa_build.all_records := recs;
           msa_build.missing_genes := list_to_map ((λ gene, (gene, [])) <$> first :: others);
           msa_build.written := []; msa_build.shared := 0 |} = py.Return st
    ∧ msa_build.written st = rows
    ∧ msa_build.shared st = Z.of_nat (length rows)
    ∧ missing = msa_build.extend_first first others (msa_build.all_records st)
                  (msa_build.missing_genes st)
    ∧ missing !! first
      = Some (concat ((λ g, elements (dom (aln g) ∖ dom (aln first))) <$> others))
    ∧ (∀ g, g ∈ others →
         missing !! g = Some (filter (λ id, id ∉ dom (aln g)) ids)).
Proof.
  destruct (read_all_spec SeqIO_parse s w (first :: others) ∅ Hfiles) as (recs & Hread & Hrecs).
  assert (Hget : ∀ g id, g ∈ first :: others → get recs g id = look g id).
  { intros g id Hg. unfold get, look. rewrite Hrecs, decide_True by done. done. }
  set (st0 := {| msa_build.all_records := recs;
           msa_build.missing_genes := list_to_map ((λ gene, (gene, [])) <$> first :: others);
           msa_build.written := []; msa_build.shared := 0 |}).
  destruct (concat_samples_spec s first others Hgenes Hnd ids st0 NoDup_ids)
    as (st & Hrun & Hget' & Hw & Hs & Hm).
  { intros id Hid. simpl. rewrite Hget by set_solver. unfold look.
    apply elem_of_dom. by apply elem_of_ids. }
  subst st0.
  cbn [msa_build.all_records msa_build.missing_genes msa_build.written
       msa_build.shared] in Hget', Hw, Hs, Hm.
  rewrite app_nil_l in Hw.
  assert (Hrows : omap (row (get recs) (msa_build.sep s) first others) ids = rows).
  { apply omap_ext_in. intros id _. apply row_ext. intros g Hg. by apply Hget. }
  rewrite Hrows in Hw, Hs.
  apply NoDup_cons in Hnd as [Hfirst Hothers].
  exists recs, st, (msa_build.extend_first first others (msa_build.all_records st)
                     (msa_build.missing_genes st)).
  split; [done|]. split; [|split; [done|split; [done|split; [lia|split; [done|split]]]]].
  - intros g. rewrite Hrecs. by rewrite lookup_empty.
  - rewrite extend_first_lookup, decide_True by done.
    rewrite Hm, decide_False by done. rewrite initial_missing_lookup, decide_True by set_solver.
    simpl. f_equal. f_equal. apply list_fmap_ext. intros _ g Hg%list_elem_of_lookup_2.
    f_equal. apply set_eq. intros id. rewrite elem_of_dom_get, Hget'.
    rewrite elem_of_difference. pose proof (elem_of_ids id) as Hids.
    destruct (decide (id ∈ ids)) as [Hid|Hid].
    + rewrite decide_True by set_solver. split; [by intros [??]|naive_solver].
    + rewrite decide_False by naive_solver. rewrite Hget by set_solver.
      unfold look. rewrite <- elem_of_dom. naive_solver.
  - intros g Hg. assert (g ≠ first) by set_solver.
    rewrite extend_first_lookup, decide_False by done.
    rewrite Hm, decide_True by done.
    rewrite initial_missing_lookup, decide_True by set_solver. simpl. f_equal.
    apply filter_ext_in. intros id _. rewrite Hget by set_solver. unfold look.
    by rewrite not_elem_of_dom.
Qed.
End concat_msa_facts.

Lemma row_is_Some look sep first others id :
  is_Some (row look sep first others id)
  ↔ Forall (λ g, is_Some (look g id)) (first :: others).
Proof.
  unfold row. rewrite Forall_cons, Forall_forall, <- (joined_is_Some look sep).
  destruct (look first id) as [r|]; simpl.
  - destruct (joined look sep id others) as [j|]; simpl.
    + split; [intros _|]; eauto.
    + split; [by intros [??]|]. by intros [_ [??]].
  - split; [by intros [??]|]. by intros [[??] _].
Qed.

Lemma row_id look sep first others id p :
  row look sep first others id = Some p → p.1 = id.
Proof.
  unfold row. destruct (look first id); simpl; [|done].
  destruct (joined look sep id others); simpl; [|done]. by intros [= <-].
Qed.

Lemma rows_ids look sep first others ids :
  (omap (row look sep first others) ids).*1
  = filter (λ id, Forall (λ g, is_Some (look g id)) (first :: others)) ids.
Proof.
  induction ids as [|id ids IH]; [done|].
  rewrite omap_cons_list, fmap_app, IH, filter_cons.
  destruct (row look sep first others id) as [p|] eqn:Hrow.
  - rewrite decide_True by (eapply row_is_Some; eauto).
    apply row_id in Hrow as <-. done.
  - rewrite decide_False; [done|]. rewrite <- row_is_Some, Hrow. by intros [??].
Qed.

Section concat_msa_unfold.
Context (SeqIO_parse : string → list (string * string)).
Context (set_order : gset string → list string) (pick : string → nat).
Context (s : msa_build.self) (w : env.world) (first : string) (others : list string).
Hypothesis Hgenes : msa_build.genes s = first :: others.
Hypothesis Hnd : NoDup (first :: others).
Hypothesis Hfiles :
  ∀ g, g ∈ first :: others → is_Some (env.files w !! msa_build.msa_path s g).
Hypothesis Horder : ∀ X, set_order X ≡ₚ elements X.

Local Abbreviation aln := (alignment SeqIO_parse s w).
Local Abbreviation ids := (set_order (dom (aln first))).
Local Abbreviation rows := (omap (row (look SeqIO_parse s w) (msa_build.sep s) first others) ids).

Lemma concat_msa_unfold :
  ∃ recs missing,
    (∀ g, recs !! g = if decide (g ∈ first :: others) then Some (aln g) else None)
    ∧ missing !! first
      = Some (concat ((λ g, elements (dom (aln g) ∖ dom (aln first))) <$> others))
    ∧ (∀ g, g ∈ others →
         missing !! g = Some (filter (λ id, id ∉ dom (aln g)) ids))
    ∧ msa_build.concat_msa SeqIO_parse set_order pick s w
      = (msa_len ← msa_build.sum_lengths pick (map_to_list recs) 0;
         if bool_decide (others ≠ []) then
           if bool_decide (rows = []) then py.Exit 1 else py.Return (rows, missing)
         else
           if msa_len =? 0 then py.Exit 1 else py.Return (rows, missing)).
Proof.
  destruct (concat_loop_run SeqIO_parse set_order s w first others Hgenes Hnd Hfiles Horder)
    as (recs & st & missing & Hread & Hrecs & Hrun & Hw & Hs & Hmiss & Hm1 & Hm2).
  exists recs, missing. split; [done|]. split; [done|]. split; [done|].
  unfold msa_build.concat_msa. rewrite Hgenes, Hread. simpl.
  destruct (msa_build.sum_lengths pick (map_to_list recs) 0) as [msa_len| |]; simpl; try done.
  assert (Hfirst : default ∅ (recs !! first) = aln first).
  { rewrite Hrecs, decide_True by set_solver. done. }
  rewrite Hfirst.
  match goal with |- context [msa_build.concat_samples s first ids ?st0] =>
    replace (msa_build.concat_samples s first ids st0) with (py.Return (A:=msa_build.concat_state) st) end.
  simpl. rewrite <- Hmiss, Hw, Hs.
  destruct others as [|g2 rest].
  - rewrite bool_decide_false by naive_solver. simpl. done.
  - rewrite bool_decide_true by done.
    match goal with |- context [1 <? ?n] =>
      replace (1 <? n) with true by (symmetry; apply Z.ltb_lt; cbn [length]; lia) end.
    destruct (omap _ ids) eqn:Hrows.
    + by rewrite bool_decide_true.
    + rewrite bool_decide_false by done.
      match goal with |- context [?n =? 0] =>
        replace (n =? 0) with false; [done|] end.
      symmetry. apply Z.eqb_neq. cbn [length]. lia.
Qed.
End concat_msa_unfold.

Lemma NoDup_singleton_eq {A} (l : list A) (x : A) :
  NoDup l → (∀ a, a ∈ l ↔ a = x) → l = [x].
Proof.
  intros Hnd H. destruct l as [|a l].
  - exfalso. apply (not_elem_of_nil x). by apply H.
  - assert (a = x) as -> by (apply H; left).
    apply NoDup_cons in Hnd as [Hx Hnd]. destruct l as [|b l]; [done|].
    exfalso. apply Hx. assert (b = x) as -> by (apply H; right; left). left.
Qed.

Lemma alignment_nonempty_recs SeqIO_parse s w (genes : list string)
    (recs : gmap string (gmap string string)) :
  (∀ g, recs !! g = if decide (g ∈ genes) then Some (alignment SeqIO_parse s w g) else None) →
  (∀ g, g ∈ genes → alignment SeqIO_parse s w g ≠ ∅) →
  ∀ g m, (g, m) ∈ map_to_list recs → m ≠ ∅.
Proof.
  intros Hrecs Hne g m Hin%elem_of_map_to_list. rewrite Hrecs in Hin.
  case_decide; [|done]. simplify_eq. by apply Hne.
Qed.

(** C1. Over the genes [A; B], with the trimmed alignment of [A] holding the
    samples x, y, z and that of [B] holding y, z, t, [concat_msa] returns
    rows for the shared samples y and z only, each once; the report of
    missing samples maps [B] to x, the sample of the first gene that [B]
    lacks, and [A] to t, the sample left over in [B] once the keys of the
    first gene have been iterated. *)
Theorem concat_msa_two_genes
    (SeqIO_parse : string → list (string * string))
    (set_order : gset string → list string) (pick : string → nat)
    (s : msa_build.self) (w : env.world) (A B x y z t : string) :
  msa_build.genes s = [A; B] →
  A ≠ B →
  is_Some (env.files w !! msa_build.msa_path s A) →
  is_Some (env.files w !! msa_build.msa_path s B) →
  dom (alignment SeqIO_parse s w A) = {[x; y; z]} →
  dom (alignment SeqIO_parse s w B) = {[y; z; t]} →
  x ≠ y → x ≠ z → x ≠ t → t ≠ y → t ≠ z →
  (∀ X, set_order X ≡ₚ elements X) →
  ∃ rows missing,
    msa_build.concat_msa SeqIO_parse set_order pick s w = py.Return (rows, missing)
    ∧ NoDup rows.*1
    ∧ list_to_set rows.*1 = ({[y; z]} : gset string)
    ∧ missing !! B = Some [x]
    ∧ missing !! A = Some [t].
Proof.
  intros Hgenes HAB HfA HfB HdA HdB Hxy Hxz Hxt Hty Htz Horder.
  assert (Hnd : NoDup [A; B]) by (apply NoDup_cons; split; [set_solver|apply NoDup_singleton]).
  assert (Hfiles : ∀ g, g ∈ [A; B] → is_Some (env.files w !! msa_build.msa_path s g)).
  { intros g [->|[->|?]%elem_of_cons]%elem_of_cons; [done|done|set_solver]. }
  destruct (concat_msa_unfold SeqIO_parse set_order pick s w A [B] Hgenes Hnd Hfiles Horder)
    as (recs & missing & Hrecs & HmA & HmB & Hrun).
  destruct (sum_lengths_total pick (map_to_list recs) 0) as [msa_len Hlen].
  { apply (alignment_nonempty_recs SeqIO_parse s w [A; B]); [done|].
    intros g [->|[->|?]%elem_of_cons]%elem_of_cons Hempty; [| |set_solver].
    - rewrite Hempty, dom_empty_L in HdA. set_solver.
    - rewrite Hempty, dom_empty_L in HdB. set_solver. }
  rewrite Hlen in Hrun. cbn [mbind py.result_bind py.bind] in Hrun.
  rewrite bool_decide_true in Hrun by done.
  set (ids := set_order (dom (alignment SeqIO_parse s w A))) in *.
  set (rows := omap (row (look SeqIO_parse s w) (msa_build.sep s) A [B]) ids) in *.
  assert (Hin_ids : ∀ id, id ∈ ids ↔ id ∈ ({[x; y; z]} : gset string)).
  { intros id. unfold ids. rewrite Horder, elem_of_elements, HdA. done. }
  assert (Hnd_ids : NoDup ids) by (unfold ids; rewrite Horder; apply NoDup_elements).
  assert (Hrows : ∀ id, id ∈ rows.*1 ↔ id = y ∨ id = z).
  { intros id. unfold rows. rewrite rows_ids, list_elem_of_filter, Hin_ids.
    rewrite !Forall_cons. unfold look. rewrite <- !elem_of_dom, HdA, HdB. set_solver. }
  exists rows, missing. split; [|split; [|split; [|split]]].
  - rewrite Hrun. rewrite bool_decide_false; [done|]. intros Hnil.
    assert (y ∈ rows.*1) as Hy by (apply Hrows; by left).
    rewrite Hnil in Hy. by apply not_elem_of_nil in Hy.
  - unfold rows. rewrite rows_ids. by apply NoDup_filter.
  - apply set_eq. intros id. rewrite elem_of_list_to_set, Hrows. set_solver.
  - rewrite HmB by set_solver. f_equal. apply NoDup_singleton_eq.
    + by apply NoDup_filter.
    + intros id. rewrite list_elem_of_filter, Hin_ids, HdB. set_solver.
  - rewrite HmA. f_equal. simpl. rewrite app_nil_r.
    replace (dom (alignment SeqIO_parse s w B) ∖ dom (alignment SeqIO_parse s w A))
      with ({[t]} : gset string) by (rewrite HdA, HdB; set_solver).
    apply elements_singleton.
Qed.

(** The run on the two example alignments: genes A over x, y, z and B over
    y, z, w. *)
Lemma concat_msa_two_genes_witness :
  ∃ rows missing,
    msa_build.concat_msa example.fasta elements (λ _, 0%nat) example.two_genes
      example.trimmed = py.Return (rows, missing)
    ∧ NoDup rows.*1
    ∧ list_to_set rows.*1 = ({[ "y"; "z" ]} : gset string)
    ∧ missing !! "B" = Some ["x"]
    ∧ missing !! "A" = Some ["w"].
Proof.
  apply (concat_msa_two_genes example.fasta elements (λ _, 0%nat) example.two_genes
           example.trimmed "A" "B" "x" "y" "z" "w"); done.
Defined.

Lemma joined_length look sep id (width : string → Z) others : ∀ j,
  joined look sep id others = Some j →
  (∀ g v, g ∈ others → look g id = Some v → Z.of_nat (String.length v) = width g) →
  Z.of_nat (String.length j)
  = foldr (λ g a, width g + a) 0 others
    + Z.of_nat (length others) * Z.of_nat (String.length sep).
Proof.
  induction others as [|g gs IH]; intros j Hj Hw; simpl in Hj.
  - by simplify_eq.
  - destruct (look g id) as [r|] eqn:Hr; [|done]. simpl in Hj.
    destruct (joined look sep id gs) as [j'|] eqn:Hj'; [|done]. simpl in Hj.
    simplify_eq. rewrite !str_length_app.
    specialize (IH j' eq_refl). rewrite !Nat2Z.inj_add, IH by (intros; eapply Hw; [set_solver|done]).
    rewrite (Hw g r) by (done || set_solver). cbn [foldr length]. lia.
Qed.

(** C2. When every trimmed alignment is rectangular, of width [width g] for
    gene [g], each sample found in every gene gets a row in the output of
    [concat_msa], and every row written for it has length the sum of the
    widths of the genes plus (number of genes - 1) times the length of the
    separator. *)
Theorem concat_msa_row_length
    (SeqIO_parse : string → list (string * string))
    (set_order : gset string → list string) (pick : string → nat)
    (s : msa_build.self) (w : env.world) (first : string) (others : list string)
    (width : string → Z) (rows : list (string * string))
    (missing : gmap string (list string)) :
  msa_build.genes s = first :: others →
  NoDup (first :: others) →
  (∀ g, g ∈ first :: others → is_Some (env.files w !! msa_build.msa_path s g)) →
  (∀ X, set_order X ≡ₚ elements X) →
  (∀ g id v, g ∈ first :: others → alignment SeqIO_parse s w g !! id = Some v →
             Z.of_nat (String.length v) = width g) →
  msa_build.concat_msa SeqIO_parse set_order pick s w = py.Return (rows, missing) →
  ∀ id,
    Forall (λ g, id ∈ dom (alignment SeqIO_parse s w g)) (first :: others) →
    ∃ r, (id, r) ∈ rows
      ∧ ∀ r', (id, r') ∈ rows →
          Z.of_nat (String.length r') = spec.row_length width (first :: others) (msa_build.sep s).
Proof.
  intros Hgenes Hnd Hfiles Horder Hrect Hrun id Hid.
  destruct (concat_msa_unfold SeqIO_parse set_order pick s w first others Hgenes Hnd Hfiles Horder)
    as (recs & missing' & _ & _ & _ & Hrun').
  rewrite Hrun in Hrun'.
  assert (Hrows : rows = omap (row (look SeqIO_parse s w) (msa_build.sep s) first others)
                           (set_order (dom (alignment SeqIO_parse s w first)))).
  { destruct (msa_build.sum_lengths pick (map_to_list recs) 0); [|done..].
    cbn [mbind py.result_bind py.bind] in Hrun'.
    repeat case_match; by simplify_eq. }
  assert (Hsome : is_Some (row (look SeqIO_parse s w) (msa_build.sep s) first others id)).
  { apply row_is_Some. eapply Forall_impl; [exact Hid|]. intros g Hg. by apply elem_of_dom. }
  destruct Hsome as [[id' r] Hrow]. pose proof (row_id _ _ _ _ _ _ Hrow) as Hid'.
  simpl in Hid'. subst id'.
  exists r. split.
  - rewrite Hrows. apply list_elem_of_omap. exists id. split; [|done].
    rewrite Horder. apply elem_of_elements. by apply Forall_cons in Hid as [? _].
  - intros r' Hin. rewrite Hrows in Hin. apply list_elem_of_omap in Hin as (id2 & _ & Hrow2).
    pose proof (row_id _ _ _ _ _ _ Hrow2) as Hid2. simpl in Hid2. subst id2.
    clear Hrow r. unfold row in Hrow2.
    destruct (look SeqIO_parse s w first id) as [r1|] eqn:Hr1; [|done]. simpl in Hrow2.
    destruct (joined _ _ id others) as [j|] eqn:Hj; [|done]. simpl in Hrow2. simplify_eq.
    rewrite str_length_app, Nat2Z.inj_add.
    rewrite (joined_length _ _ _ width _ _ Hj).
    2:{ intros g v Hg Hv. apply (Hrect g id); [set_solver|done]. }
    rewrite (Hrect first id r1) by (done || set_solver).
    unfold spec.row_length. cbn [foldr length]. lia.
Qed.

(** The two example alignments are rectangular: width four and width three. *)
Lemma rectangular_example (g id v : string) :
  g ∈ ["A"; "B"] →
  alignment example.fasta example.two_genes example.trimmed g !! id = Some v →
  Z.of_nat (String.length v) = if String.eqb g "A" then 4 else 3.
Proof.
  intros Hg Hv.
  assert (HA : map_Forall (λ _ v, Z.of_nat (String.length v) = 4)
                 (alignment example.fasta example.two_genes example.trimmed "A")).
  { apply map_Forall_to_list. vm_compute. repeat constructor. }
  assert (HB : map_Forall (λ _ v, Z.of_nat (String.length v) = 3)
                 (alignment example.fasta example.two_genes example.trimmed "B")).
  { apply map_Forall_to_list. vm_compute. repeat constructor. }
  apply elem_of_cons in Hg as [->|Hg].
  - exact (HA id v Hv).
  - apply list_elem_of_singleton in Hg as ->. exact (HB id v Hv).
Qed.

(** Sample y of the example: 4 + 3 symbols and one separator of ten. *)
Lemma concat_msa_row_length_witness :
  ∃ r, ("y", r) ∈ example.concatenated.1
    ∧ ∀ r', ("y", r') ∈ example.concatenated.1 → Z.of_nat (String.length r') = 17.
Proof.
  apply (concat_msa_row_length example.fasta elements (λ _, 0%nat) example.two_genes
           example.trimmed "A" ["B"] (λ g, if String.eqb g "A" then 4 else 3)
           example.concatenated.1 example.concatenated.2).
  - reflexivity.
  - apply NoDup_cons. split; [set_solver|apply NoDup_singleton].
  - intros g Hg. apply elem_of_cons in Hg as [->|Hg]; [by eexists|].
    apply list_elem_of_singleton in Hg as ->. by eexists.
  - intros X. reflexivity.
  - intros g id v. apply rectangular_example.
  - vm_compute. reflexivity.
  - repeat constructor; apply elem_of_dom; by eexists.
Defined.

(** C5. [concat_msa] either exits with code 1 or returns its output. With
    more than one gene it exits exactly when no sample is found in every
    gene; with one gene it exits exactly when the width of the alignment is
    zero. Samples dropped because some gene lacks them do not end the run
    by themselves. *)
Theorem concat_msa_fatal
    (SeqIO_parse : string → list (string * string))
    (set_order : gset string → list string) (pick : string → nat)
    (s : msa_build.self) (w : env.world) (first : string) (others : list string) :
  msa_build.genes s = first :: others →
  NoDup (first :: others) →
  (∀ g, g ∈ first :: others → is_Some (env.files w !! msa_build.msa_path s g)) →
  (∀ g, g ∈ first :: others → alignment SeqIO_parse s w g ≠ ∅) →
  (∀ X, set_order X ≡ₚ elements X) →
  let run := msa_build.concat_msa SeqIO_parse set_order pick s w in
  (run = py.Exit 1 ∨ ∃ out, run = py.Return out)
  ∧ (others ≠ [] →
       (run = py.Exit 1
        ↔ ¬ ∃ id, Forall (λ g, id ∈ dom (alignment SeqIO_parse s w g)) (first :: others)))
  ∧ (others = [] →
       ∀ width,
         (∀ id v, alignment SeqIO_parse s w first !! id = Some v →
                  Z.of_nat (String.length v) = width) →
         (run = py.Exit 1 ↔ width = 0)).
Proof.
  intros Hgenes Hnd Hfiles Hne Horder run.
  destruct (concat_msa_unfold SeqIO_parse set_order pick s w first others Hgenes Hnd Hfiles Horder)
    as (recs & missing & Hrecs & _ & _ & Hrun).
  fold run in Hrun.
  destruct (sum_lengths_total pick (map_to_list recs) 0) as [msa_len Hlen].
  { by apply (alignment_nonempty_recs SeqIO_parse s w (first :: others)). }
  rewrite Hlen in Hrun. cbn [mbind py.result_bind py.bind] in Hrun.
  set (ids := set_order (dom (alignment SeqIO_parse s w first))) in *.
  set (rows := omap (row (look SeqIO_parse s w) (msa_build.sep s) first others) ids) in *.
  split; [|split].
  - rewrite Hrun. repeat case_match; eauto.
  - intros Hmulti. rewrite bool_decide_true in Hrun by done. rewrite Hrun.
    assert (Hiff : rows = [] ↔
      ¬ ∃ id, Forall (λ g, id ∈ dom (alignment SeqIO_parse s w g)) (first :: others)).
    { split.
      - intros Hnil [id Hid].
        assert (id ∈ rows.*1) as Hin; [|rewrite Hnil in Hin; by apply not_elem_of_nil in Hin].
        unfold rows. rewrite rows_ids. apply list_elem_of_filter. split.
        + eapply Forall_impl; [exact Hid|]. intros g Hg. by apply elem_of_dom.
        + unfold ids. rewrite Horder. apply elem_of_elements.
          by apply Forall_cons in Hid as [? _].
      - intros Hno. destruct rows as [|[id r] rows'] eqn:Hrows; [done|]. exfalso. apply Hno.
        exists id. assert (id ∈ rows.*1) as Hin by (rewrite Hrows; left).
        unfold rows in Hin. rewrite rows_ids in Hin. apply list_elem_of_filter in Hin as [HF _].
        eapply Forall_impl; [exact HF|]. intros g Hg. by apply elem_of_dom. }
    case_bool_decide as Hrows.
    + split; [by intros _; apply Hiff|done].
    + split; [done|]. intros Hno. exfalso. by apply Hrows, Hiff.
  - intros -> width Hwidth. rewrite bool_decide_false in Hrun by naive_solver.
    assert (recs = {[first := alignment SeqIO_parse s w first]}) as ->.
    { apply map_eq. intros g. rewrite Hrecs. destruct (decide (g = first)) as [->|Hg].
      - by rewrite lookup_singleton_eq, decide_True by set_solver.
      - rewrite lookup_singleton_ne by done. by rewrite decide_False by set_solver. }
    rewrite map_to_list_singleton in Hlen. cbn [msa_build.sum_lengths] in Hlen.
    destruct (choice_len_nonempty pick first (alignment SeqIO_parse s w first))
      as (id & v & Hv & Hchoice); [apply Hne; set_solver|].
    rewrite Hchoice in Hlen. cbn [mbind py.result_bind py.bind] in Hlen.
    simplify_eq. rewrite (Hwidth id v Hv), Z.add_0_l in Hrun. rewrite Hrun.
    destruct (Z.eqb_spec width 0); split; done.
Qed.

Lemma one_gene_files (g : string) :
  g ∈ ["A"] →
  is_Some (env.files example.all_gaps_trimmed !! msa_build.msa_path example.one_gene g).
Proof. intros Hg. apply list_elem_of_singleton in Hg as ->. by eexists. Qed.

Lemma one_gene_nonempty (g : string) :
  g ∈ ["A"] → alignment example.fasta example.one_gene example.all_gaps_trimmed g ≠ ∅.
Proof. intros Hg. apply list_elem_of_singleton in Hg as ->. by vm_compute. Qed.

Lemma two_genes_files (g : string) :
  g ∈ ["A"; "B"] →
  is_Some (env.files example.trimmed !! msa_build.msa_path example.two_genes g).
Proof.
  intros Hg. apply elem_of_cons in Hg as [->|Hg]; [by eexists|].
  apply list_elem_of_singleton in Hg as ->. by eexists.
Qed.

Lemma two_genes_nonempty (g : string) :
  g ∈ ["A"; "B"] → alignment example.fasta example.two_genes example.trimmed g ≠ ∅.
Proof.
  intros Hg. apply elem_of_cons in Hg as [->|Hg]; [by vm_compute|].
  apply list_elem_of_singleton in Hg as ->. by vm_compute.
Qed.

Lemma two_genes_distinct : NoDup ["A"; "B"].
Proof. apply NoDup_cons. split; [set_solver|apply NoDup_singleton]. Qed.

(** One gene of width zero ends the run; the two example genes, which drop
    the samples x and w, do not. *)
Lemma concat_msa_fatal_witness :
  msa_build.concat_msa example.fasta elements (λ _, 0%nat) example.one_gene
    example.all_gaps_trimmed = py.Exit 1
  ∧ ∃ out, msa_build.concat_msa example.fasta elements (λ _, 0%nat) example.two_genes
             example.trimmed = py.Return out.
Proof.
  split.
  - destruct (concat_msa_fatal example.fasta elements (λ _, 0%nat) example.one_gene
                example.all_gaps_trimmed "A" [] eq_refl (NoDup_singleton "A")
                one_gene_files one_gene_nonempty (λ X, reflexivity _))
      as (_ & _ & Hsingle).
    apply (Hsingle eq_refl 0); [|done]. intros id v.
    apply (map_Forall_to_list (λ _ v, Z.of_nat (String.length v) = 0)).
    vm_compute. repeat constructor.
  - destruct (concat_msa_fatal example.fasta elements (λ _, 0%nat) example.two_genes
                example.trimmed "A" ["B"] eq_refl two_genes_distinct
                two_genes_files two_genes_nonempty (λ X, reflexivity _))
      as (Hout & Hmulti & _).
    destruct Hout as [Hexit|Hret]; [|done]. exfalso.
    apply (proj1 (Hmulti ltac:(done))) in Hexit. apply Hexit. exists "y".
    repeat constructor; apply elem_of_dom; by eexists.
Defined.

(** ** Presets *)

(** The options of [trim_msa] against the table: they agree but for the
    good-block minimum of the strict preset, which stays at 5. *)
Lemma gblocks_options_table (p : spec.preset) (n : Z) :
  msa_build.gblocks_options n (spec.token p)
  = (t ← spec.table p n;
     py.Return {| msa_build.cons := spec.conserved_minimum t;
                  msa_build.flank := spec.flank_minimum t;
                  msa_build.gaps := spec.gap_letter (spec.gap_policy t);
                  msa_build.b4 := match p with
                                  | spec.strict => 5
                                  | _ => spec.good_block_minimum t
                                  end |}).
Proof.
  destruct p; cbn [spec.token spec.table]; unfold msa_build.gblocks_options;
    cbn [String.eqb Ascii.eqb Bool.eqb]; cbn [mbind py.result_bind py.bind]; try done.
  - by destruct (py.int_mul n py.f0_85).
  - by destruct (py.int_mul n py.f0_9).
Qed.

(** The values [re_preset] hands to the adjustments are the table's. *)
Lemma re_preset_table (p : spec.preset) (n_sites n_seqs : Z) (ui : gbl_page.iface) :
  gbl_page.gbl_preset ui = spec.token p →
  gbl_page.re_preset n_sites n_seqs ui
  = (t ← spec.table p n_seqs;
     py.Return
       {| gbl_page.gbl_preset := gbl_page.gbl_preset ui;
          gbl_page.gaps := spec.gap_policy t;
          gbl_page.conserved :=
            gbl_page.configure (spec.conserved_minimum t) (n_seqs `div` 2 + 1) n_seqs;
          gbl_page.flank :=
            gbl_page.configure (spec.flank_minimum t) (n_seqs `div` 2 + 1) n_seqs;
          gbl_page.good_block := gbl_page.configure (spec.good_block_minimum t) 2 n_sites;
          gbl_page.bad_block := gbl_page.configure (spec.bad_block_maximum t) 0 n_sites;
          gbl_page.params := gbl_page.params ui |}).
Proof.
  intros Hp. unfold gbl_page.re_preset. rewrite Hp.
  destruct p; cbn [spec.token spec.table]; cbn [String.eqb Ascii.eqb Bool.eqb];
    cbn [mbind py.result_bind py.bind]; try done.
  - by destruct (py.int_mul n_seqs py.f0_85).
  - by destruct (py.int_mul n_seqs py.f0_9).
Qed.

Lemma exact_below_sound (bound n : Z) :
  exact_below bound = true → 0 ≤ n < bound →
  py.int_mul n py.f0_9 = py.Return ((9 * n) `div` 10)
  ∧ py.int_mul n py.f0_85 = py.Return ((17 * n) `div` 20).
Proof.
  unfold exact_below. rewrite forallb_forall. intros H Hn.
  assert (Hin : In n (seqZ 0 bound)) by (apply list_elem_of_In, elem_of_seqZ; lia).
  specialize (H n Hin).
  destruct (py.int_mul n py.f0_9) as [a| |], (py.int_mul n py.f0_85) as [b| |]; try done.
  apply andb_true_iff in H as [Ha%Z.eqb_eq Hb%Z.eqb_eq]. by subst.
Qed.

Lemma exact_below_4096 : exact_below 4096 = true.
Proof. vm_compute. reflexivity. Qed.

Lemma float_products_exact (n : Z) :
  0 ≤ n < 4096 →
  py.int_mul n py.f0_9 = py.Return ((9 * n) `div` 10)
  ∧ py.int_mul n py.f0_85 = py.Return ((17 * n) `div` 20).
Proof. apply exact_below_sound, exact_below_4096. Qed.

(** Conserved, flank and the sample count are in order for every preset and
    count below 4096, the balanced preset at two and three samples apart. *)
Lemma presets_ordered (p : spec.preset) (n : Z) :
  1 ≤ n < 4096 → ¬ (p = spec.balanced ∧ (n = 2 ∨ n = 3)) →
  ∃ t, spec.table p n = py.Return t
    ∧ spec.conserved_minimum t ≤ spec.flank_minimum t ≤ n.
Proof.
  intros Hn Hp. destruct (float_products_exact n) as [H9 H85]; [lia|].
  destruct p; cbn [spec.table]; rewrite ?H9, ?H85; cbn [mbind py.result_bind py.bind];
    eexists; (split; [done|]);
    cbn [spec.conserved_minimum spec.flank_minimum].
  - Z.div_mod_to_equations. lia.
  - assert (n ≠ 2 ∧ n ≠ 3) by (split; intros ->; apply Hp; auto).
    Z.div_mod_to_equations. lia.
  - Z.div_mod_to_equations. lia.
  - Z.div_mod_to_equations. lia.
Qed.

(** C3. The strict preset at ten samples: the table gives a good-block
    minimum of 10, while [trim_msa] computes 5 and hands [-b4=5] to the
    trimmer; conserved, flank and the gap letter are the table's. *)
Theorem trim_msa_strict_good_blocks :
  spec.table spec.strict 10
  = py.Return {| spec.conserved_minimum := 9; spec.flank_minimum := 9;
                 spec.gap_policy := "none"; spec.good_block_minimum := 10;
                 spec.bad_block_maximum := 8 |}
  ∧ msa_build.gblocks_options 10 "strict"
    = py.Return {| msa_build.cons := 9; msa_build.flank := 9; msa_build.gaps := "n";
                   msa_build.b4 := 5 |}
  ∧ ∃ w, msa_build.trim_msa (example.trimmer "" "" "")
           {| msa_build.dir := "wd"; msa_build.genes := ["A"]; msa_build.sep := "" |}
           "A" 10 "strict" example.raw = py.Return w
      ∧ env.calls w
        = [{| env.target := "wd/A/A_raw_msa.fasta"; env.b1 := 9; env.b2 := 9;
              env.b3 := None; env.b4 := 5; env.b5 := "n"; env.p := "n" |}].
Proof.
  split; [by vm_compute|]. split; [by vm_compute|].
  eexists. split; [vm_compute; reflexivity|reflexivity].
Qed.


(** ** The trimming page *)

Section loop.
Context (Gblocks : env.gblocks_call → gmap string string → gmap string string * option string).
Context (SeqIO_parse : string → list (string * string)).
Context (seqtoint : string → list Z).
Context (wd : string) (shared : gset string).

Local Abbreviation loop := (gene_loop Gblocks SeqIO_parse seqtoint wd).
Local Abbreviation records_of text := (read_records SeqIO_parse text).

End loop.


Lemma move_calls src dst w w' :
  env.move src dst w = py.Return w' → env.calls w' = env.calls w.
Proof. unfold env.move. destruct (env.files w !! src); [|done]. by intros [= <-]. Qed.

Lemma copy_calls src dst w w' :
  env.copy src dst w = py.Return w' → env.calls w' = env.calls w.
Proof. unfold env.copy. destruct (env.files w !! src); [|done]. by intros [= <-]. Qed.

Section calls.
Context (Gblocks : env.gblocks_call → gmap string string → gmap string string * option string).
Context (SeqIO_parse : string → list (string * string)).
Context (seqtoint : string → list Z).
Context (wd : string) (shared : gset string).

Local Abbreviation step := (gene_step Gblocks SeqIO_parse seqtoint wd).
Local Abbreviation loop := (gene_loop Gblocks SeqIO_parse seqtoint wd).

Lemma parse_result_calls raw_msa msa gene st st' :
  parse_result raw_msa msa gene st = py.Return st' →
  env.calls (world st') = env.calls (world st).
Proof.
  unfold parse_result. destruct (env.move _ _ _) as [w'| |] eqn:Hmove; [|done..].
  apply move_calls in Hmove. cbn [mbind py.result_bind py.bind].
  destruct (env.files w' !! _); [|done].
  destruct (flank_line _); cbn [set_line_blocks set_world line_blocks].
  - case_bool_decide; [by intros [= <-]|].
    destruct (block_slices _ _); cbn [mbind py.result_bind py.bind]; [|done..].
    by intros [= <-].
  - destruct (line_blocks st); [|done].
    case_bool_decide; [by intros [= <-]|].
    destruct (block_slices _ _); cbn [mbind py.result_bind py.bind]; [|done..].
    by intros [= <-].
Qed.

(** The launches a pass adds: none under the skip preset, at most one
    otherwise, built from the base call. *)
Lemma gene_step_calls call gene st e :
  step call shared gene st = py.Return e →
  ∃ new, env.calls (world (final e)) = (env.calls (world st) ++ new)%list
    ∧ match call with
      | None => new = [] ∧ slices (final e) = slices st
      | Some arg => Forall (λ c, ∃ raw, c = arg raw) new
      end.
Proof.
  unfold gene_step. destruct (env.files (world st) !! _) as [text|]; [|done].
  case_bool_decide.
  { intros [= <-]. exists []. rewrite app_nil_r. split; [done|]. by destruct call. }
  destruct (shape1 _) as [width| |]; cbn [mbind py.result_bind py.bind]; [|done..].
  destruct call as [arg|].
  - destruct (Gblocks _ _) as [fs [e'|]].
    + intros [= <-]. eexists [_]. split; [done|]. apply Forall_singleton. eauto.
    + destruct (parse_result _ _ _ _) as [st'| |] eqn:Hparse;
        cbn [mbind py.result_bind py.bind]; [|done..].
      intros [= <-]. apply parse_result_calls in Hparse. cbn [final].
      rewrite Hparse. eexists [_]. split; [done|]. apply Forall_singleton. eauto.
  - destruct (env.copy _ _ _) as [w'| |] eqn:Hcopy;
      cbn [mbind py.result_bind py.bind]; [|done..].
    intros [= <-]. apply copy_calls in Hcopy. exists []. rewrite app_nil_r. done.
Qed.

Lemma gene_loop_calls call genes : ∀ st e,
  loop call shared genes st = py.Return e →
  ∃ new, env.calls (world (final e)) = (env.calls (world st) ++ new)%list
    ∧ match call with
      | None => new = [] ∧ slices (final e) = slices st
      | Some arg => Forall (λ c, ∃ raw, c = arg raw) new
      end.
Proof.
  induction genes as [|gene genes IH]; intros st e; cbn [gene_loop].
  - intros [= <-]. exists []. rewrite app_nil_r. split; [done|]. by destruct call.
  - destruct (step call shared gene st) as [e1| |] eqn:Hstep;
      cbn [mbind py.result_bind py.bind]; [|done..].
    apply gene_step_calls in Hstep as (new1 & Hc1 & Hn1).
    destruct e1 as [st1|st1].
    + intros [= <-]. eauto.
    + intros Hloop. apply IH in Hloop as (new2 & Hc2 & Hn2). cbn [final] in Hc1, Hn1.
      exists (new1 ++ new2)%list. rewrite Hc2, Hc1, app_assoc. split; [done|].
      destruct call.
      * by apply Forall_app.
      * destruct Hn1 as [-> Hs1], Hn2 as [-> Hs2]. split; [done|]. congruence.
Qed.
End calls.

(** C10. Every trimmer call made by a [do_gbl] run that [start_gbl] has
    set off has flank ([-b2]) no smaller than conserved ([-b1]), whatever
    the adjustments held; and after [edit] has handled a change of the
    conserved adjustment, flank is no smaller than conserved. *)
Theorem gui_flank_not_below_conserved
    (Gblocks : env.gblocks_call → gmap string string → gmap string string * option string)
    (SeqIO_parse : string → list (string * string)) (seqtoint : string → list Z)
    (no_genes busy up_to_date : bool) (ui ui' : iface)
    (wd : string) (d : data) (w : env.world) (e : ending) :
  start_gbl no_genes busy up_to_date ui = py.Return (Some ui') →
  do_gbl Gblocks SeqIO_parse seqtoint wd d ui' w = py.Return e →
  (∃ new, env.calls (world (final e)) = (env.calls w ++ new)%list
     ∧ Forall (λ c, env.b1 c ≤ env.b2 c) new)
  ∧ ∀ ui0, value (conserved (edit spin_conserved ui0))
           ≤ value (flank (edit spin_conserved ui0)).
Proof.
  intros Hstart Hrun. split.
  - unfold start_gbl in Hstart.
    destruct no_genes, busy, up_to_date; try done. cbn [negb] in Hstart.
    unfold do_gbl in Hrun.
    destruct (String.eqb (gbl_preset ui) "skip") eqn:Hskip; cbn [negb] in Hstart.
    + simplify_eq. rewrite Hskip in Hrun. cbn [negb mbind py.result_bind py.bind] in Hrun.
      destruct (shared_ids d); cbn [mbind py.result_bind py.bind] in Hrun; [|done..].
      apply gene_loop_calls in Hrun as (new & Hc & -> & _). exists []. by split.
    + destruct (gaps ui) as [|g rest]; [done|]. case_bool_decide; [done|].
      simplify_eq. cbn [gbl_preset params] in Hrun. rewrite Hskip in Hrun.
      cbn [negb mbind py.result_bind py.bind] in Hrun.
      destruct (shared_ids d); cbn [mbind py.result_bind py.bind] in Hrun; [|done..].
      apply gene_loop_calls in Hrun as (new & Hc & Hnew). exists new. split; [done|].
      eapply Forall_impl; [exact Hnew|]. intros c [raw ->].
      cbn [base_call env.b1 env.b2]. case_match; lia.
  - intros ui0. cbn [edit conserved flank configure value]. lia.
Qed.

(** The page with conserved at 2 and flank at 1: [start_gbl] stores flank 2,
    and the two calls of the run carry it. *)
Lemma gui_flank_not_below_conserved_witness :
  start_gbl false false false (example.page "balanced" 2 1 None)
  = py.Return (Some (example.page "balanced" 2 1 (Some (2, 2, 8, 5, "h"))))
  ∧ (∃ new,
       env.calls (world (example.reached
         (do_gbl example.two_blocks example.fasta example.codes "wd"
            (example.dataset ["A"; "B"])
            (example.page "balanced" 2 1 (Some (2, 2, 8, 5, "h"))) example.raw)
         (example.start example.raw)))
       = new
       ∧ Forall (λ c, env.b1 c ≤ env.b2 c) new).
Proof.
  split; [reflexivity|].
  destruct (gui_flank_not_below_conserved example.two_blocks example.fasta example.codes
              false false false (example.page "balanced" 2 1 None)
              (example.page "balanced" 2 1 (Some (2, 2, 8, 5, "h")))
              "wd" (example.dataset ["A"; "B"]) example.raw
              (Completed (example.reached
                 (do_gbl example.two_blocks example.fasta example.codes "wd"
                    (example.dataset ["A"; "B"])
                    (example.page "balanced" 2 1 (Some (2, 2, 8, 5, "h"))) example.raw)
                 (example.start example.raw)))) as [Hcalls _].
  - reflexivity.
  - vm_compute. reflexivity.
  - exact Hcalls.
Defined.

Lemma foldl_add_acc (l : list Z) : ∀ a, foldl Z.add a l = a + foldl Z.add 0 l.
Proof.
  induction l as [|x l IH]; intros a; simpl; [lia|].
  rewrite (IH (a + x)), (IH (0 + x)). lia.
Qed.

Lemma sum_app (l1 l2 : list Z) : sum (l1 ++ l2) = sum l1 + sum l2.
Proof. unfold sum. by rewrite foldl_app, foldl_add_acc. Qed.

Lemma but_last_snoc {A} (l : list A) (x : A) : but_last (l ++ [x]) = l.
Proof.
  unfold but_last. rewrite length_app. simpl.
  replace (length l + 1 - 1)%nat with (length l) by lia. by rewrite take_app_length.
Qed.

Lemma range_shift (k a b : Z) : Z.add k <$> py.range a b = py.range (k + a) (k + b).
Proof.
  unfold py.range. rewrite fmap_add_seqZ. f_equal. lia.
Qed.

Lemma comprehension_fmap {A B} (f g : A → py.result B) (h : B → B) (l : list A) :
  ∀ ys,
  (∀ x y, f x = py.Return y → g x = py.Return (h y)) →
  py.comprehension f l = py.Return ys →
  py.comprehension g l = py.Return (h <$> ys).
Proof.
  induction l as [|x l IH]; intros ys Hfg; cbn [py.comprehension].
  - by intros [= <-].
  - destruct (f x) as [y| |] eqn:Hy; cbn [mbind py.result_bind py.bind]; [|done..].
    destruct (py.comprehension f l) as [ys'| |]; cbn [mbind py.result_bind py.bind]; [|done..].
    intros [= <-]. rewrite (Hfg x y Hy). cbn [mbind py.result_bind py.bind].
    rewrite (IH ys' Hfg eq_refl). done.
Qed.

Lemma block_bounds_shift k shift block r :
  block_bounds shift block = py.Return r →
  block_bounds (k + shift) block = py.Return (Z.add k <$> r).
Proof.
  unfold block_bounds. apply comprehension_fmap. intros b y.
  destruct (py.int b) as [n| |]; cbn [mbind py.result_bind py.bind]; [|done..].
  intros [= <-]. f_equal. lia.
Qed.

Lemma block_range_shift k r rg :
  block_range r = py.Return rg →
  block_range (Z.add k <$> r) = py.Return (Z.add k <$> rg).
Proof.
  destruct r as [|r0 [|r1 r]]; [done..|]. cbn [block_range fmap list_fmap].
  intros [= <-]. rewrite range_shift. do 2 f_equal. lia.
Qed.

Lemma block_slices_shift k shift blocks s :
  block_slices shift blocks = py.Return s →
  block_slices (k + shift) blocks = py.Return (shift_slices k s).
Proof.
  unfold block_slices.
  destruct (py.comprehension (block_bounds shift) blocks) as [rs| |] eqn:Hrs;
    cbn [mbind py.result_bind py.bind]; [|done..].
  destruct (py.comprehension block_range rs) as [ranges| |] eqn:Hranges;
    cbn [mbind py.result_bind py.bind]; [|done..].
  intros [= <-].
  rewrite (comprehension_fmap _ (block_bounds (k + shift)) (fmap (M:=list) (Z.add k)) _ _
             (block_bounds_shift k shift) Hrs).
  cbn [mbind py.result_bind py.bind].
  assert (Hr : py.comprehension block_range (fmap (M:=list) (Z.add k) <$> rs)
               = py.Return (fmap (M:=list) (Z.add k) <$> ranges)).
  { clear Hrs. revert ranges Hranges. induction rs as [|r rs IH]; intros ranges;
      cbn [py.comprehension].
    - by intros [= <-].
    - destruct (block_range r) as [rg| |] eqn:Hrg; cbn [mbind py.result_bind py.bind]; [|done..].
      destruct (py.comprehension block_range rs) as [rgs| |];
        cbn [mbind py.result_bind py.bind]; [|done..].
      intros [= <-]. rewrite fmap_cons. cbn [py.comprehension].
      rewrite (block_range_shift k r rg Hrg). cbn [mbind py.result_bind py.bind].
      rewrite (IH rgs eq_refl). done. }
  rewrite Hr. cbn [mbind py.result_bind py.bind]. f_equal.
  unfold shift_slices. apply set_eq. intros x.
  rewrite elem_of_list_to_set, elem_of_map, list_elem_of_fmap.
  by setoid_rewrite elem_of_list_to_set.
Qed.

Lemma shift_slices_union (k : Z) (a b : gset (list Z)) :
  shift_slices k (a ∪ b) = shift_slices k a ∪ shift_slices k b.
Proof. unfold shift_slices. apply set_eq. intros x. set_solver. Qed.

Lemma shift_slices_empty (k : Z) : shift_slices k ∅ = ∅.
Proof. unfold shift_slices. set_solver. Qed.

Section additive.
Context (Gblocks : env.gblocks_call → gmap string string → gmap string string * option string).
Context (SeqIO_parse : string → list (string * string)).
Context (seqtoint : string → list Z).
Context (wd : string) (shared : gset string).
Context (call : option (string → env.gblocks_call)).

Local Abbreviation step := (gene_step Gblocks SeqIO_parse seqtoint wd call shared).
Local Abbreviation loop := (gene_loop Gblocks SeqIO_parse seqtoint wd call shared).

Lemma gene_loop_app l1 : ∀ l2 st,
  loop (l1 ++ l2) st
  = (e ← loop l1 st;
     match e with
     | Aborted st1 => py.Return (Aborted st1)
     | Completed st1 => loop l2 st1
     end).
Proof.
  induction l1 as [|g l1 IH]; intros l2 st; [done|].
  cbn [app gene_loop]. destruct (step g st) as [[st1|st1]| |];
    cbn [mbind py.result_bind py.bind]; auto.
Qed.

Lemma parse_result_follows base raw_msa msa gene st_c st_f st_f' :
  follows base st_c st_f →
  msa_lens st_f ≠ [] →
  parse_result raw_msa msa gene st_f = py.Return st_f' →
  ∃ st_c', parse_result raw_msa msa gene st_c = py.Return st_c'
           ∧ follows base st_c' st_f'.
Proof.
  intros (Hw & Hl & Hs & Hb) Hne. unfold parse_result. rewrite Hw.
  destruct (env.move _ _ _) as [w'| |]; cbn [mbind py.result_bind py.bind]; [|done..].
  destruct (env.files w' !! _) as [text|]; [|done].
  assert (Hshift : sum (but_last (msa_lens st_c))
                   = sum (msa_lens base) + sum (but_last (msa_lens st_f))).
  { rewrite Hl. destruct (msa_lens st_f) as [|x l] using rev_ind; [done|].
    rewrite app_assoc, !but_last_snoc. apply sum_app. }
  destruct (flank_line (py.readlines text)) as [lane|];
    cbn [set_line_blocks set_world line_blocks msa_lens].
  - case_bool_decide.
    + intros [= <-]. eexists. split; [done|]. by repeat split; cbn.
    + rewrite Hshift.
      destruct (block_slices (sum (but_last (msa_lens st_f))) _) as [s| |] eqn:Hbs;
        cbn [mbind py.result_bind py.bind]; [|done..].
      intros [= <-]. rewrite (block_slices_shift _ _ _ _ Hbs).
      cbn [mbind py.result_bind py.bind]. eexists. split; [done|].
      repeat split; cbn; try done.
      rewrite Hs, shift_slices_union. set_solver.
  - destruct (line_blocks st_f) as [blocks|] eqn:Hblocks; [|done].
    rewrite (Hb blocks eq_refl).
    case_bool_decide.
    + intros [= <-]. eexists. split; [done|]. repeat split; cbn; try done.
      intros b. rewrite Hblocks. intros [= <-]. by apply Hb.
    + rewrite Hshift.
      destruct (block_slices (sum (but_last (msa_lens st_f))) _) as [s| |] eqn:Hbs;
        cbn [mbind py.result_bind py.bind]; [|done..].
      intros [= <-]. rewrite (block_slices_shift _ _ _ _ Hbs).
      cbn [mbind py.result_bind py.bind]. eexists. split; [done|].
      repeat split; cbn; try done.
      * rewrite Hs, shift_slices_union. set_solver.
      * intros b. rewrite Hblocks. intros [= <-]. by apply Hb.
Qed.

Lemma gene_step_follows base gene st_c st_f st_f' :
  follows base st_c st_f →
  step gene st_f = py.Return (Completed st_f') →
  ∃ st_c', step gene st_c = py.Return (Completed st_c') ∧ follows base st_c' st_f'.
Proof.
  intros Hfol. pose proof Hfol as (Hw & Hl & Hs & Hb). unfold gene_step. rewrite Hw.
  destruct (env.files (world st_f) !! _) as [text|]; [|done].
  case_bool_decide; [done|].
  destruct (shape1 _) as [width| |]; cbn [mbind py.result_bind py.bind]; [|done..].
  destruct call as [arg|].
  - cbn [add_len world]. rewrite Hw.
    destruct (Gblocks _ _) as [fs [e|]].
    + intros [= <-]. eexists. split; [done|]. repeat split; cbn; try done.
      by rewrite Hl, app_assoc.
    + destruct (parse_result _ _ _ (set_world _ (add_len width st_f))) as [st'| |] eqn:Hparse;
        cbn [mbind py.result_bind py.bind]; [|done..].
      intros [= <-].
      eapply (parse_result_follows base) in Hparse as (st_c' & -> & Hfol').
      * cbn [mbind py.result_bind py.bind]. eauto.
      * repeat split; cbn; try done. by rewrite Hl, app_assoc.
      * cbn. by destruct (msa_lens st_f).
  - cbn [add_len world]. rewrite Hw.
    destruct (env.copy _ _ _) as [w'| |]; cbn [mbind py.result_bind py.bind]; [|done..].
    intros [= <-]. eexists. split; [done|]. repeat split; cbn; try done.
    by rewrite Hl, app_assoc.
Qed.

Lemma gene_loop_follows base genes : ∀ st_c st_f st_f',
  follows base st_c st_f →
  loop genes st_f = py.Return (Completed st_f') →
  ∃ st_c', loop genes st_c = py.Return (Completed st_c') ∧ follows base st_c' st_f'.
Proof.
  induction genes as [|g genes IH]; intros st_c st_f st_f' Hfol; cbn [gene_loop].
  - intros [= <-]. eauto.
  - destruct (step g st_f) as [[st1|st1]| |] eqn:Hstep;
      cbn [mbind py.result_bind py.bind]; try done.
    intros Hloop.
    destruct (gene_step_follows base g st_c st_f st1 Hfol Hstep) as (st_c1 & -> & Hfol1).
    cbn [mbind py.result_bind py.bind]. by eapply IH.
Qed.

Lemma gene_loop_additive (l1 l2 : list string) (st0 st1 st2 : state) :
  loop l1 st0 = py.Return (Completed st1) →
  loop l2 (restart st1) = py.Return (Completed st2) →
  ∃ st12,
    loop (l1 ++ l2) st0 = py.Return (Completed st12)
    ∧ msa_lens st12 = (msa_lens st1 ++ msa_lens st2)%list
    ∧ slices st12 = slices st1 ∪ shift_slices (sum (msa_lens st1)) (slices st2).
Proof.
  intros H1 H2. rewrite gene_loop_app, H1. cbn [mbind py.result_bind py.bind].
  destruct (gene_loop_follows st1 l2 st1 (restart st1) st2) as (st12 & Hrun & Hfol); [|done|].
  - repeat split; cbn; try done.
    + by rewrite app_nil_r.
    + rewrite shift_slices_empty. set_solver.
  - exists st12. split; [done|]. destruct Hfol as (_ & Hl & Hs & _). done.
Qed.
End additive.

Section widths.
Context (Gblocks : env.gblocks_call → gmap string string → gmap string string * option string).
Context (SeqIO_parse : string → list (string * string)).
Context (seqtoint : string → list Z).
Context (wd : string) (shared : gset string).
Context (call : option (string → env.gblocks_call)).

Local Abbreviation step := (gene_step Gblocks SeqIO_parse seqtoint wd call shared).

Lemma parse_result_shift raw_msa msa gene st st' :
  parse_result raw_msa msa gene st = py.Return st' →
  msa_lens st' = msa_lens st
  ∧ (slices st' = slices st
     ∨ ∃ blocks s, line_blocks st' = Some blocks
         ∧ block_slices (sum (but_last (msa_lens st))) blocks = py.Return s
         ∧ slices st' = slices st ∪ s).
Proof.
  unfold parse_result.
  destruct (env.move _ _ _) as [w'| |]; cbn [mbind py.result_bind py.bind]; [|done..].
  destruct (env.files w' !! _) as [text|]; [|done].
  destruct (flank_line (py.readlines text)) as [lane|];
    cbn [set_line_blocks set_world line_blocks msa_lens].
  - case_bool_decide; [intros [= <-]; by split; [|left]|].
    destruct (block_slices _ _) as [s| |] eqn:Hbs;
      cbn [mbind py.result_bind py.bind]; [|done..].
    intros [= <-]. split; [done|]. right. by exists (blocks_of_lane lane), s.
  - destruct (line_blocks st) as [blocks|] eqn:Hblocks; [|done].
    case_bool_decide; [intros [= <-]; by split; [|left]|].
    destruct (block_slices _ _) as [s| |] eqn:Hbs;
      cbn [mbind py.result_bind py.bind]; [|done..].
    intros [= <-]. split; [done|]. right. by exists blocks, s.
Qed.

(** The width recorded for a gene is the width of its raw alignment, and
    the ranges added for it are its reported blocks moved by the sum of
    the widths recorded for the genes before it. *)
Lemma gene_step_shift gene st st' :
  step gene st = py.Return (Completed st') →
  ∃ text width,
    env.files (world st) !! raw_msa_path wd gene = Some text
    ∧ shape1 (raw_rows seqtoint (read_records SeqIO_parse text) shared) = py.Return width
    ∧ msa_lens st' = (msa_lens st ++ [width])%list
    ∧ (slices st' = slices st
       ∨ ∃ blocks s, line_blocks st' = Some blocks
           ∧ block_slices (sum (msa_lens st)) blocks = py.Return s
           ∧ slices st' = slices st ∪ s).
Proof.
  unfold gene_step. destruct (env.files (world st) !! _) as [text|]; [|done].
  case_bool_decide; [done|]. fold (raw_rows seqtoint (read_records SeqIO_parse text) shared).
  destruct (shape1 _) as [width| |] eqn:Hwidth; cbn [mbind py.result_bind py.bind]; [|done..].
  intros Hrun. exists text, width. split; [done|]. split; [done|].
  destruct call as [arg|].
  - destruct (Gblocks _ _) as [fs [e|]].
    + simplify_eq. split; [done|]. by left.
    + destruct (parse_result _ _ _ _) as [st1| |] eqn:Hparse;
        cbn [mbind py.result_bind py.bind] in Hrun; [|done..].
      simplify_eq. apply parse_result_shift in Hparse as [Hl Hs].
      cbn [set_world add_len msa_lens slices] in Hl, Hs.
      rewrite but_last_snoc in Hs. done.
  - destruct (env.copy _ _ _) as [w'| |]; cbn [mbind py.result_bind py.bind] in Hrun; [|done..].
    simplify_eq. split; [done|]. by left.
Qed.
End widths.

Section skip.
Context (Gblocks : env.gblocks_call → gmap string string → gmap string string * option string).
Context (SeqIO_parse : string → list (string * string)).
Context (seqtoint : string → list Z).

(** C9, as amended. With the skip preset the trimmer is never called and the
  trimmed alignment is the raw alignment, copied as it is: so for
  [trim_msa], and so for a turn of the gene loop of [do_gbl], which also
  records the raw width and leaves the set of retained ranges as it was.
  A whole run of [do_gbl] under skip ends with the calls it started with
  and an empty set of retained ranges. *)
Theorem skip_copies_and_records_no_range :
  (∀ (s : msa_build.self) gene seq_count w text,
     env.files w !! msa_build.raw_msa_path s gene = Some text →
     msa_build.trim_msa Gblocks s gene seq_count "skip" w
     = py.Return {| env.files := <[msa_build.msa_path s gene := text]> (env.files w);
                    env.calls := env.calls w |})
  ∧ (∀ wd shared gene st text width,
       env.files (world st) !! raw_msa_path wd gene = Some text →
       dom (read_records SeqIO_parse text) = shared →
       shape1 (raw_rows seqtoint (read_records SeqIO_parse text) shared) = py.Return width →
       ∃ st', gene_step Gblocks SeqIO_parse seqtoint wd None shared gene st
              = py.Return (Completed st')
         ∧ world st' = {| env.files := <[msa_path wd gene := text]> (env.files (world st));
                          env.calls := env.calls (world st) |}
         ∧ msa_lens st' = (msa_lens st ++ [width])%list
         ∧ slices st' = slices st)
  ∧ (∀ wd d ui w e,
       gbl_preset ui = "skip" →
       do_gbl Gblocks SeqIO_parse seqtoint wd d ui w = py.Return e →
       env.calls (world (final e)) = env.calls w ∧ slices (final e) = ∅).
Proof.
  split; [|split].
  - intros s gene seq_count w text Htext. unfold msa_build.trim_msa.
    cbn [String.eqb Ascii.eqb Bool.eqb]. unfold env.copy. by rewrite Htext.
  - intros wd shared gene st text width Htext Hdom Hwidth.
    unfold gene_step. rewrite Htext. rewrite bool_decide_false by naive_solver.
    fold (raw_rows seqtoint (read_records SeqIO_parse text) shared). rewrite Hwidth.
    cbn [mbind py.result_bind py.bind]. unfold env.copy. cbn [add_len world].
    rewrite Htext. cbn [mbind py.result_bind py.bind]. eexists. split; [done|]. done.
  - intros wd d ui w e Hskip. unfold do_gbl. rewrite Hskip.
    cbn [String.eqb Ascii.eqb Bool.eqb negb mbind py.result_bind py.bind].
    destruct (shared_ids d); cbn [mbind py.result_bind py.bind]; [|done..].
    intros Hrun. apply gene_loop_calls in Hrun as (new & Hc & -> & Hs).
    cbn [world slices] in Hc, Hs. by rewrite app_nil_r in Hc.
Qed.
End skip.

(** [trim_msa] under skip on gene A of the example. *)
Lemma skip_copies_and_records_no_range_witness :
  msa_build.trim_msa (example.broken "")
    {| msa_build.dir := "wd"; msa_build.genes := ["A"]; msa_build.sep := "" |}
    "A" 2 "skip" example.raw
  = py.Return
      {| env.files :=
           <["wd/A/A_msa.fasta" :=
               ">x" +:+ example.nl +:+ "ACGT" +:+ example.nl
               +:+ ">y" +:+ example.nl +:+ "AC-T" +:+ example.nl]> (env.files example.raw);
         env.calls := [] |}.
Proof.
  destruct (skip_copies_and_records_no_range (example.broken "") example.fasta example.codes)
    as (Hcopy & _ & _).
  exact (Hcopy {| msa_build.dir := "wd"; msa_build.genes := ["A"]; msa_build.sep := "" |}
           "A" 2 example.raw _ eq_refl).
Defined.

(** C9, the claim as it stands. A skip run of [do_gbl] over gene A of the
    example, raw width four: no call of the trimmer, but the set of
    retained ranges is empty and not the one range over the four
    columns. *)
Lemma skip_run_records_no_full_width_range :
  ∃ st,
    do_gbl (example.broken "") example.fasta example.codes "wd" (example.dataset ["A"])
      (example.page "skip" 2 2 None) example.raw = py.Return (Completed st)
    ∧ env.calls (world st) = []
    ∧ msa_lens st = [4]
    ∧ slices st = ∅
    ∧ slices st ≠ {[ py.range 0 4 ]}.
Proof.
  eexists. split; [vm_compute; reflexivity|].
  split; [reflexivity|]. split; [reflexivity|]. split; [reflexivity|].
  cbn [slices]. intros Heq.
  assert (Hin : py.range 0 4 ∈ ({[ py.range 0 4 ]} : gset (list Z)))
    by (by apply elem_of_singleton).
  rewrite <- Heq in Hin.
  exact (not_elem_of_empty (C:=gset (list Z)) (py.range 0 4) Hin).
Qed.

(** C8. In a report the line after the flank-positions heading is the one
    that is read; its bracketed pairs are split into blocks, and a pair
    [s  e], one-indexed and inclusive, becomes the range from s - 1 + shift
    up to but not including e + shift. *)
Theorem flank_positions_to_ranges (blocks : list (nat * nat)) (shift : Z) :
  blocks ≠ [] →
  (∀ header,
     py.startswith header "Flank positions of the" = true →
     py.endswith (py.strip header) "selected block(s)" = true →
     flank_line [header; flanks blocks] = Some (flanks blocks))
  ∧ blocks_of_lane (flanks blocks) = block_text <$> blocks
  ∧ block_slices shift (blocks_of_lane (flanks blocks))
    = py.Return (list_to_set
        ((λ b, py.range (Z.of_nat b.1 - 1 + shift) (Z.of_nat b.2 + shift)) <$> blocks)).
Proof.
  intros Hne. split; [|split].
  - intros header H1 H2. cbn [flank_line]. by rewrite H1, H2.
  - by apply blocks_of_flanks.
  - by apply block_slices_flanks.
Qed.

(** The pairs [1  50] and [80  120] give the ranges 0..49 and 79..119. *)
Lemma flank_positions_to_ranges_witness :
  flank_line (py.readlines ("Flank positions of the 2 selected block(s)" +:+ example.nl
                            +:+ "Flanks: [1  50]  [80  120]  " +:+ example.nl))
  = Some ("Flanks: [1  50]  [80  120]  " +:+ example.nl)
  ∧ blocks_of_lane ("Flanks: [1  50]  [80  120]  " +:+ example.nl) = ["1  50"; "80  120"]
  ∧ block_slices 0 (blocks_of_lane ("Flanks: [1  50]  [80  120]  " +:+ example.nl))
    = py.Return ({[ py.range 0 50; py.range 79 120 ]} : gset (list Z)).
Proof.
  split; [reflexivity|].
  destruct (flank_positions_to_ranges [(1%nat, 50%nat); (80%nat, 120%nat)] 0) as (_ & H2 & H3);
    [discriminate|].
  change (flanks [(1%nat, 50%nat); (80%nat, 120%nat)])
    with ("Flanks: [1  50]  [80  120]  " +:+ example.nl) in H2, H3.
  split; [exact H2|]. rewrite H3. f_equal.
Defined.

Section offsets.
Context (Gblocks : env.gblocks_call → gmap string string → gmap string string * option string).
Context (SeqIO_parse : string → list (string * string)).
Context (seqtoint : string → list Z).
Context (wd : string) (shared : gset string).
Context (call : option (string → env.gblocks_call)).

Local Abbreviation step := (gene_step Gblocks SeqIO_parse seqtoint wd call shared).
Local Abbreviation loop := (gene_loop Gblocks SeqIO_parse seqtoint wd call shared).

(** C7. Running the gene loop over [l1] and then, from fresh locals, over
  [l2] and moving the ranges of the second run right by the sum of the
  raw widths of the first gives the widths and ranges of one run over
  [l1 ++ l2]. In each turn the width recorded is that of the raw
  alignment, and the ranges added are those of the reported blocks
  shifted by the sum of the raw widths recorded before. *)
Theorem global_ranges_offset_additive (l1 l2 : list string) (st0 st1 st2 : state) :
  loop l1 st0 = py.Return (Completed st1) →
  loop l2 (restart st1) = py.Return (Completed st2) →
  (∃ st12,
     loop (l1 ++ l2) st0 = py.Return (Completed st12)
     ∧ msa_lens st12 = (msa_lens st1 ++ msa_lens st2)%list
     ∧ slices st12 = slices st1 ∪ shift_slices (sum (msa_lens st1)) (slices st2))
  ∧ (∀ gene st st',
       step gene st = py.Return (Completed st') →
       ∃ text width,
         env.files (world st) !! raw_msa_path wd gene = Some text
         ∧ shape1 (raw_rows seqtoint (read_records SeqIO_parse text) shared)
           = py.Return width
         ∧ msa_lens st' = (msa_lens st ++ [width])%list
         ∧ (slices st' = slices st
            ∨ ∃ blocks s, line_blocks st' = Some blocks
                ∧ block_slices (sum (msa_lens st)) blocks = py.Return s
                ∧ slices st' = slices st ∪ s)).
Proof.
  intros H1 H2. split.
  - by apply gene_loop_additive.
  - intros gene st st'. apply gene_step_shift.
Qed.
End offsets.

(** Genes A and B of the example, raw widths four and six, two blocks each. *)
Lemma global_ranges_offset_additive_witness :
  ∃ st12,
    example.run_loop ["A"; "B"] (example.start example.raw) = py.Return (Completed st12)
    ∧ msa_lens st12 = [4; 6]
    ∧ slices st12
      = ({[ py.range 0 2; py.range 3 4 ]} : gset (list Z))
        ∪ shift_slices 4 {[ py.range 0 2; py.range 3 4 ]}.
Proof.
  pose (st1 := example.reached (example.run_loop ["A"] (example.start example.raw))
                 (example.start example.raw)).
  pose (st2 := example.reached (example.run_loop ["B"] (restart st1)) (restart st1)).
  destruct (global_ranges_offset_additive example.two_blocks example.fasta example.codes
              "wd" {[ "x"; "y" ]} (Some example.base) ["A"] ["B"]
              (example.start example.raw) st1 st2) as [(st12 & Hrun & Hl & Hs) _].
  - vm_compute. reflexivity.
  - vm_compute. reflexivity.
  - exists st12. split; [exact Hrun|]. split; [exact Hl|]. rewrite Hs.
    vm_compute. reflexivity.
Defined.

(** * Further properties *)

(** ** The command line *)











Lemma size_list_to_set_le (l : list string) :
  (size (list_to_set l : gset string) ≤ length l)%nat.
Proof.
  induction l as [|x l IH]; [done|]. cbn [list_to_set length].
  destruct (decide (x ∈ (list_to_set l : gset string))).
  - replace ({[x]} ∪ list_to_set l) with (list_to_set l : gset string) by set_solver. lia.
  - rewrite size_union by set_solver. rewrite size_singleton. lia.
Qed.

Lemma size_list_to_set_NoDup (l : list string) :
  size (list_to_set l : gset string) = length l ↔ NoDup l.
Proof.
  split; [|apply size_list_to_set].
  induction l as [|x l IH]; [constructor|]. cbn [list_to_set length].
  destruct (decide (x ∈ (list_to_set l : gset string))) as [Hin|Hin].
  - replace ({[x]} ∪ list_to_set l) with (list_to_set l : gset string) by set_solver.
    pose proof (size_list_to_set_le l). lia.
  - rewrite size_union by set_solver. rewrite size_singleton. intros H.
    constructor; [by rewrite elem_of_list_to_set in Hin|]. apply IH. lia.
Qed.

(** X4. The parser lets a list of genes pass exactly when no gene is named
    twice; a list with a repeated gene ends the program with the parser's
    error. *)
Theorem check_genes_distinct (genes : list string) :
  (cli.check_genes (Some genes) = py.Return () ↔ NoDup genes)
  ∧ (cli.check_genes (Some genes) = py.Exit 2 ↔ ¬ NoDup genes).
Proof.
  unfold cli.check_genes, cli.error. pose proof (size_list_to_set_le genes) as Hle.
  pose proof (size_list_to_set_NoDup genes) as Hnd.
  destruct (Nat.ltb_spec (size (list_to_set genes : gset string)) (length genes)).
  - assert (¬ NoDup genes) by (intros H'%Hnd; lia). split; split; done.
  - assert (NoDup genes) by (apply Hnd; lia). split; split; done.
Qed.

(** ** The presets and the spin buttons of the trimming page *)

(** X5. After [re_preset] has applied one of the four trimming presets, the
    conserved and the flank adjustment share the lower bound n_seqs//2+1 and
    the upper bound n_seqs, the value of conserved is at most the value of
    flank, and each value is at least its lower bound; with at least one
    sequence the two values are at most n_seqs, and with at least two sites
    the good-block value lies in 2..n_sites and the bad-block value in
    0..n_sites. *)
Theorem re_preset_adjustments_ordered (n_sites n_seqs : Z) (ui ui' : iface) :
  gbl_preset ui ≠ "skip" →
  re_preset n_sites n_seqs ui = py.Return ui' →
  value (conserved ui') ≤ value (flank ui')
  ∧ lower (conserved ui') = n_seqs `div` 2 + 1
  ∧ lower (flank ui') = n_seqs `div` 2 + 1
  ∧ upper (conserved ui') = n_seqs ∧ upper (flank ui') = n_seqs
  ∧ n_seqs `div` 2 + 1 ≤ value (conserved ui')
  ∧ (1 ≤ n_seqs → value (flank ui') ≤ n_seqs)
  ∧ (2 ≤ n_sites →
       2 ≤ value (good_block ui') ≤ n_sites ∧ 0 ≤ value (bad_block ui') ≤ n_sites).
Proof.
  intros Hskip. unfold re_preset.
  destruct (String.eqb_spec (gbl_preset ui) "skip") as [?|_]; [done|].
  assert (Hhalf : 1 ≤ n_seqs → n_seqs `div` 2 + 1 ≤ n_seqs)
    by (intros ?; Z.div_mod_to_equations; lia).
  destruct (String.eqb (gbl_preset ui) "relaxed");
    [|destruct (String.eqb (gbl_preset ui) "balanced");
      [|destruct (String.eqb (gbl_preset ui) "default");
        [|destruct (String.eqb (gbl_preset ui) "strict"); [|done]]]].
  - intros [= <-]. cbn [conserved flank good_block bad_block configure value lower upper].
    repeat split; lia.
  - intros [= <-]. cbn [conserved flank good_block bad_block configure value lower upper].
    repeat split; lia.
  - destruct (py.int_mul n_seqs py.f0_85) as [f| |]; cbn [mbind py.result_bind py.bind]; [|done..].
    intros [= <-]. cbn [conserved flank good_block bad_block configure value lower upper].
    repeat split; lia.
  - destruct (py.int_mul n_seqs py.f0_9) as [c| |]; cbn [mbind py.result_bind py.bind]; [|done..].
    intros [= <-]. cbn [conserved flank good_block bad_block configure value lower upper].
    repeat split; lia.
Qed.

Lemma re_preset_adjustments_ordered_witness :
  re_preset 10 2 (example.page "balanced" 1 1 None)
  = py.Return (example.page "balanced" 2 2 None)
  ∧ 2 ≤ value (conserved (example.page "balanced" 2 2 None))
      ≤ value (flank (example.page "balanced" 2 2 None))
  ∧ value (flank (example.page "balanced" 2 2 None)) ≤ 2.
Proof.
  split; [reflexivity|].
  destruct (re_preset_adjustments_ordered 10 2 (example.page "balanced" 1 1 None)
              (example.page "balanced" 2 2 None) ltac:(done) eq_refl)
    as (H1 & _ & _ & _ & _ & H6 & H7 & _).
  split; [split; [exact H6|exact H1]|]. apply H7. lia.
Defined.

(** X6. [edit] changes nothing but the flank adjustment, and that only for the
    conserved spin button: the lower bound of flank becomes the value of
    conserved, the upper bound stays, and a flank value that already lies
    between the value of conserved and the upper bound is kept. Handling
    the same signal a second time changes nothing more. *)
Theorem edit_touches_flank_only (wi : spin) (ui : iface) :
  edit wi (edit wi ui) = edit wi ui
  ∧ edit spin_flank ui = ui
  ∧ gbl_preset (edit wi ui) = gbl_preset ui ∧ gaps (edit wi ui) = gaps ui
  ∧ conserved (edit wi ui) = conserved ui
  ∧ good_block (edit wi ui) = good_block ui ∧ bad_block (edit wi ui) = bad_block ui
  ∧ params (edit wi ui) = params ui
  ∧ lower (flank (edit spin_conserved ui)) = value (conserved ui)
  ∧ upper (flank (edit spin_conserved ui)) = upper (flank ui)
  ∧ (value (conserved ui) ≤ value (flank ui) ≤ upper (flank ui) →
       value (flank (edit spin_conserved ui)) = value (flank ui)).
Proof.
  split; [|split; [done|]].
  - destruct wi; [|done]. unfold edit.
    cbn [conserved flank gbl_preset gaps good_block bad_block params value upper lower].
    f_equal. unfold configure. cbn [value lower upper]. f_equal. lia.
  - destruct wi; cbn [edit gbl_preset gaps conserved flank good_block bad_block params
                        configure value lower upper]; repeat split; try done; lia.
Qed.

(** X7. A run that [start_gbl] has set off with a trimming preset is not set off
    again while the values of the page stay as they are: the second call
    finds the stored parameters unchanged and returns without a thread.
    The stored parameters hold the value of conserved, the larger of flank
    and conserved, the bad-block and good-block values and the first letter
    of the gap policy; the adjustments themselves are left as they were. *)
Theorem start_gbl_not_twice (no_genes busy up_to_date : bool) (ui ui' : iface) :
  gbl_preset ui ≠ "skip" →
  start_gbl no_genes busy up_to_date ui = py.Return (Some ui') →
  start_gbl false false false ui' = py.Return None
  ∧ (∃ g rest, gaps ui = String g rest
       ∧ params ui' = Some (value (conserved ui),
                            Z.max (value (conserved ui)) (value (flank ui)),
                            value (bad_block ui), value (good_block ui), String g ""))
  ∧ conserved ui' = conserved ui ∧ flank ui' = flank ui
  ∧ good_block ui' = good_block ui ∧ bad_block ui' = bad_block ui
  ∧ gbl_preset ui' = gbl_preset ui ∧ gaps ui' = gaps ui.
Proof.
  intros Hskip. unfold start_gbl at 1.
  destruct no_genes, busy, up_to_date; try done.
  destruct (String.eqb_spec (gbl_preset ui) "skip") as [?|_]; [done|]. cbn [negb].
  destruct (gaps ui) as [|g rest] eqn:Hg; [done|].
  case_bool_decide as Hp; [done|]. intros [= <-].
  split; [|split; [|done]].
  - unfold start_gbl. cbn [gbl_preset gaps conserved flank good_block bad_block params].
    destruct (String.eqb_spec (gbl_preset ui) "skip") as [?|_]; [done|]. cbn [negb].
    by rewrite bool_decide_true.
  - exists g, rest. split; [done|]. cbn [params]. do 5 f_equal.
    destruct (Z.ltb_spec (value (flank ui)) (value (conserved ui))); lia.
Qed.

Lemma start_gbl_not_twice_witness :
  start_gbl false false false (example.page "balanced" 2 1 (Some (2, 2, 8, 5, "h")))
  = py.Return None.
Proof.
  exact (proj1 (start_gbl_not_twice false false false (example.page "balanced" 2 1 None)
                  (example.page "balanced" 2 1 (Some (2, 2, 8, 5, "h")))
                  ltac:(done) eq_refl)).
Defined.

(** ** The gene loop of the trimming page *)

Section loop_counts.
Context (Gblocks : env.gblocks_call → gmap string string → gmap string string * option string).
Context (SeqIO_parse : string → list (string * string)).
Context (seqtoint : string → list Z).
Context (wd : string) (shared : gset string).
Context (call : option (string → env.gblocks_call)).

Local Abbreviation step := (gene_step Gblocks SeqIO_parse seqtoint wd call shared).
Local Abbreviation loop := (gene_loop Gblocks SeqIO_parse seqtoint wd call shared).

Lemma parse_result_counts raw_msa msa gene st st' :
  parse_result raw_msa msa gene st = py.Return st' →
  i st' + Z.of_nat (length (errors st')) = i st + Z.of_nat (length (errors st)) + 1
  ∧ msa_lens st' = msa_lens st.
Proof.
  unfold parse_result. destruct (env.move _ _ _) as [w'| |]; [|done..].
  cbn [mbind py.result_bind py.bind].
  destruct (env.files w' !! _); [|done].
  destruct (flank_line _); cbn [set_line_blocks set_world line_blocks].
  - case_bool_decide.
    + intros [= <-]. cbn [add_error set_line_blocks set_world i errors msa_lens].
      rewrite length_app. cbn [length]. split; [lia|done].
    + destruct (block_slices _ _); cbn [mbind py.result_bind py.bind]; [|done..].
      intros [= <-]. cbn [tick add_slices set_line_blocks set_world i errors msa_lens].
      split; [lia|done].
  - destruct (line_blocks st); [|done].
    case_bool_decide.
    + intros [= <-]. cbn [add_error set_line_blocks set_world i errors msa_lens].
      rewrite length_app. cbn [length]. split; [lia|done].
    + destruct (block_slices _ _); cbn [mbind py.result_bind py.bind]; [|done..].
      intros [= <-]. cbn [tick add_slices set_line_blocks set_world i errors msa_lens].
      split; [lia|done].
Qed.

Lemma gene_step_counts gene st e :
  step gene st = py.Return e →
  shared ≠ ∅
  ∧ match e with
    | Completed st' =>
        i st' + Z.of_nat (length (errors st'))
        = i st + Z.of_nat (length (errors st)) + 1
        ∧ length (msa_lens st') = S (length (msa_lens st))
    | Aborted st' =>
        errors st'
        = (errors st
           ++ ["MSA for " +:+ gene +:+ " does not match the dataset, please re-build."])%list
        ∧ msa_lens st' = msa_lens st ∧ i st' = i st ∧ world st' = world st
    end
  ∨ ∃ st', e = Aborted st'
      ∧ errors st'
        = (errors st
           ++ ["MSA for " +:+ gene +:+ " does not match the dataset, please re-build."])%list
      ∧ msa_lens st' = msa_lens st ∧ i st' = i st ∧ world st' = world st.
Proof.
  unfold gene_step. destruct (env.files (world st) !! _) as [text|]; [|done].
  case_bool_decide.
  { intros [= <-]. right. eexists. split; [done|]. done. }
  destruct (shape1 _) as [width| |] eqn:Hshape; cbn [mbind py.result_bind py.bind]; [|done..].
  assert (Hne : shared ≠ ∅).
  { intros ->. rewrite elements_empty in Hshape. done. }
  intros Hrun. left. split; [done|]. revert Hrun.
  destruct call as [arg|].
  - destruct (Gblocks _ _) as [fs [e'|]].
    + intros [= <-]. cbn [add_error set_world add_len i errors msa_lens].
      rewrite !length_app. cbn. lia.
    + destruct (parse_result _ _ _ _) as [st'| |] eqn:Hparse;
        cbn [mbind py.result_bind py.bind]; [|done..].
      intros [= <-]. apply parse_result_counts in Hparse as [Hi Hl].
      cbn [set_world add_len i errors msa_lens] in Hi, Hl. rewrite Hl, length_app. cbn. lia.
  - destruct (env.copy _ _ _) as [w'| |];
      cbn [mbind py.result_bind py.bind]; [|done..].
    intros [= <-]. cbn [tick set_world add_len i errors msa_lens].
    rewrite length_app. cbn. lia.
Qed.

Lemma gene_loop_counts genes : ∀ st e,
  loop genes st = py.Return e →
  match e with
  | Completed st' =>
      i st' + Z.of_nat (length (errors st'))
      = i st + Z.of_nat (length (errors st)) + Z.of_nat (length genes)
      ∧ length (msa_lens st') = (length (msa_lens st) + length genes)%nat
      ∧ (genes ≠ [] → shared ≠ ∅)
  | Aborted st' =>
      ∃ gene, gene ∈ genes
        ∧ last (errors st')
          = Some ("MSA for " +:+ gene +:+ " does not match the dataset, please re-build.")
        ∧ (length (msa_lens st') < length (msa_lens st) + length genes)%nat
  end.
Proof.
  induction genes as [|gene genes IH]; intros st e; cbn [gene_loop].
  - intros [= <-]. cbn [length]. split; [lia|]. split; [lia|done].
  - destruct (step gene st) as [e1| |] eqn:Hstep;
      cbn [mbind py.result_bind py.bind]; [|done..].
    apply gene_step_counts in Hstep.
    destruct Hstep as [[Hne Hstep]|(st1 & -> & He & Hl & _)].
    + destruct e1 as [st1|st1].
      * intros [= <-]. destruct Hstep as (He & Hl & _).
        exists gene. split; [left|]. rewrite He, last_snoc, Hl. split; [done|]. cbn. lia.
      * destruct Hstep as [Hi Hl]. intros Hloop. apply IH in Hloop.
        destruct e as [st'|st'].
        -- destruct Hloop as (g & Hg & Hlast & Hlen). exists g.
           split; [by right|]. split; [done|]. cbn [length]. lia.
        -- destruct Hloop as (Hi' & Hl' & _). cbn [length].
           split; [lia|]. split; [lia|done].
    + intros [= <-]. exists gene. split; [left|]. rewrite He, last_snoc, Hl.
      split; [done|]. cbn. lia.
Qed.
End loop_counts.

(** X8. A run of [do_gbl] that gets through all genes leaves the progress
    counter at one plus the number of genes that gave no error, and has
    recorded one raw width per gene; with at least one gene it also means
    that the genes share a sample that is not ignored. A run that ends
    early does so on a gene of [data.genes] whose mismatch message is the
    last error, before a width was recorded for every gene. *)
Theorem do_gbl_progress
    (Gblocks : env.gblocks_call → gmap string string → gmap string string * option string)
    (SeqIO_parse : string → list (string * string)) (seqtoint : string → list Z)
    (wd : string) (d : data) (ui : iface) (w : env.world) (e : ending) :
  do_gbl Gblocks SeqIO_parse seqtoint wd d ui w = py.Return e →
  match e with
  | Completed st =>
      i st + Z.of_nat (length (errors st)) = 1 + Z.of_nat (length (genes d))
      ∧ length (msa_lens st) = length (genes d)
      ∧ (genes d ≠ [] → ∃ ids, shared_ids d = py.Return ids ∧ ids ≠ ∅)
  | Aborted st =>
      ∃ gene, gene ∈ genes d
        ∧ last (errors st)
          = Some ("MSA for " +:+ gene +:+ " does not match the dataset, please re-build.")
        ∧ (length (msa_lens st) < length (genes d))%nat
  end.
Proof.
  unfold do_gbl.
  destruct (if negb _ then _ else _) as [call| |]; cbn [mbind py.result_bind py.bind]; [|done..].
  destruct (shared_ids d) as [shared| |]; cbn [mbind py.result_bind py.bind]; [|done..].
  intros Hloop. apply gene_loop_counts in Hloop. destruct e as [st|st].
  - destruct Hloop as (g & Hg & Hlast & Hlen). exists g. cbn in Hlen. done.
  - destruct Hloop as (Hi & Hl & Hne). cbn [i errors msa_lens length] in Hi, Hl.
    split; [lia|]. split; [done|]. intros Hg. exists shared. split; [done|tauto].
Qed.

Lemma do_gbl_progress_witness :
  ∃ st,
    do_gbl (example.broken "Gblocks failed") example.fasta example.codes "wd"
      (example.dataset ["A"; "B"]) (example.page "balanced" 2 2 (Some (2, 2, 8, 5, "h")))
      example.raw = py.Return (Completed st)
    ∧ i st = 1 ∧ errors st = ["Gblocks failed"; "Gblocks failed"] ∧ msa_lens st = [4; 6].
Proof.
  eexists. split; [vm_compute; reflexivity|].
  pose proof (do_gbl_progress (example.broken "Gblocks failed") example.fasta example.codes
                "wd" (example.dataset ["A"; "B"])
                (example.page "balanced" 2 2 (Some (2, 2, 8, 5, "h"))) example.raw _
                ltac:(vm_compute; reflexivity)) as (Hi & Hl & _).
  split; [|split; reflexivity]. cbn [errors length genes example.dataset] in Hi. lia.
Defined.

Section stale_blocks.
Context (Gblocks : env.gblocks_call → gmap string string → gmap string string * option string).
Context (SeqIO_parse : string → list (string * string)).
Context (seqtoint : string → list Z).
Context (wd : string) (shared : gset string).

(** X9. When the report of a gene holds no flank-positions heading, [do_gbl]
    reads no blocks for it: for the first gene the name [line_blocks] is
    unbound and the run ends in a [NameError]; for a later gene the blocks
    read for an earlier gene are still bound and are added once more,
    shifted by the raw widths of the genes before this one. *)
Theorem report_without_heading (arg : string → env.gblocks_call)
    (gene : string) (st : state) (text trimmed report : string) (width : Z)
    (fs : gmap string string) :
  env.files (world st) !! raw_msa_path wd gene = Some text →
  dom (read_records SeqIO_parse text) = shared →
  shape1 (raw_rows seqtoint (read_records SeqIO_parse text) shared) = py.Return width →
  Gblocks (arg (raw_msa_path wd gene)) (env.files (world st)) = (fs, None) →
  fs !! (raw_msa_path wd gene +:+ ".txt") = Some trimmed →
  fs !! (raw_msa_path wd gene +:+ ".txt.txts") = Some report →
  flank_line (py.readlines report) = None →
  (line_blocks st = None →
     gene_step Gblocks SeqIO_parse seqtoint wd (Some arg) shared gene st
     = py.Raise py.NameError)
  ∧ (∀ blocks s,
       line_blocks st = Some blocks → blocks ≠ [""] →
       block_slices (sum (msa_lens st)) blocks = py.Return s →
       ∃ st', gene_step Gblocks SeqIO_parse seqtoint wd (Some arg) shared gene st
              = py.Return (Completed st')
         ∧ slices st' = slices st ∪ s
         ∧ line_blocks st' = Some blocks
         ∧ errors st' = errors st).
Proof.
  intros Htext Hdom Hwidth Hrun Htrim Hrep Hflank.
  assert (Hstep : gene_step Gblocks SeqIO_parse seqtoint wd (Some arg) shared gene st
    = (st' ← match line_blocks st with
             | None => py.Raise py.NameError
             | Some blocks =>
                 let st1 := set_world
                   {| env.files := <[msa_path wd gene := trimmed]>
                                     (delete (raw_msa_path wd gene +:+ ".txt") fs);
                      env.calls := (env.calls (world st) ++ [arg (raw_msa_path wd gene)])%list |}
                   (add_len width st) in
                 if bool_decide (blocks = [""]) then
                   py.Return (add_error (gene +:+ ": no good blocks") st1)
                 else
                   s ← block_slices (sum (but_last (msa_lens st1))) blocks;
                   py.Return (tick (add_slices s st1))
             end; py.Return (Completed st'))).
  { unfold gene_step. rewrite Htext. rewrite bool_decide_false by naive_solver.
    fold (raw_rows seqtoint (read_records SeqIO_parse text) shared). rewrite Hwidth.
    cbn [mbind py.result_bind py.bind add_len world]. rewrite Hrun.
    unfold parse_result, env.move. cbn [set_world world env.files env.calls].
    rewrite Htrim. cbn [mbind py.result_bind py.bind env.files].
    rewrite lookup_insert_ne by apply report_path_not_msa_path.
    rewrite lookup_delete_ne by apply trimmed_path_not_report_path.
    rewrite Hrep, Hflank. cbn [line_blocks set_world add_len].
    destruct (line_blocks st); reflexivity. }
  rewrite Hstep. split.
  - by intros ->.
  - intros blocks s Hlb Hne Hs. rewrite Hlb. cbn zeta. rewrite bool_decide_false by done.
    cbn [set_world add_len msa_lens]. rewrite but_last_snoc, Hs.
    cbn [mbind py.result_bind py.bind]. eexists. split; [done|].
    cbn [tick add_slices slices line_blocks errors]. done.
Qed.
End stale_blocks.

Lemma report_without_heading_witness :
  gene_step (example.trimmer "trimmed" "" "") example.fasta example.codes "wd"
    (Some example.base) {[ "x"; "y" ]} "A" (example.start example.raw)
  = py.Raise py.NameError
  ∧ ∃ st', gene_step (example.trimmer "trimmed" "" "") example.fasta example.codes "wd"
             (Some example.base) {[ "x"; "y" ]} "A"
             (set_line_blocks ["1  2"] (add_len 3 (example.start example.raw)))
           = py.Return (Completed st')
      ∧ slices st' = ∅ ∪ {[ py.range 3 5 ]}.
Proof.
  split.
  - refine (proj1 (report_without_heading (example.trimmer "trimmed" "" "") example.fasta
             example.codes "wd" {[ "x"; "y" ]} example.base "A" (example.start example.raw)
             _ "trimmed" "" 4 _ eq_refl _ _ eq_refl eq_refl eq_refl eq_refl) eq_refl);
      by vm_compute.
  - destruct (report_without_heading (example.trimmer "trimmed" "" "") example.fasta
             example.codes "wd" {[ "x"; "y" ]} example.base "A"
             (set_line_blocks ["1  2"] (add_len 3 (example.start example.raw)))
             _ "trimmed" "" 4 _ eq_refl ltac:(by vm_compute) ltac:(by vm_compute)
             eq_refl eq_refl eq_refl eq_refl) as [_ H].
    destruct (H ["1  2"] {[ py.range 3 5 ]} eq_refl ltac:(done)
                ltac:(vm_compute; reflexivity))
      as (st' & Hrun & Hs & _).
    exists st'. split; [exact Hrun|exact Hs].
Defined.

(** ** Reading the flank line *)

Lemma substring_none n s : substring n 0 s = "".
Proof. revert n. induction s as [|c s IH]; intros [|n]; cbn [substring]; auto. Qed.

Lemma substring_length n m s :
  (n + m ≤ String.length s)%nat → String.length (substring n m s) = m.
Proof.
  revert n m. induction s as [|c s IH]; intros n m; cbn [String.length].
  - intros ?. assert (n = 0 ∧ m = 0)%nat as [-> ->] by lia. done.
  - intros Hle. destruct n as [|n]; cbn [substring].
    + destruct m as [|m]; [done|]. cbn [String.length]. rewrite IH by lia. done.
    + apply IH. lia.
Qed.

Lemma slice_9_empty (s : string) :
  py.slice s 9 (-1) = "" ↔ (String.length s ≤ 10)%nat.
Proof.
  unfold py.slice, py.slice_bound.
  replace (9 <? 0) with false by done. replace (-1 <? 0) with true by done.
  split.
  - intros Hs. destruct (decide (String.length s ≤ 10)%nat) as [|Hlen]; [done|].
    apply (f_equal String.length) in Hs. rewrite substring_length in Hs by lia.
    cbn [String.length] in Hs. lia.
  - intros Hlen.
    replace (Z.to_nat (Z.max (-1 + Z.of_nat (String.length s)) 0
                       - Z.min 9 (Z.of_nat (String.length s)))) with 0%nat by lia.
    apply substring_none.
Qed.

Lemma split_go_head sep : ∀ s k cur,
  ∃ rest tl, py.split_go sep k cur s = (cur +:+ rest) :: tl.
Proof.
  induction s as [|c s IH]; intros k cur; cbn [py.split_go].
  - exists "", []. by rewrite str_app_nil_r.
  - destruct k as [|k]; [|apply IH].
    destruct (String.prefix sep (String c s)).
    + exists "". eexists. by rewrite str_app_nil_r.
    + destruct (IH 0%nat (cur ++ String c "")) as (rest & tl & ->).
      exists (String c rest), tl. f_equal.
      change (cur ++ String c "") with (cur +:+ String c "").
      by rewrite str_app_assoc.
Qed.

Lemma split_empty_piece (s sep : string) : py.split s sep = [""] ↔ s = "".
Proof.
  split; [|by intros ->]. unfold py.split. destruct s as [|c s]; [done|].
  cbn [py.split_go]. destruct (String.prefix sep (String c s)).
  - destruct (split_go_head sep s (String.length sep - 1) "") as (rest & tl & ->). done.
  - destruct (split_go_head sep s 0%nat ("" ++ String c "")) as (rest & tl & ->).
    intros [= H _].
Qed.

(** X10. The blocks read from the line under the heading are the single empty
    text, which [do_gbl] reports as no good blocks, exactly when that line,
    stripped, holds at most ten symbols: so for the empty line at the end of
    a report, and for a line that lists no block. *)
Theorem no_good_blocks_short_line (lane : string) :
  blocks_of_lane lane = [""] ↔ (String.length (py.strip lane) ≤ 10)%nat.
Proof. unfold blocks_of_lane. by rewrite split_empty_piece, slice_9_empty. Qed.

(** ** The columns of the mask and the scale of the image *)

Lemma scale_loop_spec (m : Z) :
  ∃ scale, (∀ fuel width height, (7 ≤ fuel)%nat → Z.max width height = m →
              scale_loop fuel width height 6 = Some scale)
    ∧ 0 ≤ scale ≤ 6
    ∧ m * scale ≤ 2 ^ 14
    ∧ (scale < 6 → 2 ^ 14 < m * (scale + 1))
    ∧ (scale = 0 ↔ 2 ^ 14 < m).
Proof.
  change (2 ^ 14) with 16384.
  destruct (Z.ltb_spec 16384 (m * 6)) as [H6|H6];
    [destruct (Z.ltb_spec 16384 (m * 5)) as [H5|H5];
      [destruct (Z.ltb_spec 16384 (m * 4)) as [H4|H4];
        [destruct (Z.ltb_spec 16384 (m * 3)) as [H3|H3];
          [destruct (Z.ltb_spec 16384 (m * 2)) as [H2|H2];
            [destruct (Z.ltb_spec 16384 (m * 1)) as [H1|H1]|]|]|]|]|].
  1: exists 0. 2: exists 1. 3: exists 2. 4: exists 3. 5: exists 4. 6: exists 5. 7: exists 6.
  all: (split; [intros fuel width height Hfuel <-;
                do 7 (destruct fuel as [|fuel]; [lia|]);
                cbn [scale_loop]; change (2 ^ 14) with 16384;
                repeat match goal with
                | |- context [16384 <? ?x] =>
                    first [ rewrite (proj2 (Z.ltb_lt 16384 x)) by lia
                          | rewrite (proj2 (Z.ltb_ge 16384 x)) by lia ]
                end; reflexivity|]).
  all: lia.
Qed.

(** X11. The loop that picks the scale of the image ends after at most seven
    tests, for every shape: the scale it leaves is the largest of 0..6 whose
    product with the larger side of the alignment stays within 2^14, and it
    is 0 exactly when that side exceeds 2^14. *)
Theorem scale_loop_result (width height : Z) :
  ∃ scale,
    (∀ fuel, (7 ≤ fuel)%nat → scale_loop fuel width height 6 = Some scale)
    ∧ 0 ≤ scale ≤ 6
    ∧ Z.max width height * scale ≤ 2 ^ 14
    ∧ (scale < 6 → 2 ^ 14 < Z.max width height * (scale + 1))
    ∧ (scale = 0 ↔ 2 ^ 14 < Z.max width height).
Proof.
  destruct (scale_loop_spec (Z.max width height)) as (scale & Hrun & Hrest).
  exists scale. split; [|done]. intros fuel Hfuel. by apply Hrun.
Qed.

Lemma StronglySorted_le_lt (l : list Z) :
  StronglySorted Z.le l → NoDup l → StronglySorted Z.lt l.
Proof.
  induction 1 as [|x l Hl IH Hx]; intros Hnd; [constructor|].
  apply NoDup_cons in Hnd as [Hin Hnd]. constructor; [by apply IH|].
  rewrite Forall_forall in Hx |- *. intros y Hy. specialize (Hx y Hy).
  assert (x ≠ y) by (by intros ->). lia.
Qed.

Lemma elem_of_range (x a b : Z) : x ∈ py.range a b ↔ a ≤ x < b.
Proof. unfold py.range. rewrite elem_of_seqZ. lia. Qed.

(** X12. The columns that [do_gbl] leaves opaque in the mask are the columns of
    the recorded ranges, each once, in ascending order; none when no range
    was recorded. For ranges read from a flank line they are the columns
    s-1+shift up to e-1+shift of the listed pairs [s  e]. *)
Theorem mask_blocks_columns (slices : gset (list Z)) :
  (∀ x, x ∈ mask_blocks slices ↔ ∃ r, r ∈ slices ∧ x ∈ r)
  ∧ StronglySorted Z.lt (mask_blocks slices)
  ∧ mask_blocks ∅ = []
  ∧ (∀ (blocks : list (nat * nat)) (shift : Z),
       blocks ≠ [] →
       block_slices shift (blocks_of_lane (flanks blocks)) = py.Return slices →
       ∀ x, x ∈ mask_blocks slices
            ↔ ∃ b, b ∈ blocks ∧ Z.of_nat b.1 - 1 + shift ≤ x < Z.of_nat b.2 + shift).
Proof.
  assert (Hin : ∀ s x, x ∈ mask_blocks s ↔ ∃ r, r ∈ s ∧ x ∈ r).
  { intros s x. unfold mask_blocks. rewrite merge_sort_Permutation, elem_of_elements.
    rewrite elem_of_union_list. split.
    - intros (X & HX & Hx). apply list_elem_of_fmap in HX as (r & -> & Hr).
      exists r. split; [by apply elem_of_elements|by rewrite elem_of_list_to_set in Hx].
    - intros (r & Hr & Hx). exists (list_to_set r). split; [|by rewrite elem_of_list_to_set].
      apply list_elem_of_fmap. exists r. split; [done|by apply elem_of_elements]. }
  split; [apply Hin|]. split; [|split].
  - apply StronglySorted_le_lt.
    + apply (StronglySorted_merge_sort Z.le).
    + unfold mask_blocks. rewrite merge_sort_Permutation. apply NoDup_elements.
  - done.
  - intros blocks shift Hne Hs x. rewrite block_slices_flanks in Hs by done.
    injection Hs as <-. rewrite Hin. split.
    + intros (r & Hr & Hx). apply elem_of_list_to_set, list_elem_of_fmap in Hr as (b & -> & Hb).
      exists b. split; [done|]. by apply elem_of_range.
    + intros (b & Hb & Hx). eexists. split.
      * apply elem_of_list_to_set, list_elem_of_fmap. by exists b.
      * by apply elem_of_range.
Qed.

(** ** Dropping samples from the trimmed alignment *)




Section dropping_facts.
Context {SeqRecord : Type}.
Context (record_id : SeqRecord → string) (SeqIO_parse : string → list SeqRecord).
Context (SeqIO_write : SeqRecord → string) (set_order : gset string → list string).
Context (PATHS_msa : string).

Local Abbreviation drop := (drop_seqs record_id SeqIO_parse SeqIO_write set_order PATHS_msa).


Lemma meta_entry_mark_dropped (md : metadata) (i gene id : string) :
  meta_entry (mark_dropped i <$> md) gene id
  = (λ entry, if bool_decide (id = i)
              then <["quality" := "manually dropped at trim_MSA"]> entry else entry)
    <$> meta_entry md gene id.
Proof.
  unfold meta_entry, metadata in *. rewrite lookup_fmap.
  destruct (md !! gene) as [genemeta|]; [|done].
  cbn [fmap option_fmap option_map mbind option_bind].
  unfold mark_dropped. case_bool_decide as Hdom.
  - case_bool_decide as Hid.
    + subst. by rewrite lookup_alter_eq.
    + by rewrite lookup_alter_ne, option_fmap_id.
  - case_bool_decide as Hid; [|by rewrite option_fmap_id].
    subst. apply not_elem_of_dom in Hdom. by rewrite Hdom.
Qed.

Lemma meta_entry_mark_all (ids : list string) : ∀ (md : metadata) (gene id : string),
  meta_entry (foldl (λ md _id, mark_dropped _id <$> md) md ids) gene id
  = (λ entry, if bool_decide (id ∈ ids)
              then <["quality" := "manually dropped at trim_MSA"]> entry else entry)
    <$> meta_entry md gene id.
Proof.
  induction ids as [|i ids IH]; intros md gene id; cbn [foldl].
  - rewrite <- (option_fmap_id (meta_entry md gene id)) at 1.
    apply option_fmap_ext. intros entry. by rewrite bool_decide_false by set_solver.
  - rewrite IH, meta_entry_mark_dropped, <- option_fmap_compose.
    apply option_fmap_ext. intros entry. cbn.
    destruct (decide (id = i)) as [->|Hne].
    + rewrite (bool_decide_true (i = i)) by done.
      rewrite (bool_decide_true (i ∈ i :: ids)) by set_solver.
      case_bool_decide; [by rewrite insert_insert_eq|done].
    + rewrite (bool_decide_false (id = i)) by done.
      case_bool_decide; [rewrite bool_decide_true by set_solver|
                         rewrite bool_decide_false by set_solver]; done.
Qed.

(** X14. After [drop_seqs] the metadata hold the same genes and samples as
    before. An entry of an ignored sample has its quality set to
    'manually dropped at trim_MSA', under every gene that holds the sample,
    and keeps its other fields; the entries of all other samples are as
    they were. *)
Theorem drop_seqs_marks_metadata (wd : string) (ignore_ids : gset string)
    (md md' : metadata) (w w' : env.world) :
  (∀ X id, id ∈ set_order X ↔ id ∈ X) →
  drop wd ignore_ids md w = py.Return (w', md') →
  ∀ gene id,
    meta_entry md' gene id
    = (λ entry, if bool_decide (id ∈ ignore_ids)
                then <["quality" := "manually dropped at trim_MSA"]> entry else entry)
      <$> meta_entry md gene id.
Proof.
  intros Horder. unfold drop_seqs. case_bool_decide as Hempty.
  - intros [= <- <-] gene id. subst.
    rewrite <- (option_fmap_id (meta_entry md gene id)) at 1.
    apply option_fmap_ext. intros entry. by rewrite bool_decide_false by set_solver.
  - destruct (env.files w !! _); [|done].
    destruct (env.move _ _ _); cbn [mbind py.result_bind py.bind]; [|done..].
    intros [= <- <-] gene id. rewrite meta_entry_mark_all.
    apply option_fmap_ext. intros entry.
    case_bool_decide as H1; case_bool_decide as H2; try done.
    + by apply Horder in H1.
    + by apply Horder in H2.
Qed.
End dropping_facts.

Lemma drop_seqs_marks_metadata_witness :
  ∃ w' md',
    drop_seqs fst example.fasta example.fasta_record elements "msa.fasta"
      "wd" ({[ "y" ]} : gset string) example.sample_metadata example.concat_world
    = py.Return (w', md')
    ∧ meta_entry md' "A" "y" = Some {[ "quality" := "manually dropped at trim_MSA" ]}
    ∧ meta_entry md' "B" "y" = Some {[ "quality" := "manually dropped at trim_MSA" ]}
    ∧ meta_entry md' "A" "x" = Some {[ "quality" := "ok"; "file" := "x.ab1" ]}
    ∧ meta_entry md' "B" "x" = None.
Proof.
  assert (∃ w' md',
    drop_seqs fst example.fasta example.fasta_record elements "msa.fasta"
      "wd" ({[ "y" ]} : gset string) example.sample_metadata example.concat_world
    = py.Return (w', md')) as (w' & md' & Hrun)
    by (eexists _, _; vm_compute; reflexivity).
  exists w', md'. split; [exact Hrun|].
  pose proof (drop_seqs_marks_metadata fst example.fasta example.fasta_record elements
                "msa.fasta" "wd" _ _ _ _ _ (λ X id, elem_of_elements X id) Hrun) as H.
  rewrite !H. repeat split; vm_compute; reflexivity.
Defined.

(** ** Trimming from the command line *)

(** X15. [trim_msa] takes every mode that is not skip, relaxed, balanced or
    default for strict: so the mode semi_strict that its docstring lists. *)
Theorem trim_msa_other_mode_is_strict
    (Gblocks : env.gblocks_call → gmap string string → gmap string string * option string)
    (s : msa_build.self) (gene : string) (seq_count : Z) (mode : string) (w : env.world) :
  mode ≠ "skip" → mode ≠ "relaxed" → mode ≠ "balanced" → mode ≠ "default" →
  msa_build.trim_msa Gblocks s gene seq_count mode w
  = msa_build.trim_msa Gblocks s gene seq_count "strict" w.
Proof.
  intros H1 H2 H3 H4. unfold msa_build.trim_msa, msa_build.gblocks_options.
  rewrite (proj2 (String.eqb_neq mode "skip")) by done.
  rewrite (proj2 (String.eqb_neq mode "relaxed")) by done.
  rewrite (proj2 (String.eqb_neq mode "balanced")) by done.
  rewrite (proj2 (String.eqb_neq mode "default")) by done.
  reflexivity.
Qed.

Lemma trim_msa_other_mode_is_strict_witness :
  msa_build.trim_msa (example.trimmer "" "" "") example.one_gene "A" 10 "semi_strict"
    example.raw
  = msa_build.trim_msa (example.trimmer "" "" "") example.one_gene "A" 10 "strict"
      example.raw.
Proof.
  apply (trim_msa_other_mode_is_strict (example.trimmer "" "" "") example.one_gene "A" 10
           "semi_strict" example.raw); done.
Defined.




(** ** Concatenation: rows and report for any number of genes *)

Lemma joined_texts look sep id others : ∀ j,
  joined look sep id others = Some j →
  ∃ recs, Forall2 (λ g v, look g id = Some v) others recs
    ∧ ∀ r1, r1 +:+ j = str_join sep (r1 :: recs).
Proof.
  induction others as [|g gs IH]; intros j; cbn [joined].
  - intros [= <-]. exists []. split; [constructor|]. intros r1. by rewrite str_app_nil_r.
  - destruct (look g id) as [r|] eqn:Hr; [|done]. cbn [mbind option_bind].
    destruct (joined look sep id gs) as [j'|]; [|done]. cbn [mbind option_bind].
    intros [= <-]. destruct (IH j' eq_refl) as (recs & Hrecs & Hjoin).
    exists (r :: recs). split; [by constructor|]. intros r1.
    change (str_join sep (r1 :: r :: recs)) with (r1 +:+ sep +:+ str_join sep (r :: recs)).
    by rewrite <- Hjoin.
Qed.

Lemma append_genes_dom sep sid others : ∀ record skip recs missing,
  dom (msa_build.append_genes sep sid others record skip recs missing).2 = dom missing.
Proof.
  induction others as [|g gs IH]; intros record skip recs missing; [done|].
  cbn [msa_build.append_genes]. destruct (recs !! g ≫= _); rewrite IH; [done|].
  apply dom_alter_L.
Qed.

Lemma concat_samples_dom s first ids : ∀ st st',
  msa_build.concat_samples s first ids st = py.Return st' →
  dom (msa_build.missing_genes st') = dom (msa_build.missing_genes st).
Proof.
  induction ids as [|id ids IH]; intros st st'; cbn [msa_build.concat_samples].
  - by intros [= <-].
  - destruct (msa_build.concat_sample s first id st) as [st1| |] eqn:Hstep;
      cbn [mbind py.result_bind py.bind]; [|done..].
    intros Hrest. rewrite (IH _ _ Hrest). clear Hrest IH.
    unfold msa_build.concat_sample in Hstep.
    destruct (msa_build.all_records st !! first ≫= _) as [record|]; [|done].
    pose proof (append_genes_dom (msa_build.sep s) id (tail (msa_build.genes s)) record false
                  (alter (delete id) first (msa_build.all_records st))
                  (msa_build.missing_genes st)) as Hdom.
    destruct (msa_build.append_genes _ _ _ _ _ _ _) as [[[r skip] recs] missing].
    cbn [snd] in Hdom. destruct skip; injection Hstep as <-; done.
Qed.

Lemma extend_first_dom first others recs : ∀ missing,
  dom (msa_build.extend_first first others recs missing) = dom missing.
Proof.
  induction others as [|g gs IH]; intros missing; [done|].
  cbn [msa_build.extend_first]. rewrite IH. apply dom_alter_L.
Qed.

Lemma concat_msa_missing_dom
    (SeqIO_parse : string → list (string * string))
    (set_order : gset string → list string) (pick : string → nat)
    (s : msa_build.self) (w : env.world)
    (rows : list (string * string)) (missing : gmap string (list string)) :
  msa_build.concat_msa SeqIO_parse set_order pick s w = py.Return (rows, missing) →
  dom missing = list_to_set (msa_build.genes s).
Proof.
  unfold msa_build.concat_msa.
  destruct (msa_build.read_all _ _ _ _ _) as [recs| |];
    cbn [mbind py.result_bind py.bind]; [|done..].
  destruct (msa_build.sum_lengths _ _ _) as [msa_len| |];
    cbn [mbind py.result_bind py.bind]; [|done..].
  destruct (msa_build.genes s) as [|first others] eqn:Hgenes; [done|].
  destruct (msa_build.concat_samples _ _ _ _) as [st| |] eqn:Hloop;
    cbn [mbind py.result_bind py.bind]; [|done..].
  apply concat_samples_dom in Hloop. cbn [msa_build.missing_genes] in Hloop.
  assert (Hdom : dom (msa_build.extend_first first (tail (first :: others))
                        (msa_build.all_records st) (msa_build.missing_genes st))
                 = list_to_set (first :: others)).
  { rewrite extend_first_dom, Hloop, dom_list_to_map_L, <- list_fmap_compose.
    f_equal. by rewrite list_fmap_id. }
  repeat case_match; intros [= <- <-]; done.
Qed.

Lemma elem_of_concat {A} (x : A) (ls : list (list A)) :
  x ∈ concat ls ↔ ∃ l, l ∈ ls ∧ x ∈ l.
Proof.
  rewrite list_elem_of_In, in_concat. split; intros (l & H1 & H2); exists l.
  - by rewrite !list_elem_of_In.
  - by rewrite <- !list_elem_of_In.
Qed.

Section concat_rows.
Context (SeqIO_parse : string → list (string * string)).
Context (set_order : gset string → list string) (pick : string → nat).
Context (s : msa_build.self) (w : env.world) (first : string) (others : list string).
Context (rows : list (string * string)) (missing : gmap string (list string)).
Hypothesis Hgenes : msa_build.genes s = first :: others.
Hypothesis Hnd : NoDup (first :: others).
Hypothesis Hfiles :
  ∀ g, g ∈ first :: others → is_Some (env.files w !! msa_build.msa_path s g).
Hypothesis Horder : ∀ X, set_order X ≡ₚ elements X.
Hypothesis Hrun :
  msa_build.concat_msa SeqIO_parse set_order pick s w = py.Return (rows, missing).

Local Abbreviation aln := (alignment SeqIO_parse s w).

Lemma concat_msa_output :
  rows = omap (row (look SeqIO_parse s w) (msa_build.sep s) first others)
           (set_order (dom (aln first)))
  ∧ missing !! first
    = Some (concat ((λ g, elements (dom (aln g) ∖ dom (aln first))) <$> others))
  ∧ (∀ g, g ∈ others →
       missing !! g
       = Some (filter (λ id, id ∉ dom (aln g)) (set_order (dom (aln first))))).
Proof.
  destruct (concat_msa_unfold SeqIO_parse set_order pick s w first others Hgenes Hnd Hfiles Horder)
    as (recs & missing' & _ & Hm1 & Hm2 & Hrun').
  rewrite Hrun in Hrun'.
  destruct (msa_build.sum_lengths pick (map_to_list recs) 0); [|done..].
  cbn [mbind py.result_bind py.bind] in Hrun'.
  repeat case_match; by simplify_eq.
Qed.

Lemma concat_msa_rows_ids :
  rows.*1 = filter (λ id, Forall (λ g, id ∈ dom (aln g)) (first :: others))
              (set_order (dom (aln first)))
  ∧ NoDup rows.*1.
Proof.
  destruct concat_msa_output as (Hrows & _ & _).
  assert (Hids : rows.*1 = filter (λ id, Forall (λ g, id ∈ dom (aln g)) (first :: others))
                             (set_order (dom (aln first)))).
  { rewrite Hrows, rows_ids. apply filter_ext_in. intros id _.
    apply Forall_iff. intros g. unfold look. by rewrite elem_of_dom. }
  split; [done|]. rewrite Hids. apply NoDup_filter. rewrite Horder. apply NoDup_elements.
Qed.

(** X17. The rows [concat_msa] writes are those of the samples that every gene
    holds, one row each, in the order in which the samples of the first gene
    are iterated; the text of a row is the sample's records of the genes,
    upper-cased, in gene order, with the separator between them. *)
Theorem concat_msa_rows_of_shared_samples :
  NoDup rows.*1
  ∧ rows.*1 = filter (λ id, Forall (λ g, id ∈ dom (aln g)) (first :: others))
                (set_order (dom (aln first)))
  ∧ (∀ id, id ∈ rows.*1 ↔ ∀ g, g ∈ first :: others → id ∈ dom (aln g))
  ∧ (∀ id r, (id, r) ∈ rows →
       ∃ recs, Forall2 (λ g v, aln g !! id = Some v) (first :: others) recs
         ∧ r = str_join (msa_build.sep s) recs).
Proof.
  destruct concat_msa_output as (Hrows & _ & _).
  destruct concat_msa_rows_ids as [Hids Hnodup].
  split; [done|split; [done|split]].
  - intros id. rewrite Hids, list_elem_of_filter, Forall_forall, Horder, elem_of_elements.
    split; [by intros [? _]|]. intros H. split; [done|]. apply H. left.
  - intros id r Hin. rewrite Hrows in Hin. apply list_elem_of_omap in Hin as (id' & _ & Hrow).
    pose proof (row_id _ _ _ _ _ _ Hrow) as Hid. cbn in Hid. subst id'.
    unfold row in Hrow. destruct (look SeqIO_parse s w first id) as [r1|] eqn:Hr1; [|done].
    cbn [mbind option_bind] in Hrow.
    destruct (joined _ _ id others) as [j|] eqn:Hj; [|done]. cbn [mbind option_bind] in Hrow.
    simplify_eq. destruct (joined_texts _ _ _ _ _ Hj) as (recs & Hrecs & Hjoin).
    exists (r1 :: recs). split; [by constructor|apply Hjoin].
Qed.

(** X18. The report of missing samples, for any number of genes: it has an entry
    for each gene of the run and for nothing else; under a gene other than
    the first it lists, once each, the samples of the first gene
    that the gene lacks, and so never a sample that the first gene lacks
    too; under the first gene it lists the samples of the other genes that
    the first gene lacks. *)
Theorem concat_msa_missing_report :
  dom missing = list_to_set (first :: others)
  ∧ (∀ g, g ∈ others →
     ∃ l, missing !! g = Some l ∧ NoDup l
       ∧ ∀ id, id ∈ l
           ↔ id ∈ dom (alignment SeqIO_parse s w first)
             ∧ id ∉ dom (alignment SeqIO_parse s w g))
  ∧ (∃ l, missing !! first = Some l
       ∧ ∀ id, id ∈ l
           ↔ (id ∉ dom (alignment SeqIO_parse s w first))
             ∧ (∃ g, g ∈ others ∧ id ∈ dom (alignment SeqIO_parse s w g))).
Proof.
  destruct concat_msa_output as (_ & Hm1 & Hm2). split; [|split].
  - rewrite <- Hgenes. by eapply concat_msa_missing_dom.
  - intros g Hg. eexists. split; [by apply Hm2|]. split.
    + apply NoDup_filter. rewrite Horder. apply NoDup_elements.
    + intros id. rewrite list_elem_of_filter, Horder, elem_of_elements. tauto.
  - eexists. split; [exact Hm1|]. intros id. rewrite elem_of_concat. split.
    + intros (l & Hl & Hid). apply list_elem_of_fmap in Hl as (g & -> & Hg).
      apply elem_of_elements, elem_of_difference in Hid as [? ?]. eauto.
    + intros (Hid & g & Hg & Hin). eexists. split.
      * apply list_elem_of_fmap. by exists g.
      * apply elem_of_elements, elem_of_difference. done.
Qed.
End concat_rows.

Lemma concat_msa_rows_of_shared_samples_witness :
  ∃ recs,
    Forall2 (λ g v, alignment example.fasta example.two_genes example.trimmed g !! "y" = Some v)
      ["A"; "B"] recs
    ∧ "AAGTSSSSSSSSSSGGG" = str_join "SSSSSSSSSS" recs.
Proof.
  refine (proj2 (proj2 (proj2 (concat_msa_rows_of_shared_samples example.fasta elements
            (λ _, 0%nat) example.two_genes example.trimmed "A" ["B"]
            example.concatenated.1 example.concatenated.2 eq_refl two_genes_distinct
            two_genes_files (λ X, reflexivity _) _))) "y" "AAGTSSSSSSSSSSGGG" _).
  - vm_compute. reflexivity.
  - apply list_elem_of_In. vm_compute. tauto.
Defined.

Lemma concat_msa_missing_report_witness :
  ∃ l, example.concatenated.2 !! "A" = Some l
    ∧ ∀ id, id ∈ l
        ↔ (id ∉ dom (alignment example.fasta example.two_genes example.trimmed "A"))
          ∧ (∃ g, g ∈ ["B"]
               ∧ id ∈ dom (alignment example.fasta example.two_genes example.trimmed g)).
Proof.
  refine (proj2 (proj2 (concat_msa_missing_report example.fasta elements
            (λ _, 0%nat) example.two_genes example.trimmed "A" ["B"]
            example.concatenated.1 example.concatenated.2 eq_refl two_genes_distinct
            two_genes_files (λ X, reflexivity _) _))).
  vm_compute. reflexivity.
Defined.

(** ** Concatenation: failures and letter case *)

Lemma read_all_missing_file SeqIO_parse s fs gs : ∀ acc,
  (∃ g, g ∈ gs ∧ fs !! msa_build.msa_path s g = None) →
  msa_build.read_all SeqIO_parse s fs gs acc = py.Raise py.FileNotFoundError.
Proof.
  induction gs as [|g gs IH]; intros acc (g' & Hg' & Hnone); [by apply not_elem_of_nil in Hg'|].
  cbn [msa_build.read_all]. destruct (fs !! msa_build.msa_path s g) as [text|] eqn:Hg; [|done].
  apply IH. exists g'. split; [|done]. apply elem_of_cons in Hg' as [->|?]; [congruence|done].
Qed.

Lemma choice_len_empty pick gene :
  msa_build.choice_len pick gene ∅ = py.Raise py.IndexError.
Proof. unfold msa_build.choice_len. by rewrite map_to_list_empty. Qed.

Lemma sum_lengths_empty_alignment pick l : ∀ acc,
  (∃ g, (g, ∅) ∈ l) → msa_build.sum_lengths pick l acc = py.Raise py.IndexError.
Proof.
  induction l as [|[g m] l IH]; intros acc (g' & Hg'); [by apply not_elem_of_nil in Hg'|].
  cbn [msa_build.sum_lengths]. destruct (decide (m = ∅)) as [->|Hm].
  - by rewrite choice_len_empty.
  - destruct (choice_len_nonempty pick g m Hm) as (id & v & _ & ->).
    cbn [mbind py.result_bind py.bind]. apply IH. exists g'.
    apply elem_of_cons in Hg' as [Heq|?]; [by simplify_eq|done].
Qed.

(** X19. What makes [concat_msa] fail before it writes a row: with no gene at all
    an [IndexError]; with the trimmed alignment of some gene missing a
    [FileNotFoundError]; and with all files there but one of them holding no
    record an [IndexError], raised while the length of the alignment is
    summed up, also when other genes hold records. *)
Theorem concat_msa_failures
    (SeqIO_parse : string → list (string * string))
    (set_order : gset string → list string) (pick : string → nat)
    (s : msa_build.self) (w : env.world) :
  (msa_build.genes s = [] →
     msa_build.concat_msa SeqIO_parse set_order pick s w = py.Raise py.IndexError)
  ∧ ((∃ g, g ∈ msa_build.genes s ∧ env.files w !! msa_build.msa_path s g = None) →
       msa_build.concat_msa SeqIO_parse set_order pick s w
       = py.Raise py.FileNotFoundError)
  ∧ ((∀ g, g ∈ msa_build.genes s → is_Some (env.files w !! msa_build.msa_path s g)) →
     (∃ g, g ∈ msa_build.genes s ∧ alignment SeqIO_parse s w g = ∅) →
       msa_build.concat_msa SeqIO_parse set_order pick s w = py.Raise py.IndexError).
Proof.
  split; [|split].
  - intros Hg. unfold msa_build.concat_msa. rewrite Hg. cbn [msa_build.read_all].
    cbn [mbind py.result_bind py.bind]. rewrite map_to_list_empty. done.
  - intros Hmiss. unfold msa_build.concat_msa. by rewrite read_all_missing_file.
  - intros Hfiles (g & Hg & Hempty). unfold msa_build.concat_msa.
    destruct (read_all_spec SeqIO_parse s w (msa_build.genes s) ∅ Hfiles) as (recs & -> & Hrecs).
    cbn [mbind py.result_bind py.bind]. rewrite sum_lengths_empty_alignment; [done|].
    exists g. apply elem_of_map_to_list. rewrite Hrecs, decide_True by done. by rewrite Hempty.
Qed.

Lemma concat_msa_failures_witness :
  msa_build.concat_msa example.fasta elements (λ _, 0%nat) example.two_genes
    {| env.files := {[ "out/A/A_msa.fasta" := ">x" +:+ example.nl +:+ "ACGT" +:+ example.nl;
                       "out/B/B_msa.fasta" := "" ]};
       env.calls := [] |}
  = py.Raise py.IndexError.
Proof.
  apply (concat_msa_failures example.fasta elements (λ _, 0%nat) example.two_genes).
  - intros g Hg. apply elem_of_cons in Hg as [->|Hg]; [by eexists|].
    apply list_elem_of_singleton in Hg as ->. by eexists.
  - exists "B". split; [set_solver|]. by vm_compute.
Defined.

Lemma upper_ascii_idemp c : py.upper_ascii (py.upper_ascii c) = py.upper_ascii c.
Proof. destruct c as [[] [] [] [] [] [] [] []]; reflexivity. Qed.

Lemma upper_idemp v : py.upper (py.upper v) = py.upper v.
Proof.
  induction v as [|c v IH]; [done|]. cbn [py.upper]. by rewrite upper_ascii_idemp, IH.
Qed.

Lemma read_all_ext P P' s fs gs : ∀ acc,
  (∀ text, msa_build.read_records P text = msa_build.read_records P' text) →
  msa_build.read_all P s fs gs acc = msa_build.read_all P' s fs gs acc.
Proof.
  induction gs as [|g gs IH]; intros acc H; [done|]. cbn [msa_build.read_all].
  destruct (fs !! msa_build.msa_path s g); [|done]. rewrite H. by apply IH.
Qed.

Lemma read_records_upper P text :
  msa_build.read_records (λ t, (λ r, (r.1, py.upper r.2)) <$> P t) text
  = msa_build.read_records P text.
Proof.
  unfold msa_build.read_records. generalize (∅ : gmap string string).
  induction (P text) as [|r rs IH]; intros m; [done|].
  cbn [fmap list_fmap foldl]. cbn [fst snd]. rewrite upper_idemp. apply IH.
Qed.

Lemma read_records_values_upper P text id v :
  msa_build.read_records P text !! id = Some v → py.upper v = v.
Proof.
  unfold msa_build.read_records.
  assert (H : ∀ (l : list (string * string)) (m : gmap string string),
             (∀ i x, m !! i = Some x → py.upper x = x) →
             ∀ i x, foldl (λ m r, <[r.1 := py.upper r.2]> m) m l !! i = Some x →
                    py.upper x = x).
  { induction l as [|r l IH]; intros m Hm i x; cbn [foldl]; [apply Hm|].
    apply IH. intros j y. destruct (decide (j = r.1)) as [->|Hne].
    - rewrite lookup_insert_eq. intros [= <-]. apply upper_idemp.
    - rewrite lookup_insert_ne by done. apply Hm. }
  apply H. intros i x. by rewrite lookup_empty.
Qed.

(** X20. [concat_msa] reads sequences without regard to letter case: the records
    it works on are upper-cased, so an alignment written in lower case gives
    the rows and the report of the same alignment in upper case. *)
Theorem concat_msa_ignores_case
    (SeqIO_parse : string → list (string * string))
    (set_order : gset string → list string) (pick : string → nat)
    (s : msa_build.self) (w : env.world) :
  msa_build.concat_msa (λ t, (λ r, (r.1, py.upper r.2)) <$> SeqIO_parse t) set_order pick s w
  = msa_build.concat_msa SeqIO_parse set_order pick s w
  ∧ ∀ g id v, alignment SeqIO_parse s w g !! id = Some v → py.upper v = v.
Proof.
  split.
  - unfold msa_build.concat_msa.
    rewrite (read_all_ext _ SeqIO_parse); [done|]. apply read_records_upper.
  - intros g id v. unfold alignment.
    destruct (env.files w !! msa_build.msa_path s g); cbn [from_option]; [|by rewrite lookup_empty].
    apply read_records_values_upper.
Qed.

(** ** Concatenation: a single gene *)

(** X21. With a single gene [concat_msa] copies the alignment: the rows it
    writes are the records of the gene, each once and upper-cased, with
    nothing appended, and the report holds the gene with no missing
    sample. *)
Theorem concat_msa_single_gene
    (SeqIO_parse : string → list (string * string))
    (set_order : gset string → list string) (pick : string → nat)
    (s : msa_build.self) (w : env.world) (gene : string)
    (rows : list (string * string)) (missing : gmap string (list string)) :
  msa_build.genes s = [gene] →
  is_Some (env.files w !! msa_build.msa_path s gene) →
  (∀ X, set_order X ≡ₚ elements X) →
  msa_build.concat_msa SeqIO_parse set_order pick s w = py.Return (rows, missing) →
  rows ≡ₚ map_to_list (alignment SeqIO_parse s w gene)
  ∧ missing = {[ gene := [] ]}.
Proof.
  intros Hgenes Hfile Horder Hrun.
  assert (Hfiles : ∀ g, g ∈ [gene] → is_Some (env.files w !! msa_build.msa_path s g)).
  { intros g Hg. by apply list_elem_of_singleton in Hg as ->. }
  destruct (concat_msa_output SeqIO_parse set_order pick s w gene [] rows missing Hgenes
              (NoDup_singleton gene) Hfiles Horder Hrun) as (Hrows & Hm & _).
  destruct (concat_msa_rows_ids SeqIO_parse set_order pick s w gene [] rows missing
              Hgenes (NoDup_singleton gene) Hfiles Horder Hrun) as [_ Hnd].
  split.
  - apply NoDup_Permutation.
    + by apply NoDup_fmap_1 in Hnd.
    + apply NoDup_map_to_list.
    + intros [id v]. rewrite elem_of_map_to_list, Hrows, list_elem_of_omap. split.
      * intros (id' & _ & Hrow). unfold row, look in Hrow.
        destruct (alignment SeqIO_parse s w gene !! id') as [r|] eqn:Hr; [|done].
        cbn in Hrow. rewrite str_app_nil_r in Hrow. by simplify_eq.
      * intros Hv. exists id. split.
        -- rewrite Horder. apply elem_of_elements, elem_of_dom. by eexists.
        -- unfold row, look. rewrite Hv. cbn. by rewrite str_app_nil_r.
  - apply concat_msa_missing_dom in Hrun. rewrite Hgenes in Hrun.
    apply map_eq. intros k. destruct (decide (k = gene)) as [->|Hne].
    + by rewrite lookup_singleton_eq, Hm.
    + rewrite lookup_singleton_ne by done. apply not_elem_of_dom. rewrite Hrun. set_solver.
Qed.

Lemma concat_msa_single_gene_witness :
  ∃ rows missing,
    msa_build.concat_msa example.fasta elements (λ _, 0%nat) example.one_gene
      example.trimmed = py.Return (rows, missing)
    ∧ rows ≡ₚ map_to_list (alignment example.fasta example.one_gene example.trimmed "A")
    ∧ missing = {[ "A" := [] ]}.
Proof.
  assert (∃ rows missing,
    msa_build.concat_msa example.fasta elements (λ _, 0%nat) example.one_gene
      example.trimmed = py.Return (rows, missing)) as (rows & missing & Hrun)
    by (eexists _, _; vm_compute; reflexivity).
  exists rows, missing. split; [exact Hrun|].
  apply (concat_msa_single_gene example.fasta elements (λ _, 0%nat) example.one_gene
           example.trimmed "A" rows missing eq_refl); [by eexists|done|exact Hrun].
Defined.

(** ** The trimming page: shared samples and a trimmed gene *)

Lemma elem_of_foldl_intersection (x : gset string) (xs : list (gset string)) (id : string) :
  id ∈ foldl (∩) x xs ↔ ∀ X, X ∈ x :: xs → id ∈ X.
Proof.
  revert x. induction xs as [|y ys IH]; intros x; cbn [foldl].
  - split; [|intros H; apply H; left].
    intros Hid X HX. by apply list_elem_of_singleton in HX as ->.
  - rewrite IH. split.
    + intros H X HX. apply elem_of_cons in HX as [->|HX].
      * specialize (H (x ∩ y)). set_solver.
      * apply elem_of_cons in HX as [->|HX]; [specialize (H (x ∩ y)); set_solver|].
        apply H. by right.
    + intros H X HX. apply elem_of_cons in HX as [->|HX].
      * apply elem_of_intersection. split; apply H; set_solver.
      * apply H. by do 2 right.
Qed.

(** X22. The samples [do_gbl] works on are those found under every gene of
    [data.gene_ids] and not ignored; with no gene at all the intersection of
    nothing raises a [TypeError]. *)
Theorem shared_ids_in_every_gene (d : data) :
  (gene_ids d = ∅ → shared_ids d = py.Raise py.TypeError)
  ∧ (gene_ids d ≠ ∅ →
       ∃ ids, shared_ids d = py.Return ids
         ∧ ∀ id, id ∈ ids
             ↔ (∀ g X, gene_ids d !! g = Some X → id ∈ X) ∧ id ∉ ignore_ids d).
Proof.
  unfold shared_ids. split.
  - intros ->. by rewrite map_to_list_empty.
  - intros Hne. destruct ((map_to_list (gene_ids d)).*2) as [|x xs] eqn:Hl.
    { apply fmap_nil_inv, map_to_list_empty_iff in Hl. done. }
    eexists. split; [done|]. intros id.
    rewrite elem_of_difference, elem_of_foldl_intersection, <- Hl.
    split; intros [H ?]; (split; [|done]).
    + intros g X Hg. apply H, list_elem_of_fmap. exists (g, X).
      split; [done|]. by apply elem_of_map_to_list.
    + intros X HX. apply list_elem_of_fmap in HX as ([g X'] & -> & HX).
      apply elem_of_map_to_list in HX. by eapply H.
Qed.

Lemma trimmed_path_not_gbl_msa_path (wd gene : string) :
  gbl_page.msa_path wd gene ≠ gbl_page.raw_msa_path wd gene +:+ ".txt".
Proof.
  unfold gbl_page.msa_path, gbl_page.raw_msa_path.
  rewrite join_app_r by (by destruct gene). rewrite str_app_assoc.
  destruct (join_common (env.join wd gene) gene) as [pre Hpre].
  rewrite !Hpre by done. intros Heq. by do 2 apply (inj _) in Heq.
Qed.

Lemma block_texts_not_empty (blocks : list (nat * nat)) : block_text <$> blocks ≠ [""].
Proof.
  destruct blocks as [|b [|b' bs]]; [done| |done]. intros [= H].
  unfold block_text in H. pose proof (numeral_nonempty b.1) as Hn.
  destruct (numeral b.1); [done|]. by rewrite str_app_cons in H.
Qed.

Section trimmed_gene.
Context (Gblocks : env.gblocks_call → gmap string string → gmap string string * option string).
Context (SeqIO_parse : string → list (string * string)).
Context (seqtoint : string → list Z).
Context (wd : string) (shared : gset string).

(** X23. A gene whose samples match, whose trimmer run succeeds and whose report
    lists blocks under the heading is trimmed in one pass: the trimmer is
    launched once, its result becomes the trimmed alignment, the raw width
    is recorded, the listed blocks are added as ranges shifted by the raw
    widths of the genes before, the progress counter goes up by one and no
    error is added. *)
Theorem gene_step_trims (arg : string → env.gblocks_call)
    (gene : string) (st : state) (text trimmed report : string) (width : Z)
    (fs : gmap string string) (blocks : list (nat * nat)) :
  env.files (world st) !! raw_msa_path wd gene = Some text →
  dom (read_records SeqIO_parse text) = shared →
  shape1 (raw_rows seqtoint (read_records SeqIO_parse text) shared) = py.Return width →
  Gblocks (arg (raw_msa_path wd gene)) (env.files (world st)) = (fs, None) →
  fs !! (raw_msa_path wd gene +:+ ".txt") = Some trimmed →
  fs !! (raw_msa_path wd gene +:+ ".txt.txts") = Some report →
  flank_line (py.readlines report) = Some (flanks blocks) →
  blocks ≠ [] →
  ∃ st', gene_step Gblocks SeqIO_parse seqtoint wd (Some arg) shared gene st
         = py.Return (Completed st')
    ∧ slices st'
      = slices st
        ∪ list_to_set ((λ b, py.range (Z.of_nat b.1 - 1 + sum (msa_lens st))
                                      (Z.of_nat b.2 + sum (msa_lens st))) <$> blocks)
    ∧ msa_lens st' = (msa_lens st ++ [width])%list
    ∧ errors st' = errors st
    ∧ i st' = i st + 1
    ∧ env.files (world st') !! msa_path wd gene = Some trimmed
    ∧ env.files (world st') !! (raw_msa_path wd gene +:+ ".txt") = None
    ∧ env.calls (world st') = (env.calls (world st) ++ [arg (raw_msa_path wd gene)])%list.
Proof.
  intros Htext Hdom Hwidth Hrun Htrim Hrep Hflank Hne.
  unfold gene_step. rewrite Htext. rewrite bool_decide_false by naive_solver.
  fold (raw_rows seqtoint (read_records SeqIO_parse text) shared). rewrite Hwidth.
  cbn [mbind py.result_bind py.bind add_len world]. rewrite Hrun.
  unfold parse_result, env.move. cbn [set_world world env.files env.calls].
  rewrite Htrim. cbn [mbind py.result_bind py.bind env.files].
  rewrite lookup_insert_ne by apply report_path_not_msa_path.
  rewrite lookup_delete_ne by apply trimmed_path_not_report_path.
  rewrite Hrep, Hflank. cbn [set_line_blocks line_blocks].
  rewrite blocks_of_flanks by done.
  rewrite bool_decide_false by apply block_texts_not_empty.
  cbn [msa_lens set_world add_len set_line_blocks]. rewrite but_last_snoc.
  rewrite <- (blocks_of_flanks blocks) by done. rewrite block_slices_flanks by done.
  cbn [mbind py.result_bind py.bind]. eexists. split; [done|].
  cbn [tick add_slices set_world add_len set_line_blocks slices msa_lens errors i world
       env.files env.calls].
  split; [done|]. split; [done|]. split; [done|]. split; [done|].
  split; [by rewrite lookup_insert_eq|]. split; [|done].
  rewrite lookup_insert_ne by apply trimmed_path_not_gbl_msa_path.
  by rewrite lookup_delete_eq.
Qed.
End trimmed_gene.

Lemma gene_step_trims_witness :
  ∃ st', gene_step example.two_blocks example.fasta example.codes "wd" (Some example.base)
           {[ "x"; "y" ]} "A" (example.start example.raw) = py.Return (Completed st')
    ∧ slices st'
      = ∅ ∪ list_to_set ((λ b : nat * nat, py.range (Z.of_nat b.1 - 1 + 0) (Z.of_nat b.2 + 0))
                           <$> [(1%nat, 2%nat); (4%nat, 4%nat)])
    ∧ msa_lens st' = [4]
    ∧ i st' = 2.
Proof.
  destruct (gene_step_trims example.two_blocks example.fasta example.codes "wd"
              {[ "x"; "y" ]} example.base "A" (example.start example.raw)
              (">x" +:+ example.nl +:+ "ACGT" +:+ example.nl
               +:+ ">y" +:+ example.nl +:+ "AC-T" +:+ example.nl)
              "trimmed"
              ("Flank positions of the 2 selected block(s)" +:+ example.nl
               +:+ "Flanks: [1  2]  [4  4]  " +:+ example.nl)
              4 _ [(1%nat, 2%nat); (4%nat, 4%nat)]
              eq_refl ltac:(by vm_compute) ltac:(by vm_compute) eq_refl
              eq_refl eq_refl eq_refl ltac:(done))
    as (st' & Hrun & Hs & Hl & _ & Hi & _).
  exists st'. split; [exact Hrun|]. split; [exact Hs|]. split; [exact Hl|exact Hi].
Defined.

(** ** Instances on the examples *)


Lemma shared_ids_in_every_gene_witness :
  ∃ ids, shared_ids (example.dataset ["A"; "B"]) = py.Return ids
    ∧ ∀ id, id ∈ ids
        ↔ (∀ g X, gene_ids (example.dataset ["A"; "B"]) !! g = Some X → id ∈ X)
          ∧ id ∉ ignore_ids (example.dataset ["A"; "B"]).
Proof.
  apply (proj2 (shared_ids_in_every_gene (example.dataset ["A"; "B"]))).
  intros H. apply (f_equal (λ m, m !! "A")) in H. by vm_compute in H.
Defined.

Lemma mask_blocks_columns_witness :
  3 ∈ mask_blocks {[ py.range 0 2; py.range 3 4 ]}
  ↔ ∃ b : nat * nat, b ∈ [(1%nat, 2%nat); (4%nat, 4%nat)]
      ∧ Z.of_nat b.1 - 1 + 0 ≤ 3 < Z.of_nat b.2 + 0.
Proof.
  apply (proj2 (proj2 (proj2 (mask_blocks_columns {[ py.range 0 2; py.range 3 4 ]})))
           [(1%nat, 2%nat); (4%nat, 4%nat)] 0); [done|].
  rewrite block_slices_flanks by done. f_equal.
Defined.
